(** * TradingAIPro: the technical-analysis and decision engine

    A shallow embedding of the decision core of the repository
    (indicators.js, supportUtils.js with its recommendation part,
    moneyManagement.js and the order generation module) together with the
    properties that the specification states about it.

    Number model.  JavaScript numbers are IEEE doubles; here they are
    exact rationals ([Q]), so every statement below is about the
    arithmetic the code writes down, not about rounding in the last
    binary digit.  [null] is [None].  [NaN] and the infinities have no
    counterpart in [Q]: wherever the source can divide by zero without a
    guard, the statements carry the hypothesis that excludes it.  The two
    functions that call [Math.sqrt] on data ([determineConfidence] and
    [calculateBollingerBands]) are embedded over the real numbers. *)

From Stdlib Require Import QArith Qround Qminmax Qabs Qreals.
From Stdlib Require Import String Ascii.
From Stdlib Require Import List Sorted Bool ZArith Lia.
From Stdlib Require Import Reals Psatz.
Import ListNotations.

Local Open Scope Q_scope.

(** ** JavaScript values and operators over [Q] *)

Module Js.

(** [x < y] and [x > y] on numbers. *)
Definition ltb (x y : Q) : bool := negb (Qle_bool y x).
Definition gtb (x y : Q) : bool := ltb y x.
Definition leb (x y : Q) : bool := Qle_bool x y.
Definition geb (x y : Q) : bool := Qle_bool y x.
(** [x === y] on numbers. *)
Definition eqb (x y : Q) : bool := Qeq_bool x y.

(** Truthiness of a value that is a number or [null]:
    [null] and [0] are falsy. *)
Definition truthy (v : option Q) : bool :=
  match v with
  | Some q => negb (eqb q 0)
  | None => false
  end.

(** Numeric coercion of [null] in arithmetic and comparisons. *)
Definition toNumber (v : option Q) : Q :=
  match v with Some q => q | None => 0 end.

(** [Math.round]: the nearest integer, halves towards plus infinity. *)
Definition round (x : Q) : Q := inject_Z (Qfloor (x + 0.5)).

(** [Math.max(...xs)] and [Math.min(...xs)] on a non-empty array whose
    first element is [x]. *)
Definition maxOf (x : Q) (xs : list Q) : Q := fold_left Qmax xs x.
Definition minOf (x : Q) (xs : list Q) : Q := fold_left Qmin xs x.

(** [s.toLowerCase()] on the ASCII range. *)
Definition lowerAscii (c : ascii) : ascii :=
  let n := nat_of_ascii c in
  if ((65 <=? n) && (n <=? 90))%nat then ascii_of_nat (n + 32) else c.

Fixpoint toLowerCase (s : string) : string :=
  match s with
  | EmptyString => EmptyString
  | String c r => String (lowerAscii c) (toLowerCase r)
  end.

(** The class [\s] on the ASCII range: tab, line feed, vertical tab,
    form feed, carriage return and space. *)
Definition isSpace (c : ascii) : bool :=
  let n := nat_of_ascii c in
  ((9 <=? n) && (n <=? 13) || (n =? 32))%nat.

(** [s.replace(/\s+/g, '')]. *)
Fixpoint removeSpaces (s : string) : string :=
  match s with
  | EmptyString => EmptyString
  | String c r => if isSpace c then removeSpaces r
                  else String c (removeSpaces r)
  end.

(** [s.includes(t)]. *)
Fixpoint includes (s t : string) : bool :=
  String.prefix t s ||
  match s with
  | EmptyString => false
  | String _ r => includes r t
  end.

(** The idiom [name.toLowerCase().replace(/\s+/g, '')] that every
    profile dispatch of the repository starts with. *)
Definition normalizeProfile (name : string) : string :=
  removeSpaces (toLowerCase name).

(** What a call can do: return a value or throw. *)
Inductive outcome (A : Type) : Type :=
| Returned (a : A)
| Thrown.
Arguments Returned {A} a.
Arguments Thrown {A}.

End Js.

(** ** indicators.js *)

Module Indicators.

(** [arr.slice(a, b)] for [0 <= a]. *)
Definition slice {A : Type} (a b : nat) (l : list A) : list A :=
  firstn (b - a) (skipn a l).

(** [arr.reduce((a, b) => a + b, 0)]. *)
Definition sum (l : list Q) : Q := fold_left Qplus l 0.

Definition ofNat (n : nat) : Q := inject_Z (Z.of_nat n).

(** [calculateSMA(data, period)]: one entry per index [i] of [data]. *)
Definition calculateSMA (data : list Q) (period : nat) : list (option Q) :=
  map (fun i =>
         if (i <? period - 1)%nat then None
         else Some (sum (slice (i + 1 - period) (i + 1) data) / ofNat period))
      (seq 0 (length data)).

(** The array [changes] of [calculateRSI]:
    [changes[i-1] = prices[i] - prices[i-1]] for [1 <= i < prices.length]. *)
Definition priceChanges (prices : list Q) : list Q :=
  map (fun i => nth i prices 0 - nth (i - 1) prices 0)
      (seq 1 (length prices - 1)).

(** The inner loop of [calculateRSI] over one window of changes:
    the pair [(gains, losses)]. *)
Definition gainsLosses (window : list Q) : Q * Q :=
  fold_left (fun acc c =>
               if Js.gtb c 0 then (fst acc + c, snd acc)
               else (fst acc, snd acc - c))
            window (0, 0).

(** The body of the outer loop of [calculateRSI] at index [i]. *)
Definition rsiAt (changes : list Q) (period i : nat) : Q :=
  let gl := gainsLosses (slice (i - period) i changes) in
  let avgGain := fst gl / ofNat period in
  let avgLoss := snd gl / ofNat period in
  if Js.eqb avgLoss 0 then 100
  else
    let rs := avgGain / avgLoss in
    100 - 100 / (1 + rs).

(** [calculateRSI(prices, period)].  The outer loop runs over
    [period <= i < changes.length].  For [period = 0] the window is empty
    and the source pushes [0 / 0]; the statements about the entries take a
    period of at least one. *)
Definition calculateRSI (prices : list Q) (period : nat) : list (option Q) :=
  if (length prices <=? period)%nat then repeat None (length prices)
  else
    let changes := priceChanges prices in
    repeat None period
      ++ map (fun i => Some (rsiAt changes period i))
             (seq period (length changes - period)).

(** The body of the loop of [calculateEMA] at index [i]: the array after
    the push. *)
Definition emaStep (prices : list Q) (period : nat) (k : Q)
  (emaArray : list Q) (i : nat) : list Q :=
  if (i <? period)%nat
  then emaArray ++ [sum (slice 0 (i + 1) prices) / ofNat (i + 1)]
  else emaArray ++ [nth i prices 0 * k + nth (i - 1) emaArray 0 * (1 - k)].

(** The array [emaArray] at the end of the loop, started from
    [[prices[0]]]. *)
Definition emaValues (first : Q) (prices : list Q) (period : nat) : list Q :=
  let k := 2 / (ofNat period + 1) in
  fold_left (emaStep prices period k) (seq 1 (length prices - 1)) [first].

(** [calculateEMA(prices, period)].  On an empty series with period 0
    the source returns [[prices[0]]], one entry that is undefined. *)
Definition calculateEMA (prices : list Q) (period : nat) : list (option Q) :=
  if (length prices <? period)%nat then repeat None (length prices)
  else
    match prices with
    | [] => [None]
    | first :: _ => map Some (emaValues first prices period)
    end.







(** One element of [priceData]; only [high], [low] and [close] are
    read. *)
Record Candle : Type := {
  high : Q;
  low : Q;
  close : Q
}.











(** [Math.max(tr1, tr2, tr3)], the true range of a candle after
    [prev]. *)
Definition trueRange (cur prev : Candle) : Q :=
  let tr1 := high cur - low cur in
  let tr2 := Qabs (high cur - close prev) in
  let tr3 := Qabs (low cur - close prev) in
  Qmax (Qmax tr1 tr2) tr3.

(** [pDM] and [mDM], the directional movements of a candle after
    [prev]. *)
Definition plusMove (cur prev : Candle) : Q :=
  let upMove := high cur - high prev in
  let downMove := low prev - low cur in
  if Js.gtb upMove downMove && Js.gtb upMove 0 then upMove else 0.

Definition minusMove (cur prev : Candle) : Q :=
  let upMove := high cur - high prev in
  let downMove := low prev - low cur in
  if Js.gtb downMove upMove && Js.gtb downMove 0 then downMove else 0.

(** The arrays [trArray], [plusDM] and [minusDM] after the first loop of
    [calculateADX]: [0] at index 0, then one number per candle. *)
Definition movements (f : Candle -> Candle -> Q) (priceData : list Candle)
  : list Q :=
  let candle i :=
    nth i priceData {| high := 0; low := 0; close := 0 |} in
  0 :: map (fun i => f (candle i) (candle (i - 1)%nat))
           (seq 1 (length priceData - 1)).

(** [arr[i] = x] for an index below the length. *)
Definition setAt (i : nat) (x : Q) (arr : list Q) : list Q :=
  firstn i arr ++ x :: skipn (S i) arr.

(** The arrays that the second loop of [calculateADX] reads and
    writes. *)
Record Smoothing : Type := {
  atr : list Q;
  plusDM : list Q;
  minusDM : list Q;
  plusDIs : list Q;
  minusDIs : list Q
}.

(** The body of the second loop at index [i]: a plain mean up to
    [period], Wilder's smoothing afterwards, which overwrites [plusDM[i]]
    and [minusDM[i]]. *)
Definition smoothStep (period : nat) (trArray : list Q) (st : Smoothing)
  (i : nat) : Smoothing :=
  if (i <=? period)%nat
  then
    let atr_i := sum (slice 0 (i + 1) trArray) / ofNat (i + 1) in
    let sumPlusDM := sum (slice 0 (i + 1) (plusDM st)) in
    let sumMinusDM := sum (slice 0 (i + 1) (minusDM st)) in
    {| atr := atr st ++ [atr_i];
       plusDM := plusDM st;
       minusDM := minusDM st;
       plusDIs := plusDIs st ++ [sumPlusDM / atr_i * 100];
       minusDIs := minusDIs st ++ [sumMinusDM / atr_i * 100] |}
  else
    let atr_i :=
      (nth (i - 1) (atr st) 0 * (ofNat period - 1) + nth i trArray 0)
      / ofNat period in
    let smoothedPlusDM :=
      (nth (i - 1) (plusDM st) 0 * (ofNat period - 1) + nth i (plusDM st) 0)
      / ofNat period in
    let smoothedMinusDM :=
      (nth (i - 1) (minusDM st) 0 * (ofNat period - 1)
       + nth i (minusDM st) 0)
      / ofNat period in
    {| atr := atr st ++ [atr_i];
       plusDM := setAt i smoothedPlusDM (plusDM st);
       minusDM := setAt i smoothedMinusDM (minusDM st);
       plusDIs := plusDIs st ++ [smoothedPlusDM / atr_i * 100];
       minusDIs := minusDIs st ++ [smoothedMinusDM / atr_i * 100] |}.

(** The directional index pushed on [dx]. *)
Definition dxOf (plusDI minusDI : Q) : Q :=
  if Js.eqb (plusDI + minusDI) 0 then 0
  else Qabs (plusDI - minusDI) / (plusDI + minusDI) * 100.

(** The body of the third loop at index [i]; the state is [(dx, adx)].
    The index that [adx[i] = ...] writes is the length of [adx], so the
    assignment appends. *)
Definition adxStep (period : nat) (plusDI minusDI : list Q)
  (st : list Q * list (option Q)) (i : nat) : list Q * list (option Q) :=
  let dx := fst st ++ [dxOf (nth i plusDI 0) (nth i minusDI 0)] in
  let adx := snd st in
  if (period + 1 <=? i)%nat
  then
    if (i =? period + 1)%nat
    then (dx, adx ++ [Some (sum (slice (i - period) (i + 1) dx)
                            / ofNat period)])
    else (dx, adx ++ [Some ((Js.toNumber (nth (i - 1) adx None)
                             * (ofNat period - 1) + nth i dx 0)
                            / ofNat period)])
  else (dx, adx).

(** One object of the array that [calculateADX] returns. *)
Record AdxEntry : Type := {
  plusDI : Q;
  minusDI : Q;
  adx : option Q
}.

(** [calculateADX(priceData, period)].  For [period = 0] the source
    divides by zero; the statements take a period of at least one, and
    candles whose high is above their low, so that no average true range
    is 0. *)
Definition calculateADX (priceData : list Candle) (period : nat)
  : list (option AdxEntry) :=
  if (length priceData <? period * 2)%nat
  then repeat None (length priceData)
  else
    let trArray := movements trueRange priceData in
    let smoothed :=
      fold_left (smoothStep period trArray)
                (seq 1 (length trArray - 1))
                {| atr := [nth 0 trArray 0];
                   plusDM := movements plusMove priceData;
                   minusDM := movements minusMove priceData;
                   plusDIs := [0];
                   minusDIs := [0] |} in
    let averaged :=
      fold_left (adxStep period (plusDIs smoothed) (minusDIs smoothed))
                (seq 1 (length (plusDIs smoothed) - 1))
                ([0], repeat None (period + 1)) in
    map (fun i =>
           Some {| plusDI := nth i (plusDIs smoothed) 0;
                   minusDI := nth i (minusDIs smoothed) 0;
                   adx := nth i (snd averaged) None |})
        (seq 0 (length priceData)).

End Indicators.

(** ** The indicator snapshot ([technicalIndicators])

    Only the fields that the decision engine reads are kept.  A
    sub-object that may be missing is an [option]; a numeric field holds
    a number or [null].  The arrays [supports], [resistances] and
    [patterns] are lists: a missing array and an empty one take the same
    branch in every function below. *)

Module Snapshot.

Record PriceData : Type := {
  current : option Q;
  change : option Q
}.

Record MovingAverages : Type := {
  smaShort : option Q;
  smaMedium : option Q;
  smaLong : option Q;
  ema20 : option Q
}.

Record Momentum : Type := {
  rsi : option Q;
  macd : option Q;
  macdSignal : option Q;
  macdHistogram : option Q
}.

Record Volatility : Type := {
  value : option Q;
  bollingerUpper : option Q;
  bollingerMiddle : option Q;
  bollingerLower : option Q
}.

(** One entry of [trend.patterns]; a property that the entry does not
    have is [None]. *)
Record Pattern : Type := {
  pattern : string;
  direction : option string;
  strength : option string;
  implication : option string
}.

Record Trend : Type := {
  adx : option Q;
  plusDI : option Q;
  minusDI : option Q;
  patterns : list Pattern
}.

Record Levels : Type := {
  supports : list Q;
  resistances : list Q
}.

Record Volume : Type := {
  volumeCurrent : option Q;
  volumeAverage : option Q
}.

Record TechnicalIndicators : Type := {
  priceData : option PriceData;
  movingAverages : option MovingAverages;
  momentum : option Momentum;
  volatility : option Volatility;
  trend : option Trend;
  levels : option Levels;
  volume : option Volume
}.

(** [technicalIndicators.priceData?.current]. *)
Definition currentPrice (ti : TechnicalIndicators) : option Q :=
  match priceData ti with
  | Some pd => current pd
  | None => None
  end.

End Snapshot.

(** ** supportUtils.js, first part: levels, stop loss and target *)

Module SupportUtils.
Import Snapshot.

(** The [direction] argument: ['long'] or ['short']. *)
Inductive direction : Type := Long | Short.

Definition findNearestSupportBelow (ti : TechnicalIndicators) : option Q :=
  match levels ti, priceData ti with
  | Some lv, Some pd =>
      let currentPrice := Js.toNumber (current pd) in
      let validSupports :=
        filter (fun support => Js.ltb support currentPrice) (supports lv) in
      match validSupports with
      | [] => None
      | s :: rest => Some (Js.maxOf s rest)
      end
  | _, _ => None
  end.

Definition findNearestResistanceAbove (ti : TechnicalIndicators) : option Q :=
  match levels ti, priceData ti with
  | Some lv, Some pd =>
      let currentPrice := Js.toNumber (current pd) in
      let validResistances :=
        filter (fun resistance => Js.gtb resistance currentPrice)
               (resistances lv) in
      match validResistances with
      | [] => None
      | r :: rest => Some (Js.minOf r rest)
      end
  | _, _ => None
  end.

Record FibTargets : Type := {
  target1 : Q;
  target2 : Q;
  target3 : Q;
  target4 : Q
}.

Definition calculateFibonacciTargetsLong (ti : TechnicalIndicators)
  : option FibTargets :=
  match priceData ti with
  | None => None
  | Some pd =>
      let currentPrice := Js.toNumber (current pd) in
      let support := findNearestSupportBelow ti in
      if negb (Js.truthy support) then None
      else
        let range := currentPrice - Js.toNumber support in
        Some {| target1 := currentPrice + range * 0.382;
                target2 := currentPrice + range * 0.618;
                target3 := currentPrice + range * 1.0;
                target4 := currentPrice + range * 1.618 |}
  end.

Definition calculateFibonacciTargetsShort (ti : TechnicalIndicators)
  : option FibTargets :=
  match priceData ti with
  | None => None
  | Some pd =>
      let currentPrice := Js.toNumber (current pd) in
      let resistance := findNearestResistanceAbove ti in
      if negb (Js.truthy resistance) then None
      else
        let range := Js.toNumber resistance - currentPrice in
        Some {| target1 := currentPrice - range * 0.382;
                target2 := currentPrice - range * 0.618;
                target3 := currentPrice - range * 1.0;
                target4 := currentPrice - range * 1.618 |}
  end.

Section WithSqrt.

(** The value of [Math.sqrt(252)], a positive constant. *)
Variable sqrt252 : Q.

Definition calculateATRStopLoss (ti : TechnicalIndicators) (dir : direction)
  (multiplier : Q) : option Q :=
  match priceData ti, volatility ti with
  | Some pd, Some vol =>
      let currentPrice := Js.toNumber (current pd) in
      let atrEstimate :=
        currentPrice * (Js.toNumber (value vol) / 100) / sqrt252 in
      match dir with
      | Long => Some (currentPrice - atrEstimate * multiplier)
      | Short => Some (currentPrice + atrEstimate * multiplier)
      end
  | _, _ => None
  end.

(** [[smaShort, ema20, smaMedium].filter(ma => ma !== null && test(ma))]. *)
Definition validMAs (mas : MovingAverages) (test : Q -> bool) : list Q :=
  flat_map (fun ma => match ma with
                      | Some q => if test q then [q] else []
                      | None => []
                      end)
           [smaShort mas; ema20 mas; smaMedium mas].

Definition findMABasedStopLoss (ti : TechnicalIndicators) (dir : direction)
  : option Q :=
  match movingAverages ti with
  | None => None
  | Some mas =>
      let currentPrice := currentPrice ti in
      if negb (Js.truthy currentPrice) then None
      else
        let cp := Js.toNumber currentPrice in
        match dir with
        | Long =>
            match validMAs mas (fun ma => Js.ltb ma cp) with
            | [] => None
            | m :: rest => Some (Js.maxOf m rest)
            end
        | Short =>
            match validMAs mas (fun ma => Js.gtb ma cp) with
            | [] => None
            | m :: rest => Some (Js.minOf m rest)
            end
        end
  end.

(** A candidate stop: [{ value, weight, type }]. *)
Record Stop : Type := {
  stopValue : Q;
  stopWeight : Q;
  stopType : string
}.

(** The first [switch] of [calculateOptimalStopLoss]. *)
Definition stopAtrMultiplier (profile : string) : Q :=
  if (profile =? "falcodelloscalping")%string then 1.5
  else if (profile =? "serpentedelloswingtrading")%string
          || (profile =? "swing")%string then 2
  else if (profile =? "orsodellpositiontrading")%string
          || (profile =? "position")%string then 2.5
  else if (profile =? "tartarugadell'investimento")%string
          || (profile =? "longterm")%string then 3
  else 2.

(** The second [switch] of [calculateOptimalStopLoss]. *)
Definition stopPercentage (profile : string) : Q :=
  if (profile =? "falcodelloscalping")%string then 0.005
  else if (profile =? "serpentedelloswingtrading")%string
          || (profile =? "swing")%string then 0.02
  else if (profile =? "orsodellpositiontrading")%string
          || (profile =? "position")%string then 0.05
  else if (profile =? "tartarugadell'investimento")%string
          || (profile =? "longterm")%string then 0.1
  else 0.03.

(** [if (x) possibleStops.push({ value: x, weight, type })]. *)
Definition pushStop (x : option Q) (weight : Q) (type : string) : list Stop :=
  if Js.truthy x
  then [{| stopValue := Js.toNumber x; stopWeight := weight;
           stopType := type |}]
  else [].

(** The array [possibleStops], in the order in which it is filled. *)
Definition possibleStops (ti : TechnicalIndicators) (dir : direction)
  (profile : string) : list Stop :=
  (match dir with
   | Long => pushStop (findNearestSupportBelow ti) 3 "support"
   | Short => pushStop (findNearestResistanceAbove ti) 3 "resistance"
   end)
  ++ pushStop (calculateATRStopLoss ti dir (stopAtrMultiplier profile)) 2 "atr"
  ++ pushStop (findMABasedStopLoss ti dir) 2 "ma"
  ++ (if Js.truthy (currentPrice ti)
      then
        let cp := Js.toNumber (currentPrice ti) in
        let percentStop :=
          match dir with
          | Long => cp * (1 - stopPercentage profile)
          | Short => cp * (1 + stopPercentage profile)
          end in
        [{| stopValue := percentStop; stopWeight := 1;
            stopType := "percent" |}]
      else []).

(** [distance * stop.weight] for one candidate. *)
Definition stopScore (cp : Q) (stop : Stop) : Q :=
  let distance := Qabs ((stopValue stop - cp) / cp) in
  distance * stopWeight stop.

(** The selection loop.  The accumulator is [(bestStop, bestScore)];
    [None] is the initial state [bestStop = null, bestScore = -Infinity]. *)
Definition selectStop (cp : Q) (stops : list Stop) : option (Q * Q) :=
  fold_left (fun best stop =>
               let score := stopScore cp stop in
               match best with
               | None => Some (stopValue stop, score)
               | Some (_, bestScore) =>
                   if Js.gtb score bestScore
                   then Some (stopValue stop, score)
                   else best
               end)
            stops None.

Definition calculateOptimalStopLoss (ti : TechnicalIndicators)
  (dir : direction) (profileType : string) : option Q :=
  let profile := Js.normalizeProfile profileType in
  let stops := possibleStops ti dir profile in
  match stops with
  | [] => None
  | _ =>
      match selectStop (Js.toNumber (currentPrice ti)) stops with
      | Some (bestStop, _) => Some bestStop
      | None => None
      end
  end.

End WithSqrt.

(** A candidate target: [{ value, weight, type }].  The [description]
    text is not modelled. *)
Record Target : Type := {
  targetValue : Q;
  targetWeight : Q;
  targetType : string
}.

Definition fibTargetEntries (fib : option FibTargets) : list Target :=
  match fib with
  | None => []
  | Some f =>
      [ {| targetValue := target1 f; targetWeight := 1;
           targetType := "fib38" |};
        {| targetValue := target2 f; targetWeight := 2;
           targetType := "fib61" |};
        {| targetValue := target3 f; targetWeight := 1.5;
           targetType := "fib100" |} ]
  end.

(** The [switch] that sets [targetPercentage]; both arms of each
    conditional carry the same number. *)
Definition targetPercentage (profile : string) (dir : direction) : Q :=
  if (profile =? "falcodelloscalping")%string
  then match dir with Long => 0.01 | Short => 0.01 end
  else if (profile =? "serpentedelloswingtrading")%string
          || (profile =? "swing")%string
  then match dir with Long => 0.03 | Short => 0.03 end
  else if (profile =? "orsodellpositiontrading")%string
          || (profile =? "position")%string
  then match dir with Long => 0.08 | Short => 0.08 end
  else if (profile =? "tartarugadell'investimento")%string
          || (profile =? "longterm")%string
  then match dir with Long => 0.15 | Short => 0.15 end
  else match dir with Long => 0.05 | Short => 0.05 end.

(** The array [potentialTargets], in the order in which it is filled. *)
Definition potentialTargets (ti : TechnicalIndicators) (dir : direction)
  (profile : string) (cp : Q) : list Target :=
  (match dir with
   | Long =>
       let resistance := findNearestResistanceAbove ti in
       if Js.truthy resistance
       then [{| targetValue := Js.toNumber resistance; targetWeight := 3;
                targetType := "resistance" |}]
       else []
   | Short =>
       let support := findNearestSupportBelow ti in
       if Js.truthy support
       then [{| targetValue := Js.toNumber support; targetWeight := 3;
                targetType := "support" |}]
       else []
   end)
  ++ (match dir with
      | Long => fibTargetEntries (calculateFibonacciTargetsLong ti)
      | Short => fibTargetEntries (calculateFibonacciTargetsShort ti)
      end)
  ++ [{| targetValue :=
           match dir with
           | Long => cp * (1 + targetPercentage profile dir)
           | Short => cp * (1 - targetPercentage profile dir)
           end;
         targetWeight := 1;
         targetType := "percent" |}].

Definition targetDistance (cp : Q) (t : Target) : Q :=
  Qabs ((targetValue t - cp) / cp).

(** The scalping reducer, started from [null]. *)
Definition reduceScalping (cp : Q) (targets : list Target) : option Target :=
  fold_left (fun best target =>
               let distance := targetDistance cp target in
               match best with
               | None => Some target
               | Some b =>
                   if Js.ltb distance 0.02
                      && Js.gtb (targetWeight target) (targetWeight b)
                   then Some target else best
               end)
            targets None.

(** The swing reducer, started from [{score: -Infinity}]: the
    accumulator is the kept target with its score, [None] for the
    initial object (which has no [value]). *)
Definition reduceSwing (cp : Q) (targets : list Target)
  : option (Target * Q) :=
  fold_left (fun best target =>
               let score :=
                 targetWeight target * (1 / targetDistance cp target) in
               match best with
               | None => Some (target, score)
               | Some (_, bestScore) =>
                   if Js.gtb score bestScore then Some (target, score)
                   else best
               end)
            targets None.

(** The position and long-term reducer, started from
    [{distance: -Infinity}]. *)
Definition reduceLongTerm (cp : Q) (targets : list Target)
  : option (Target * Q) :=
  fold_left (fun best target =>
               let distance := targetDistance cp target in
               let further :=
                 match best with
                 | None => true
                 | Some (_, bestDistance) => Js.gtb distance bestDistance
                 end in
               if Js.geb (targetWeight target) 1.5 && further
               then Some (target, distance) else best)
            targets None.

(** The default reducer, started from [null]. *)
Definition reduceDefault (targets : list Target) : option Target :=
  fold_left (fun best target =>
               match best with
               | None => Some target
               | Some b =>
                   if Js.gtb (targetWeight target) (targetWeight b)
                   then Some target else best
               end)
            targets None.

(** [calculateOptimalTargetPrice].  The result is [None] when the
    function returns [null], and [Some v] when it returns an object
    whose [value] is [v] ([v = None] for a [value] that is undefined). *)
Definition calculateOptimalTargetPrice (ti : TechnicalIndicators)
  (dir : direction) (profileType : string) : option (option Q) :=
  let profile := Js.normalizeProfile profileType in
  if negb (Js.truthy (currentPrice ti)) then None
  else
    let cp := Js.toNumber (currentPrice ti) in
    let targets := potentialTargets ti dir profile cp in
    match targets with
    | [] =>
        Some (Some (match dir with
                    | Long => cp * 1.05
                    | Short => cp * 0.95
                    end))
    | _ =>
        if (profile =? "falcodelloscalping")%string
        then Some (option_map targetValue (reduceScalping cp targets))
        else if (profile =? "serpentedelloswingtrading")%string
                || (profile =? "swing")%string
        then Some (option_map (fun b => targetValue (fst b))
                              (reduceSwing cp targets))
        else if (profile =? "orsodellpositiontrading")%string
                || (profile =? "position")%string
                || (profile =? "tartarugadell'investimento")%string
                || (profile =? "longterm")%string
        then Some (option_map (fun b => targetValue (fst b))
                              (reduceLongTerm cp targets))
        else Some (option_map targetValue (reduceDefault targets))
    end.

(** [calculateRiskRewardRatio]: [None] is the [null] result. *)
Definition calculateRiskRewardRatio (entryPrice targetPrice stopLoss : option Q)
  : option Q :=
  if negb (Js.truthy entryPrice) || negb (Js.truthy targetPrice)
     || negb (Js.truthy stopLoss)
  then None
  else
    let risk := Qabs (Js.toNumber entryPrice - Js.toNumber stopLoss) in
    let reward := Qabs (Js.toNumber targetPrice - Js.toNumber entryPrice) in
    if Js.eqb risk 0 then None
    else Some (reward / risk).

End SupportUtils.

(** ** supportUtils.js, second part: the recommendation engine *)

Module Recommendation.
Import Snapshot.

(** The seven weights of a profile. *)
Record Weights : Type := {
  w_rsi : Q;
  w_macd : Q;
  w_ema : Q;
  w_adx : Q;
  w_bollinger : Q;
  w_volume : Q;
  w_pattern : Q
}.

(** The seven signals; [None] is the unavailable marker [null]. *)
Record Signals : Type := {
  s_rsi : option Q;
  s_macd : option Q;
  s_ema : option Q;
  s_adx : option Q;
  s_bollinger : option Q;
  s_volume : option Q;
  s_pattern : option Q
}.

Definition getWeightsForProfile (profileType : string) : Weights :=
  let profile := Js.normalizeProfile profileType in
  if (profile =? "falcodelloscalping")%string
  then {| w_rsi := 2.5; w_macd := 1.5; w_ema := 2.0; w_adx := 1.5;
          w_bollinger := 2.0; w_volume := 2.5; w_pattern := 1.0 |}
  else if (profile =? "serpentedelloswingtrading")%string
          || (profile =? "serpenteoftheswingtrading")%string
          || (profile =? "swing")%string
  then {| w_rsi := 2.0; w_macd := 2.5; w_ema := 2.0; w_adx := 2.0;
          w_bollinger := 1.5; w_volume := 1.0; w_pattern := 2.0 |}
  else if (profile =? "orsodellpositiontrading")%string
          || (profile =? "orsodelpositiontrading")%string
          || (profile =? "position")%string
  then {| w_rsi := 1.5; w_macd := 2.0; w_ema := 2.5; w_adx := 2.5;
          w_bollinger := 1.0; w_volume := 0.5; w_pattern := 1.5 |}
  else if (profile =? "tartarugadell'investimentoalungotermine")%string
          || (profile =? "tartarugadell'investimento")%string
          || (profile =? "tartarugadellinvestimento")%string
          || (profile =? "longterm")%string
  then {| w_rsi := 1.0; w_macd := 1.5; w_ema := 3.0; w_adx := 1.5;
          w_bollinger := 0.5; w_volume := 0.5; w_pattern := 1.0 |}
  else {| w_rsi := 2.0; w_macd := 2.0; w_ema := 2.0; w_adx := 2.0;
          w_bollinger := 1.5; w_volume := 1.0; w_pattern := 1.5 |}.

Definition calculateRSISignal (ti : TechnicalIndicators) : option Q :=
  match momentum ti with
  | None => None
  | Some m =>
      match rsi m with
      | None => None
      | Some rsi =>
          Some (if Js.gtb rsi 75 then -2
                else if Js.gtb rsi 65 then -1
                else if Js.ltb rsi 25 then 2
                else if Js.ltb rsi 35 then 1
                else if Js.gtb rsi 60 then -0.5
                else if Js.ltb rsi 40 then 0.5
                else 0)
      end
  end.

Definition calculateMACDSignal (ti : TechnicalIndicators) : option Q :=
  match momentum ti with
  | None => None
  | Some m =>
      match macd m, macdSignal m, macdHistogram m with
      | Some macd, Some signal, Some histogram =>
          Some (if Js.gtb macd signal
                then
                  if Js.gtb histogram 0
                  then if Js.gtb histogram (Qabs (macd * 0.1)) then 2 else 1
                  else 0.5
                else
                  if Js.ltb histogram 0
                  then if Js.ltb histogram (- Qabs (macd * 0.1))
                       then -2 else -1
                  else -0.5)
      | _, _, _ => None
      end
  end.

(** The slope step of [calculateEMASignal]: the contribution of
    [ratio = ema20 / smaMedium].  When [smaMedium] is [0] the quotient is
    [+Infinity], [-Infinity] or [NaN] by the sign of [ema20], and the two
    comparisons are taken on that value. *)
Definition slopeStep (ema20 smaMedium : Q) : Q :=
  if Js.eqb smaMedium 0
  then if Js.gtb ema20 0 then 0.5
       else if Js.ltb ema20 0 then -0.5
       else 0
  else
    let ratio := ema20 / smaMedium in
    if Js.gtb ratio 1.005 then 0.5
    else if Js.ltb ratio 0.995 then -0.5
    else 0.

(** The pair [(emaSignal, validIndicators)] after the four steps of
    [calculateEMASignal]. *)
Definition emaAccumulate (mas : MovingAverages) (price : Q) : Q * Q :=
  let acc0 := (0, 0) in
  let acc1 :=
    match ema20 mas, smaMedium mas with
    | Some e, Some m =>
        (fst acc0 + (if Js.gtb e m then 1 else -1), snd acc0 + 1)
    | _, _ => acc0
    end in
  let acc2 :=
    match ema20 mas with
    | Some e => (fst acc1 + (if Js.gtb price e then 1 else -1), snd acc1 + 1)
    | None => acc1
    end in
  let acc3 :=
    match smaLong mas with
    | Some l =>
        (fst acc2 + (if Js.gtb price l then 0.5 else -0.5), snd acc2 + 0.5)
    | None => acc2
    end in
  match ema20 mas, smaMedium mas with
  | Some e, Some m => (fst acc3 + slopeStep e m, snd acc3 + 0.5)
  | _, _ => acc3
  end.

Definition calculateEMASignal (ti : TechnicalIndicators) : option Q :=
  match movingAverages ti with
  | None => None
  | Some mas =>
      let price := currentPrice ti in
      if negb (Js.truthy price) then None
      else
        let acc := emaAccumulate mas (Js.toNumber price) in
        if Js.gtb (snd acc) 0 then Some (fst acc / snd acc) else None
  end.

Definition calculateADXSignal (ti : TechnicalIndicators) : option Q :=
  match trend ti with
  | None => None
  | Some t =>
      match adx t, plusDI t, minusDI t with
      | Some adx, Some plusDI, Some minusDI =>
          let adxStrength :=
            if Js.gtb adx 30 then 2
            else if Js.gtb adx 20 then 1.5
            else if Js.gtb adx 15 then 1
            else 0.5 in
          Some (if Js.gtb plusDI minusDI then adxStrength
                else if Js.ltb plusDI minusDI then - adxStrength
                else 0)
      | _, _, _ => None
      end
  end.

Definition calculateBollingerSignal (ti : TechnicalIndicators) : option Q :=
  match volatility ti, priceData ti with
  | Some v, Some pd =>
      if negb (Js.truthy (bollingerUpper v))
         || negb (Js.truthy (bollingerLower v))
         || negb (Js.truthy (bollingerMiddle v))
         || negb (Js.truthy (current pd))
      then None
      else
        let price := Js.toNumber (current pd) in
        let upper := Js.toNumber (bollingerUpper v) in
        let lower := Js.toNumber (bollingerLower v) in
        let middle := Js.toNumber (bollingerMiddle v) in
        if Js.gtb price upper then Some (-1.5)
        else if Js.ltb price lower then Some 1.5
        else
          let range := upper - lower in
          if Js.eqb range 0 then Some 0
          else
            let position := price - lower in
            let percentInBand := position / range in
            if Js.gtb percentInBand 0.85 then Some (-1)
            else if Js.gtb percentInBand 0.65 then Some (-0.5)
            else if Js.ltb percentInBand 0.15 then Some 1
            else if Js.ltb percentInBand 0.35 then Some 0.5
            else
              let distanceFromMiddle := Qabs (price - middle) / middle in
              if Js.ltb distanceFromMiddle 0.005 then Some 0
              else Some 0
  | _, _ => None
  end.

Definition calculateVolumeSignal (ti : TechnicalIndicators) : option Q :=
  match volume ti, priceData ti with
  | Some vol, Some pd =>
      match volumeCurrent vol, volumeAverage vol with
      | Some currentVolume, Some avgVolume =>
          let priceChange :=
            if Js.truthy (change pd) then Js.toNumber (change pd) else 0 in
          if Js.gtb currentVolume (avgVolume * 2)
          then Some (if Js.gtb priceChange 0 then 2 else -2)
          else if Js.gtb currentVolume (avgVolume * 1.5)
          then Some (if Js.gtb priceChange 0 then 1.5 else -1.5)
          else if Js.gtb currentVolume (avgVolume * 1.2)
          then Some (if Js.gtb priceChange 0 then 1 else -1)
          else if Js.ltb currentVolume (avgVolume * 0.5)
          then Some 0.5
          else Some 0
      | _, _ => None
      end
  | _, _ => None
  end.

(** [s === lit] for a property that may be undefined. *)
Definition isString (s : option string) (lit : string) : bool :=
  match s with
  | Some t => (t =? lit)%string
  | None => false
  end.

(** Truthiness of a string property: undefined and the empty string are
    falsy. *)
Definition truthyString (s : option string) : bool :=
  match s with
  | Some t => negb (t =? "")%string
  | None => false
  end.

(** The pair [(signalValue, weight)] of one pattern entry. *)
Definition patternContribution (p : Pattern) : Q * Q :=
  if (pattern p =? "Trend")%string
  then
    (if isString (direction p) "rialzista" then 1 else -1,
     if isString (strength p) "forte" then 2
     else if isString (strength p) "debole" then 0.5
     else 1)
  else if (pattern p =? "Doppio Massimo")%string then (-1.5, 1)
  else if (pattern p =? "Doppio Minimo")%string then (1.5, 1)
  else if truthyString (implication p)
  then
    (if isString (implication p) "rialzista" then 1.5
     else if isString (implication p) "ribassista" then -1.5
     else 0,
     1)
  else (0, 1).

(** The pair [(patternSignal, patternWeight)] after the loop. *)
Definition patternAccumulate (ps : list Pattern) : Q * Q :=
  fold_left (fun acc p =>
               let c := patternContribution p in
               (fst acc + fst c * snd c, snd acc + snd c))
            ps (0, 0).

Definition calculatePatternSignal (ti : TechnicalIndicators) : option Q :=
  match trend ti with
  | None => None
  | Some t =>
      match patterns t with
      | [] => None
      | ps =>
          let acc := patternAccumulate ps in
          if Js.gtb (snd acc) 0 then Some (fst acc / snd acc) else None
      end
  end.

(** The five labels that [determineRecommendation] returns. *)
Inductive label : Type :=
| CompraForte | Compra | Mantieni | Vendi | VendiForte.

Definition labelText (l : label) : string :=
  match l with
  | CompraForte => "Compra Forte"
  | Compra => "Compra"
  | Mantieni => "Mantieni"
  | Vendi => "Vendi"
  | VendiForte => "Vendi Forte"
  end.

Definition determineRecommendation (score : Q) : label :=
  if Js.gtb score 7 then CompraForte
  else if Js.gtb score 3 then Compra
  else if Js.gtb score (-3) then Mantieni
  else if Js.gtb score (-7) then Vendi
  else VendiForte.

(** Position of a label in the ordering
    StrongSell < Sell < Hold < Buy < StrongBuy. *)
Definition rank (l : label) : nat :=
  match l with
  | VendiForte => 0
  | Vendi => 1
  | Mantieni => 2
  | Compra => 3
  | CompraForte => 4
  end.

(** The three tiers used inside [determineConfidence]. *)
Inductive tier : Type := alta | media | bassa.

(** The three confidence levels. *)
Inductive confidence : Type := Alta | Media | Bassa.

(** [Object.values(signals).filter(signal => signal !== null)]. *)
Definition validSignals {A : Type} (signals : list (option A)) : list A :=
  flat_map (fun s => match s with Some v => [v] | None => [] end) signals.

(** [arr.reduce((sum, val) => sum + val, 0)] over the reals. *)
Definition sumR (l : list R) : R := fold_left Rplus l 0%R.

(** [mean]: the sum of the values over their number. *)
Definition meanOf (values : list R) : R :=
  (sumR values / INR (length values))%R.

(** [stdDev]: the square root of the mean squared difference from the
    mean. *)
Definition stdDevOf (values : list R) : R :=
  let mean := meanOf values in
  let squaredDiffs := map (fun val => ((val - mean) ^ 2)%R) values in
  let variance := (sumR squaredDiffs / INR (length squaredDiffs))%R in
  sqrt variance.

(** [stdDev || 1]: a number is falsy exactly when it is [0]. *)
Definition noiseDivisor (stdDev : R) : R :=
  if Req_dec_T stdDev 0 then 1%R else stdDev.

(** [x > high ? "alta" : x > medium ? "media" : "bassa"]. *)
Definition tierOf (x high medium : R) : tier :=
  if Rgt_dec x high then alta
  else if Rgt_dec x medium then media
  else bassa.

(** [determineConfidence(score, signals)], over the reals because of
    [Math.sqrt]. *)
Definition determineConfidence (score : R) (signals : list (option R))
  : confidence :=
  let valid := validSignals signals in
  if (length valid <? 2)%nat then Bassa
  else
    let mean := meanOf valid in
    let stdDev := stdDevOf valid in
    let signalToNoise := (Rabs mean / noiseDivisor stdDev)%R in
    let scoreStrength := tierOf (Rabs score) 5 2 in
    let signalCoherence := tierOf signalToNoise 1.5 0.8 in
    match scoreStrength, signalCoherence with
    | alta, alta => Alta
    | bassa, _ => Bassa
    | _, bassa => Bassa
    | _, _ => Media
    end.

(** The keys of [weights] in insertion order, each with the signal of
    the same name. *)
Definition weightedSignals (w : Weights) (s : Signals)
  : list (Q * option Q) :=
  [ (w_rsi w, s_rsi s); (w_macd w, s_macd s); (w_ema w, s_ema s);
    (w_adx w, s_adx s); (w_bollinger w, s_bollinger s);
    (w_volume w, s_volume s); (w_pattern w, s_pattern s) ].

(** [Object.values(signals)]. *)
Definition signalValues (s : Signals) : list (option Q) :=
  [ s_rsi s; s_macd s; s_ema s; s_adx s; s_bollinger s; s_volume s;
    s_pattern s ].

(** The pair [(totalScore, maxPossibleScore)] after the loop over the
    weights. *)
Definition scoreTotals (pairs : list (Q * option Q)) : Q * Q :=
  fold_left (fun acc p =>
               match snd p with
               | Some signal =>
                   (fst acc + signal * fst p, snd acc + Qabs (fst p * 2))
               | None => acc
               end)
            pairs (0, 0).

Definition normalizedScoreOf (w : Weights) (s : Signals) : Q :=
  let totals := scoreTotals (weightedSignals w s) in
  if Js.gtb (snd totals) 0 then (fst totals / snd totals) * 10 else 0.

Definition computeSignals (ti : TechnicalIndicators) : Signals :=
  {| s_rsi := calculateRSISignal ti;
     s_macd := calculateMACDSignal ti;
     s_ema := calculateEMASignal ti;
     s_adx := calculateADXSignal ti;
     s_bollinger := calculateBollingerSignal ti;
     s_volume := calculateVolumeSignal ti;
     s_pattern := calculatePatternSignal ti |}.

(** The object that [calculateWeightedRecommendation] returns; [score]
    holds [normalizedScore], which the source prints with [toFixed(2)]. *)
Record WeightedRecommendation : Type := {
  recommendation : label;
  score : Q;
  confidenceLevel : confidence
}.

Definition calculateWeightedRecommendation (ti : TechnicalIndicators)
  (profileType : string) : WeightedRecommendation :=
  let weights := getWeightsForProfile profileType in
  let signals := computeSignals ti in
  let normalizedScore := normalizedScoreOf weights signals in
  {| recommendation := determineRecommendation normalizedScore;
     score := normalizedScore;
     confidenceLevel :=
       determineConfidence (Q2R normalizedScore)
                           (map (option_map Q2R) (signalValues signals)) |}.

End Recommendation.

(** ** moneyManagement.js *)

Module MoneyManagement.

(** One settings object of [moneyManagementDefaults]. *)
Record Settings : Type := {
  maxRiskPerTrade : Q;
  maxDailyRisk : Q;
  maxDrawdown : Q;
  volatilityMultiplier : Q;
  scaleInLevels : Q;
  scaleOutLevels : Q;
  positionSizeAdjustment : Q;
  recommendedLeverage : Q
}.

(** The [newSettings] argument: any subset of the properties. *)
Record SettingsPatch : Type := {
  p_maxRiskPerTrade : option Q;
  p_maxDailyRisk : option Q;
  p_maxDrawdown : option Q;
  p_volatilityMultiplier : option Q;
  p_scaleInLevels : option Q;
  p_scaleOutLevels : option Q;
  p_positionSizeAdjustment : option Q;
  p_recommendedLeverage : option Q
}.

(** The object keyed by profile type. *)
Record ProfileSettings : Type := {
  scalping : Settings;
  swing : Settings;
  position : Settings;
  longterm : Settings
}.

Definition moneyManagementDefaults : ProfileSettings :=
  {| scalping :=
       {| maxRiskPerTrade := 0.01; maxDailyRisk := 0.03;
          maxDrawdown := 0.05; volatilityMultiplier := 0.8;
          scaleInLevels := 2; scaleOutLevels := 3;
          positionSizeAdjustment := 1.2; recommendedLeverage := 10 |};
     swing :=
       {| maxRiskPerTrade := 0.015; maxDailyRisk := 0.04;
          maxDrawdown := 0.08; volatilityMultiplier := 1.0;
          scaleInLevels := 3; scaleOutLevels := 3;
          positionSizeAdjustment := 1.0; recommendedLeverage := 5 |};
     position :=
       {| maxRiskPerTrade := 0.02; maxDailyRisk := 0.05;
          maxDrawdown := 0.12; volatilityMultiplier := 1.2;
          scaleInLevels := 4; scaleOutLevels := 2;
          positionSizeAdjustment := 0.9; recommendedLeverage := 3 |};
     longterm :=
       {| maxRiskPerTrade := 0.025; maxDailyRisk := 0.05;
          maxDrawdown := 0.15; volatilityMultiplier := 1.5;
          scaleInLevels := 5; scaleOutLevels := 2;
          positionSizeAdjustment := 0.8; recommendedLeverage := 1 |} |}.

(** The module state: the variable [userSettings] and the entry
    ['moneyManagementSettings'] of [localStorage]. *)
Record State : Type := {
  userSettings : ProfileSettings;
  localStorage : option ProfileSettings
}.

(** [let userSettings = JSON.parse(JSON.stringify(moneyManagementDefaults))]. *)
Definition initialState : State :=
  {| userSettings := moneyManagementDefaults; localStorage := None |}.

(** A computation that reads and writes the module state. *)
Definition M (A : Type) : Type := State -> A * State.

Definition ret {A : Type} (a : A) : M A := fun st => (a, st).

Definition bind {A B : Type} (m : M A) (k : A -> M B) : M B :=
  fun st => let r := m st in k (fst r) (snd r).

Definition gets {A : Type} (f : State -> A) : M A := fun st => (f st, st).

Definition modify (f : State -> State) : M unit := fun st => (tt, f st).

Notation "x <- m ;; k" := (bind m (fun x => k))
  (at level 61, m at next level, right associativity).

(** [userSettings[profileType]]. *)
Definition lookupProfile (us : ProfileSettings) (profileType : string)
  : option Settings :=
  if (profileType =? "scalping")%string then Some (scalping us)
  else if (profileType =? "swing")%string then Some (swing us)
  else if (profileType =? "position")%string then Some (position us)
  else if (profileType =? "longterm")%string then Some (longterm us)
  else None.

(** [userSettings[profileType] = s]. *)
Definition storeProfile (us : ProfileSettings) (profileType : string)
  (s : Settings) : ProfileSettings :=
  if (profileType =? "scalping")%string
  then {| scalping := s; swing := swing us; position := position us;
          longterm := longterm us |}
  else if (profileType =? "swing")%string
  then {| scalping := scalping us; swing := s; position := position us;
          longterm := longterm us |}
  else if (profileType =? "position")%string
  then {| scalping := scalping us; swing := swing us; position := s;
          longterm := longterm us |}
  else if (profileType =? "longterm")%string
  then {| scalping := scalping us; swing := swing us;
          position := position us; longterm := s |}
  else us.

Definition orElse (new : option Q) (old : Q) : Q :=
  match new with Some v => v | None => old end.

(** [{...old, ...patch}]. *)
Definition applyPatch (old : Settings) (patch : SettingsPatch) : Settings :=
  {| maxRiskPerTrade := orElse (p_maxRiskPerTrade patch) (maxRiskPerTrade old);
     maxDailyRisk := orElse (p_maxDailyRisk patch) (maxDailyRisk old);
     maxDrawdown := orElse (p_maxDrawdown patch) (maxDrawdown old);
     volatilityMultiplier :=
       orElse (p_volatilityMultiplier patch) (volatilityMultiplier old);
     scaleInLevels := orElse (p_scaleInLevels patch) (scaleInLevels old);
     scaleOutLevels := orElse (p_scaleOutLevels patch) (scaleOutLevels old);
     positionSizeAdjustment :=
       orElse (p_positionSizeAdjustment patch) (positionSizeAdjustment old);
     recommendedLeverage :=
       orElse (p_recommendedLeverage patch) (recommendedLeverage old) |}.

(** [{...settings, maxRiskPerTrade: v}]. *)
Definition withMaxRiskPerTrade (s : Settings) (v : Q) : Settings :=
  {| maxRiskPerTrade := v;
     maxDailyRisk := maxDailyRisk s;
     maxDrawdown := maxDrawdown s;
     volatilityMultiplier := volatilityMultiplier s;
     scaleInLevels := scaleInLevels s;
     scaleOutLevels := scaleOutLevels s;
     positionSizeAdjustment := positionSizeAdjustment s;
     recommendedLeverage := recommendedLeverage s |}.

(** The [accountInfo] argument; only [balance] is read. *)
Record AccountInfo : Type := {
  balance : option Q
}.

(** The branch on the normalized profile name: which entry of
    [userSettings] is read. *)
Definition selectSettings (us : ProfileSettings) (profile : string)
  : Settings :=
  if Js.includes profile "scalp" || Js.includes profile "falco"
  then scalping us
  else if Js.includes profile "swing" || Js.includes profile "serpente"
  then swing us
  else if Js.includes profile "position" || Js.includes profile "orso"
  then position us
  else if Js.includes profile "longterm" || Js.includes profile "tartaruga"
  then longterm us
  else swing us.

(** The adjustment of the settings by the account balance. *)
Definition adjustForBalance (accountInfo : option AccountInfo)
  (settings : Settings) : Settings :=
  match accountInfo with
  | None => settings
  | Some ai =>
      if Js.truthy (balance ai)
      then
        let b := Js.toNumber (balance ai) in
        if Js.ltb b 1000
        then withMaxRiskPerTrade settings
               (Qmax 0.005 (maxRiskPerTrade settings * 0.7))
        else if Js.gtb b 50000
        then withMaxRiskPerTrade settings
               (Qmin 0.01 (maxRiskPerTrade settings * 0.8))
        else settings
      else settings
  end.

Definition getMoneyManagementSettings (accountInfo : option AccountInfo)
  (profileName : string) : M Settings :=
  us <- gets userSettings ;;
  let profile := Js.normalizeProfile profileName in
  ret (adjustForBalance accountInfo (selectSettings us profile)).

(** [updateMoneyManagementSettings(profileType, newSettings)]; the
    result [None] is the [null] returned for an invalid profile type. *)
Definition updateMoneyManagementSettings (profileType : string)
  (newSettings : SettingsPatch) : M (option Settings) :=
  us <- gets userSettings ;;
  match lookupProfile us profileType with
  | None => ret None
  | Some old =>
      let updated := storeProfile us profileType (applyPatch old newSettings) in
      _ <- modify (fun _ => {| userSettings := updated;
                               localStorage := Some updated |}) ;;
      ret (lookupProfile updated profileType)
  end.


(** The arguments of [calculatePositionSize] after its three guards:
    a missing or non-positive value is replaced by its default. *)
Definition orDefault (x : option Q) (default : Q) : Q :=
  if negb (Js.truthy x) || Js.leb (Js.toNumber x) 0
  then default else Js.toNumber x.

(** [volatility = 15]: [None] is an omitted argument, [Some v] a passed
    value [v], which is a number or [null]. *)
Definition volatilityOrDefault (volatility : option (option Q)) : Q :=
  match volatility with
  | None => 15
  | Some v => Js.toNumber v
  end.

Definition volatilityFactor (volatility : Q) : Q :=
  if Js.gtb volatility 25 then 0.8
  else if Js.ltb volatility 10 then 1.2
  else 1.0.

(** [estimatedPipValue], the unit-risk estimate. *)
Definition estimatedPipValue (accountBalance : Q) : Q :=
  accountBalance * 0.0001.

(** [positionSize] before rounding and clamping:
    [(riskAmount / estimatedPipValue) * volatilityFactor]. *)
Definition baseSize (accountBalance riskPercent maxRiskPerTrade
  volatility : Q) : Q :=
  let effectiveRiskPercent := Qmin riskPercent maxRiskPerTrade in
  let riskAmount := accountBalance * effectiveRiskPercent in
  (riskAmount / estimatedPipValue accountBalance)
  * volatilityFactor volatility.

(** [maxSize], the ceiling of 5% of the balance. *)
Definition maxSize (accountBalance : Q) : Q :=
  accountBalance * 0.05 / estimatedPipValue accountBalance.

(** [calculatePositionSize(accountBalance, riskPercent, maxRiskPerTrade,
    volatility = 15)]. *)
Definition calculatePositionSize (accountBalance riskPercent
  maxRiskPerTrade : option Q) (volatility : option (option Q)) : Q :=
  let accountBalance := orDefault accountBalance 10000 in
  let riskPercent := orDefault riskPercent 0.01 in
  let maxRiskPerTrade := orDefault maxRiskPerTrade 0.02 in
  let volatility := volatilityOrDefault volatility in
  let positionSize :=
    baseSize accountBalance riskPercent maxRiskPerTrade volatility in
  let positionSize := Js.round (positionSize * 100) / 100 in
  Qmin positionSize (maxSize accountBalance).

(** [moneySettings.riskPerTrade]: no settings object has a property of
    that name, so the read yields undefined. *)
Definition riskPerTrade (s : Settings) : option Q := None.







(** One record of the account history: [{ balance, date }]. *)
Record HistoryRecord : Type := {
  recordBalance : Q;
  recordDate : string
}.

(** The object that [calculateDrawdown] returns; [statsMaxDrawdown] is
    its property [maxDrawdown], and [peakDate] is missing on an empty
    history. *)
Record DrawdownStats : Type := {
  currentDrawdown : Q;
  statsMaxDrawdown : Q;
  fromPeak : Q;
  peakDate : option string
}.

(** The body of the loop of [calculateDrawdown]; the accumulator is
    [(peak, peakDate, maxDrawdown)]. *)
Definition drawdownStep (acc : Q * string * Q) (record : HistoryRecord)
  : Q * string * Q :=
  let '(peak, peakDate, maxDrawdown) := acc in
  let newPeak := Js.gtb (recordBalance record) peak in
  let peak := if newPeak then recordBalance record else peak in
  let peakDate := if newPeak then recordDate record else peakDate in
  let drawdown := (peak - recordBalance record) / peak in
  (peak, peakDate,
   if Js.gtb drawdown maxDrawdown then drawdown else maxDrawdown).

(** [calculateDrawdown(accountHistory)]; [None] is a missing history. *)
Definition calculateDrawdown (accountHistory : option (list HistoryRecord))
  : DrawdownStats :=
  match accountHistory with
  | None | Some [] =>
      {| currentDrawdown := 0; statsMaxDrawdown := 0; fromPeak := 0;
         peakDate := None |}
  | Some (first :: rest) =>
      let history := first :: rest in
      let '(peak, peakDate, maxDrawdown) :=
        fold_left drawdownStep history
                  (recordBalance first, recordDate first, 0) in
      let currentBalance := recordBalance (last history first) in
      {| currentDrawdown := (peak - currentBalance) / peak;
         statsMaxDrawdown := maxDrawdown;
         fromPeak := peak;
         peakDate := Some peakDate |}
  end.








End MoneyManagement.

(** ** The order generation module (orderGeneration.js) *)

Module OrderGeneration.
Import Snapshot SupportUtils MoneyManagement.

Inductive orderType : Type := BUY | SELL.

(** [tradingProfile]; only [name] takes part in the computation. *)
Record TradingProfile : Type := {
  name : string
}.

Record AnalysisData : Type := {
  symbol : string;
  technicalIndicators : TechnicalIndicators;
  tradingProfile : TradingProfile
}.

Definition determineOrderType (recommendation : string) : option orderType :=
  if (recommendation =? "")%string then None
  else
    let rec := Js.toLowerCase recommendation in
    if Js.includes rec "compra" then Some BUY
    else if Js.includes rec "vendi" then Some SELL
    else None.

(** The [switch] of [calculateEntryPrice]: the relative deviation of the
    entry from the current price. *)
Definition entryDeviation (profile : string) : Q :=
  if (profile =? "falcodelloscalping")%string then 0.0015
  else if (profile =? "serpentedelloswingtrading")%string
          || (profile =? "serpenteoftheswingtrading")%string
          || (profile =? "swing")%string then 0.005
  else if (profile =? "orsodellpositiontrading")%string
          || (profile =? "orsodelpositiontrading")%string
          || (profile =? "position")%string
          || (profile =? "tartarugadell'investimento")%string
          || (profile =? "tartarugadellinvestimento")%string
          || (profile =? "longterm")%string then 0.01
  else 0.003.

(** [calculateEntryPrice]; reading [priceData.current] throws when
    [priceData] is missing. *)
Definition calculateEntryPrice (ti : TechnicalIndicators) (ot : orderType)
  (profileName : string) : Js.outcome Q :=
  match priceData ti with
  | None => Js.Thrown
  | Some pd =>
      let currentPrice := Js.toNumber (current pd) in
      let profile := Js.normalizeProfile profileName in
      let deviation := currentPrice * entryDeviation profile in
      let entryPrice :=
        match ot with
        | BUY => currentPrice - deviation
        | SELL => currentPrice + deviation
        end in
      Js.Returned (Js.round (entryPrice * 100) / 100)
  end.

Definition getMinimumRiskRewardRatio (profileName : string) : Q :=
  let profile := Js.normalizeProfile profileName in
  if (profile =? "falcodelloscalping")%string then 1.2
  else if (profile =? "serpentedelloswingtrading")%string
          || (profile =? "serpenteoftheswingtrading")%string
          || (profile =? "swing")%string then 1.5
  else if (profile =? "orsodellpositiontrading")%string
          || (profile =? "orsodelpositiontrading")%string
          || (profile =? "position")%string then 2.0
  else if (profile =? "tartarugadell'investimento")%string
          || (profile =? "tartarugadellinvestimento")%string
          || (profile =? "longterm")%string then 2.5
  else 1.5.

(** The numeric fields of an order with [valid: true]; the expiry date
    and the formatted texts are not modelled. *)
Record Order : Type := {
  orderSymbol : string;
  orderKind : orderType;
  entryPrice : Q;
  stopLoss : Q;
  targetPrice : Q;
  positionSize : Q;
  riskRewardRatio : Q;
  orderProfile : string
}.

(** The three [message] texts of an order with [valid: false]; the
    third one quotes the ratio and the minimum. *)
Inductive rejection : Type :=
| NoClearDirection
| InvalidPriceLevels
| RiskRewardBelowMinimum (ratio minimumRR : Q).

(** The object that [generateMT4Order] returns. *)
Inductive OrderProposal : Type :=
| Rejected (message : rejection)
| Accepted (order : Order).

Definition valid (p : OrderProposal) : bool :=
  match p with
  | Accepted _ => true
  | Rejected _ => false
  end.

Definition directionOf (ot : orderType) : direction :=
  match ot with
  | BUY => Long
  | SELL => Short
  end.

Section WithSqrt.

Variable sqrt252 : Q.

(** [generateMT4Order(analysisData, recommendation, accountInfo)].
    Three statements can throw: the read of [priceData.current], the
    call [riskRewardRatio.toFixed(2)] on a [null] ratio, and the reads
    [accountInfo.balance] and [volatility.value] on a missing object. *)
Definition generateMT4Order (analysisData : AnalysisData)
  (recommendation : string) (accountInfo : option AccountInfo)
  : M (Js.outcome OrderProposal) :=
  let ti := technicalIndicators analysisData in
  let profileName := name (tradingProfile analysisData) in
  match determineOrderType recommendation with
  | None => ret (Js.Returned (Rejected NoClearDirection))
  | Some ot =>
      match calculateEntryPrice ti ot profileName with
      | Js.Thrown => ret Js.Thrown
      | Js.Returned entry =>
          let stop :=
            calculateOptimalStopLoss sqrt252 ti (directionOf ot) profileName in
          let targetResult :=
            calculateOptimalTargetPrice ti (directionOf ot) profileName in
          let target :=
            match targetResult with
            | Some r => r
            | None => None
            end in
          if negb (Js.truthy (Some entry)) || negb (Js.truthy stop)
             || negb (Js.truthy target)
          then ret (Js.Returned (Rejected InvalidPriceLevels))
          else
            let ratio := calculateRiskRewardRatio (Some entry) target stop in
            let minimumRR := getMinimumRiskRewardRatio profileName in
            if Js.ltb (Js.toNumber ratio) minimumRR
            then
              match ratio with
              | None => ret Js.Thrown
              | Some r =>
                  ret (Js.Returned
                         (Rejected (RiskRewardBelowMinimum r minimumRR)))
              end
            else
              let risk := Qabs (entry - Js.toNumber stop) / entry in
              moneySettings <- getMoneyManagementSettings accountInfo
                                 profileName ;;
              match accountInfo, volatility ti with
              | Some ai, Some vol =>
                  let size :=
                    calculatePositionSize (balance ai) (Some risk)
                      (riskPerTrade moneySettings) (Some (value vol)) in
                  ret (Js.Returned
                         (Accepted
                            {| orderSymbol := symbol analysisData;
                               orderKind := ot;
                               entryPrice := entry;
                               stopLoss := Js.toNumber stop;
                               targetPrice := Js.toNumber target;
                               positionSize := size;
                               riskRewardRatio := Js.toNumber ratio;
                               orderProfile := profileName |}))
              | _, _ => ret Js.Thrown
              end
      end
  end.

End WithSqrt.

(** [getConfidenceLevel(recommendation)]. *)
Definition getConfidenceLevel (recommendation : string) : string :=
  if Js.includes (Js.toLowerCase recommendation) "forte"
  then "Alta" else "Media".

End OrderGeneration.

(** ** Vocabulary of the statements *)

(** Each price is strictly below the next one. *)
Definition strictlyIncreasing (prices : list Q) : Prop :=
  forall i, (i + 1 < length prices)%nat ->
            nth i prices 0 < nth (i + 1) prices 0.

(** The key of [userSettings] that [getMoneyManagementSettings] reads
    for a normalized profile name. *)
Definition selectedKey (profile : string) : string :=
  if Js.includes profile "scalp" || Js.includes profile "falco"
  then "scalping"
  else if Js.includes profile "swing" || Js.includes profile "serpente"
  then "swing"
  else if Js.includes profile "position" || Js.includes profile "orso"
  then "position"
  else if Js.includes profile "longterm" || Js.includes profile "tartaruga"
  then "longterm"
  else "swing".

(** The state after a sequence of calls
    [updateMoneyManagementSettings(profileType, newSettings)]. *)
Definition afterUpdates
  (updates : list (string * MoneyManagement.SettingsPatch))
  (st : MoneyManagement.State) : MoneyManagement.State :=
  fold_left (fun st u =>
               snd (MoneyManagement.updateMoneyManagementSettings
                      (fst u) (snd u) st))
            updates st.

(** A patch that sets [maxRiskPerTrade] only. *)
Definition patchMaxRisk (v : Q) : MoneyManagement.SettingsPatch :=
  {| MoneyManagement.p_maxRiskPerTrade := Some v;
     MoneyManagement.p_maxDailyRisk := None;
     MoneyManagement.p_maxDrawdown := None;
     MoneyManagement.p_volatilityMultiplier := None;
     MoneyManagement.p_scaleInLevels := None;
     MoneyManagement.p_scaleOutLevels := None;
     MoneyManagement.p_positionSizeAdjustment := None;
     MoneyManagement.p_recommendedLeverage := None |}.

(** A signal is the unavailable marker or a number in [-2, 2]. *)
Definition signalInRange (s : option Q) : Prop :=
  match s with
  | None => True
  | Some v => -2 <= v /\ v <= 2
  end.

(** The confidence rule in the words of the specification: the divisor
    is [max(stdDev, 1)], and the rule is applied to whatever signals are
    available. *)
Definition specifiedConfidence (score : R) (signals : list (option R))
  : Recommendation.confidence :=
  let valid := Recommendation.validSignals signals in
  let mean := Recommendation.meanOf valid in
  let stdDev := Recommendation.stdDevOf valid in
  let signalToNoise := (Rabs mean / Rmax stdDev 1)%R in
  match Recommendation.tierOf (Rabs score) 5 2,
        Recommendation.tierOf signalToNoise 1.5 0.8 with
  | Recommendation.alta, Recommendation.alta => Recommendation.Alta
  | Recommendation.bassa, _ => Recommendation.Bassa
  | _, Recommendation.bassa => Recommendation.Bassa
  | _, _ => Recommendation.Media
  end.

(** The side of the current price on which a candidate stop lies, and
    the bound on its weight. *)
Definition stopOnSide (dir : SupportUtils.direction) (cp : Q)
  (st : SupportUtils.Stop) : Prop :=
  match dir with
  | SupportUtils.Long => SupportUtils.stopValue st <= cp
  | SupportUtils.Short => cp <= SupportUtils.stopValue st
  end
  /\ 0 < SupportUtils.stopWeight st /\ SupportUtils.stopWeight st <= 3.

(** The profile names, already normalized, for which
    [calculateOptimalTargetPrice] takes the reducer of the position and
    long-term traders. *)
Definition isLongTermProfile (profile : string) : bool :=
  (profile =? "orsodellpositiontrading")%string
  || (profile =? "position")%string
  || (profile =? "tartarugadell'investimento")%string
  || (profile =? "longterm")%string.


(** What the second loop of [calculateADX] keeps, for [n] candles, before
    it handles index [k]: the three arrays it pushes on have [k] entries,
    the averages of the true range are positive from index 1 on, and the
    directional movements and indices are not negative. *)
Definition smoothingInvariant (n k : nat) (st : Indicators.Smoothing)
  : Prop :=
  length (Indicators.atr st) = k
  /\ length (Indicators.plusDIs st) = k
  /\ length (Indicators.minusDIs st) = k
  /\ length (Indicators.plusDM st) = n
  /\ length (Indicators.minusDM st) = n
  /\ Forall (fun x => 0 <= x) (Indicators.plusDM st)
  /\ Forall (fun x => 0 <= x) (Indicators.minusDM st)
  /\ (forall j, (1 <= j)%nat -> (j < k)%nat ->
                0 < nth j (Indicators.atr st) 0)
  /\ Forall (fun x => 0 <= x) (Indicators.plusDIs st)
  /\ Forall (fun x => 0 <= x) (Indicators.minusDIs st).

(** The largest value that the first average of [period + 1] directional
    indices, divided by [period], can take. *)
Definition adxCeiling (period : nat) : Q :=
  100 * (Indicators.ofNat period + 1) / Indicators.ofNat period.

(** What the third loop of [calculateADX] keeps before it handles index
    [k]: [dx] has [k] entries between 0 and 100, and [adx] is [null] up to
    index [period] and a number between 0 and the ceiling afterwards. *)
Definition averagingInvariant (period k : nat)
  (st : list Q * list (option Q)) : Prop :=
  length (fst st) = k
  /\ Forall (fun x => 0 <= x /\ x <= 100) (fst st)
  /\ length (snd st) = Nat.max (period + 1) k
  /\ (forall j, (j <= period)%nat -> nth j (snd st) None = None)
  /\ (forall j, (period < j)%nat -> (j < k)%nat ->
        exists v, nth j (snd st) None = Some v
                  /\ 0 <= v /\ v <= adxCeiling period).

(** ** Sample inputs *)

(** The double that [Math.sqrt(252)] evaluates to, read as a rational. *)
Definition sqrt252Double : Q := 15.874507866387544.

(** A snapshot with a current price, a volatility, support and
    resistance levels, and nothing else. *)
Definition levelsSnapshot (price vol : Q) (sup res : list Q)
  : Snapshot.TechnicalIndicators :=
  {| Snapshot.priceData :=
       Some {| Snapshot.current := Some price; Snapshot.change := None |};
     Snapshot.movingAverages := None;
     Snapshot.momentum := None;
     Snapshot.volatility :=
       Some {| Snapshot.value := Some vol;
               Snapshot.bollingerUpper := None;
               Snapshot.bollingerMiddle := None;
               Snapshot.bollingerLower := None |};
     Snapshot.trend := None;
     Snapshot.levels :=
       Some {| Snapshot.supports := sup; Snapshot.resistances := res |};
     Snapshot.volume := None |}.

Definition analysisOf (profileName : string)
  (ti : Snapshot.TechnicalIndicators) : OrderGeneration.AnalysisData :=
  {| OrderGeneration.symbol := "AAPL";
     OrderGeneration.technicalIndicators := ti;
     OrderGeneration.tradingProfile :=
       {| OrderGeneration.name := profileName |} |}.

(** The account of the caller in the application: a balance of 10000. *)
Definition sampleAccount : option MoneyManagement.AccountInfo :=
  Some {| MoneyManagement.balance := Some 10000 |}.

(** * Properties *)

(** ** Reflection of the boolean comparisons *)

Lemma ltb_lt (x y : Q) : Js.ltb x y = true <-> x < y.
Proof.
  unfold Js.ltb. rewrite negb_true_iff.
  split; intro H.
  - apply Qnot_le_lt. intro L. apply Qle_bool_iff in L. congruence.
  - destruct (Qle_bool y x) eqn:E; [| reflexivity].
    apply Qle_bool_iff in E. lra.
Qed.

Lemma ltb_ge (x y : Q) : Js.ltb x y = false <-> y <= x.
Proof.
  unfold Js.ltb. rewrite negb_false_iff. apply Qle_bool_iff.
Qed.

Lemma gtb_gt (x y : Q) : Js.gtb x y = true <-> y < x.
Proof. apply ltb_lt. Qed.

Lemma gtb_le (x y : Q) : Js.gtb x y = false <-> x <= y.
Proof. apply ltb_ge. Qed.

Lemma leb_le (x y : Q) : Js.leb x y = true <-> x <= y.
Proof. apply Qle_bool_iff. Qed.

Lemma leb_gt (x y : Q) : Js.leb x y = false <-> y < x.
Proof.
  unfold Js.leb. split; intro H.
  - apply Qnot_le_lt. intro L. apply Qle_bool_iff in L. congruence.
  - destruct (Qle_bool x y) eqn:E; [| reflexivity].
    apply Qle_bool_iff in E. lra.
Qed.

Lemma geb_ge (x y : Q) : Js.geb x y = true <-> y <= x.
Proof. apply Qle_bool_iff. Qed.

Lemma geb_lt (x y : Q) : Js.geb x y = false <-> x < y.
Proof. apply leb_gt. Qed.

Lemma eqb_eq (x y : Q) : Js.eqb x y = true <-> x == y.
Proof. apply Qeq_bool_iff. Qed.

Lemma eqb_neq (x y : Q) : Js.eqb x y = false <-> ~ x == y.
Proof.
  unfold Js.eqb. split; intro H.
  - intro E. apply Qeq_bool_iff in E. congruence.
  - destruct (Qeq_bool x y) eqn:E; [| reflexivity].
    apply Qeq_bool_iff in E. contradiction.
Qed.

Lemma truthy_true (v : option Q) :
  Js.truthy v = true <-> exists q, v = Some q /\ ~ q == 0.
Proof.
  destruct v as [q |]; simpl.
  - rewrite negb_true_iff, eqb_neq. split.
    + intro H. exists q. auto.
    + intros (q' & E & H). inversion E. subst. exact H.
  - split; [discriminate | intros (q & E & _); discriminate].
Qed.

(** Turns the boolean tests of the context into (in)equalities over [Q]. *)
Ltac reflect_cmp :=
  repeat match goal with
  | H : Js.ltb _ _ = true |- _ => apply ltb_lt in H
  | H : Js.ltb _ _ = false |- _ => apply ltb_ge in H
  | H : Js.gtb _ _ = true |- _ => apply gtb_gt in H
  | H : Js.gtb _ _ = false |- _ => apply gtb_le in H
  | H : Js.leb _ _ = true |- _ => apply leb_le in H
  | H : Js.leb _ _ = false |- _ => apply leb_gt in H
  | H : Js.geb _ _ = true |- _ => apply geb_ge in H
  | H : Js.geb _ _ = false |- _ => apply geb_lt in H
  | H : Js.eqb _ _ = true |- _ => apply eqb_eq in H
  | H : Js.eqb _ _ = false |- _ => apply eqb_neq in H
  end.

(** Splits on the first comparison that a goal branches on. *)
Ltac case_cmp :=
  match goal with
  | |- context [if Js.gtb ?a ?b then _ else _] =>
      let E := fresh "E" in destruct (Js.gtb a b) eqn:E
  | |- context [if Js.ltb ?a ?b then _ else _] =>
      let E := fresh "E" in destruct (Js.ltb a b) eqn:E
  | |- context [if Js.geb ?a ?b then _ else _] =>
      let E := fresh "E" in destruct (Js.geb a b) eqn:E
  | |- context [if Js.leb ?a ?b then _ else _] =>
      let E := fresh "E" in destruct (Js.leb a b) eqn:E
  | |- context [if Js.eqb ?a ?b then _ else _] =>
      let E := fresh "E" in destruct (Js.eqb a b) eqn:E
  end.

(** ** The recommendation label *)

Section Label.
Import Recommendation.

(** C8.  The label is decided by the thresholds 7, 3, -3 and -7 of the
    normalized score (above 7 Compra Forte, above 3 Compra, above -3
    Mantieni, above -7 Vendi, otherwise Vendi Forte), and it is monotone:
    for scores [s1 <= s2] the label at [s2] is never closer to the Sell end
    of StrongSell < Sell < Hold < Buy < StrongBuy than the label at [s1]. *)
Theorem determineRecommendation_monotone (s1 s2 : Q) (H : s1 <= s2) :
  (7 < s2 -> determineRecommendation s2 = CompraForte)
  /\ (3 < s2 -> s2 <= 7 -> determineRecommendation s2 = Compra)
  /\ (-3 < s2 -> s2 <= 3 -> determineRecommendation s2 = Mantieni)
  /\ (-7 < s2 -> s2 <= -3 -> determineRecommendation s2 = Vendi)
  /\ (s2 <= -7 -> determineRecommendation s2 = VendiForte)
  /\ (rank (determineRecommendation s1) <= rank (determineRecommendation s2))%nat.
Proof.
  unfold determineRecommendation.
  repeat split; intros;
    repeat case_cmp; reflect_cmp; simpl;
    try reflexivity; try lia; exfalso; lra.
Qed.

Lemma determineRecommendation_monotone_witness :
  determineRecommendation 8 = CompraForte
  /\ (rank (determineRecommendation 1) <= rank (determineRecommendation 8))%nat.
Proof.
  destruct (determineRecommendation_monotone 1 8) as (A & _ & _ & _ & _ & B).
  - discriminate.
  - split; [apply A; reflexivity | exact B].
Defined.

End Label.

(** ** Lengths of the indicator arrays *)

Section IndicatorLengths.
Import Indicators.

Lemma priceChanges_length (prices : list Q) :
  length (priceChanges prices) = (length prices - 1)%nat.
Proof.
  unfold priceChanges. now rewrite length_map, length_seq.
Qed.

(** The moving average has one entry per price. *)
Lemma calculateSMA_length (data : list Q) (period : nat) :
  length (calculateSMA data period) = length data.
Proof.
  unfold calculateSMA. now rewrite length_map, length_seq.
Qed.

(** C3.  [calculateRSI] returns an array as long as its input only when
    the history is insufficient; with more than [period] prices the array
    is one entry short, because the outer loop stops at
    [changes.length - 1] and no entry is pushed for the last price. *)
Theorem calculateRSI_length (prices : list Q) (period : nat) :
  length (calculateRSI prices period) =
  if (length prices <=? period)%nat then length prices
  else (length prices - 1)%nat.
Proof.
  unfold calculateRSI.
  destruct (length prices <=? period)%nat eqn:E.
  - apply repeat_length.
  - apply Nat.leb_gt in E.
    rewrite length_app, repeat_length, length_map, length_seq,
      priceChanges_length.
    lia.
Qed.

(** The shortest failing input: three prices, period one. *)
Lemma calculateRSI_three_prices :
  calculateRSI [1; 2; 3] 1 = [None; Some 100]
  /\ length (calculateSMA [1; 2; 3] 1) = 3%nat.
Proof. split; reflexivity. Qed.

End IndicatorLengths.

(** ** RSI of a rising series *)

Section RisingSeries.
Import Indicators.

Lemma priceChanges_positive (prices : list Q) :
  strictlyIncreasing prices -> Forall (fun c => 0 < c) (priceChanges prices).
Proof.
  intro Hinc. unfold priceChanges. apply Forall_forall.
  intros c Hc. apply in_map_iff in Hc. destruct Hc as (i & <- & Hi).
  apply in_seq in Hi.
  specialize (Hinc (i - 1)%nat).
  replace (i - 1 + 1)%nat with i in Hinc by lia.
  assert (nth (i - 1) prices 0 < nth i prices 0) by (apply Hinc; lia).
  lra.
Qed.

Lemma in_firstn {A : Type} (x : A) (n : nat) (l : list A) :
  In x (firstn n l) -> In x l.
Proof.
  revert l. induction n as [| n IH]; intros [| y l] Hx; simpl in *;
    try contradiction.
  destruct Hx as [-> | Hx]; [now left | right; now apply IH].
Qed.

Lemma in_skipn {A : Type} (x : A) (n : nat) (l : list A) :
  In x (skipn n l) -> In x l.
Proof.
  revert l. induction n as [| n IH]; intros [| y l] Hx; simpl in *;
    try contradiction; try exact Hx.
  right. now apply IH.
Qed.

Lemma slice_Forall {A : Type} (P : A -> Prop) (a b : nat) (l : list A) :
  Forall P l -> Forall P (slice a b l).
Proof.
  intro H. unfold slice. apply Forall_forall. intros x Hx.
  apply in_firstn, in_skipn in Hx.
  rewrite Forall_forall in H. auto.
Qed.

(** Over a window of gains only, the loss accumulator is never touched. *)
Lemma gainsLosses_no_loss (window : list Q) :
  Forall (fun c => 0 < c) window -> snd (gainsLosses window) = 0.
Proof.
  unfold gainsLosses.
  assert (G : forall acc, Forall (fun c => 0 < c) window ->
            snd (fold_left
                   (fun acc c =>
                      if Js.gtb c 0 then (fst acc + c, snd acc)
                      else (fst acc, snd acc - c)) window acc) = snd acc).
  { induction window as [| c w IH]; intros acc Hall; simpl.
    - reflexivity.
    - inversion Hall as [| ? ? Hc Hw]; subst.
      apply gtb_gt in Hc. rewrite Hc. now rewrite IH. }
  intro Hall. now rewrite G.
Qed.

Lemma rsiAt_rising (changes : list Q) (period i : nat) :
  Forall (fun c => 0 < c) changes -> rsiAt changes period i = 100.
Proof.
  intro Hall. unfold rsiAt.
  rewrite gainsLosses_no_loss by (apply slice_Forall; exact Hall).
  assert (E : Js.eqb (0 / ofNat period) 0 = true).
  { apply eqb_eq. unfold Qdiv. ring. }
  now rewrite E.
Qed.

(** C9.  For a period of at least one: on a strictly increasing series
    with more than [period] points every entry of [calculateRSI] that is a
    number is exactly 100, and on a series with fewer than [period + 1]
    points every entry is the unavailable marker. *)
Theorem calculateRSI_rising (prices : list Q) (period : nat)
  (Hperiod : (0 < period)%nat)
  (Hlen : (period < length prices)%nat)
  (Hinc : strictlyIncreasing prices) :
  (forall v, In (Some v) (calculateRSI prices period) -> v = 100)
  /\ (forall short : list Q,
        (length short < period + 1)%nat ->
        calculateRSI short period = repeat None (length short)).
Proof.
  split.
  - intros v Hv. unfold calculateRSI in Hv.
    destruct (length prices <=? period)%nat eqn:E.
    + apply Nat.leb_le in E. lia.
    + apply in_app_or in Hv. destruct Hv as [Hv | Hv].
      * apply repeat_spec in Hv. discriminate.
      * apply in_map_iff in Hv. destruct Hv as (i & Hi & _).
        inversion Hi. apply rsiAt_rising.
        now apply priceChanges_positive.
  - intros short Hshort. unfold calculateRSI.
    destruct (length short <=? period)%nat eqn:E; [reflexivity |].
    apply Nat.leb_gt in E. lia.
Qed.

Lemma calculateRSI_rising_witness :
  (forall v, In (Some v) (calculateRSI [1; 2; 3; 5; 8] 2) -> v = 100)
  /\ In (Some 100) (calculateRSI [1; 2; 3; 5; 8] 2)
  /\ calculateRSI [4; 5] 2 = [None; None].
Proof.
  assert (Hinc : strictlyIncreasing [1; 2; 3; 5; 8]).
  { intros i Hi. simpl in Hi.
    do 4 (destruct i as [| i]; [reflexivity |]). lia. }
  destruct (calculateRSI_rising [1; 2; 3; 5; 8] 2) as (A & B);
    [lia | simpl; lia | exact Hinc |].
  split; [exact A | split].
  - simpl. auto.
  - apply (B [4; 5]). simpl. lia.
Defined.

End RisingSeries.

(** ** Position sizing *)

Section PositionSize.
Import MoneyManagement.

Lemma orDefault_positive (x : option Q) (d : Q) :
  0 < d -> 0 < orDefault x d.
Proof.
  intro Hd. unfold orDefault.
  destruct (negb (Js.truthy x) || Js.leb (Js.toNumber x) 0) eqn:E;
    [exact Hd |].
  apply orb_false_iff in E. destruct E as [_ E]. now apply leb_gt in E.
Qed.


Lemma volatilityFactor_range (v : Q) :
  0.8 <= volatilityFactor v /\ volatilityFactor v <= 1.2.
Proof.
  unfold volatilityFactor. repeat case_cmp; split; lra.
Qed.

(** The balance cancels: the risk amount and the unit-risk estimate are
    both proportional to it. *)
Lemma baseSize_balance_free (b r m v : Q) :
  0 < b -> baseSize b r m v == Qmin r m * 10000 * volatilityFactor v.
Proof.
  intro Hb. unfold baseSize, estimatedPipValue. field. lra.
Qed.

Lemma maxSize_500 (b : Q) : 0 < b -> maxSize b == 500.
Proof.
  intro Hb. unfold maxSize, estimatedPipValue. field. lra.
Qed.


Lemma round_le_integer (x : Q) (z : Z) :
  x <= inject_Z z -> Js.round x <= inject_Z z.
Proof.
  intro H. unfold Js.round. rewrite <- Zle_Qle.
  assert (L : (Qfloor (x + 0.5) <= Qfloor (inject_Z z + 0.5))%Z).
  { apply Qfloor_resp_le. lra. }
  assert (F : Qfloor (inject_Z z + 0.5) = z).
  { assert (A : (z <= Qfloor (inject_Z z + 0.5))%Z).
    { rewrite <- (Qfloor_Z z) at 1. apply Qfloor_resp_le. lra. }
    assert (B : (Qfloor (inject_Z z + 0.5) < z + 1)%Z).
    { rewrite Zlt_Qlt.
      apply Qle_lt_trans with (inject_Z z + 0.5); [apply Qfloor_le |].
      rewrite inject_Z_plus. change (inject_Z 1) with 1. lra. }
    lia. }
  lia.
Qed.




(** With [maxRiskPerTrade = 0.02] the size before rounding is at most
    240, whatever the balance. *)
Lemma baseSize_at_most_240 (b : Q) (r : option Q) (v : option (option Q)) :
  0 < b ->
  baseSize b (orDefault r 0.01) 0.02 (volatilityOrDefault v) <= 240.
Proof.
  intro Hb. rewrite (baseSize_balance_free b _ _ _ Hb).
  pose proof (volatilityFactor_range (volatilityOrDefault v)) as [F1 F2].
  pose proof (Q.le_min_r (orDefault r 0.01) 0.02) as M.
  assert (P : 0 < Qmin (orDefault r 0.01) 0.02).
  { apply Q.min_glb_lt; [apply orDefault_positive |]; reflexivity. }
  nra.
Qed.

(** C6, as the specification states it, fails: with a balance of 10000
    and [maxRiskPerTrade = 0.02] no [riskPercent] and no [volatility] make
    the size before clamping exceed the ceiling. *)
Lemma clamp_scenario_unreachable :
  ~ (exists (riskPercent : option Q) (volatility : option (option Q)),
       maxSize 10000 <
       baseSize 10000 (orDefault riskPercent 0.01) (orDefault (Some 0.02) 0.02)
                (volatilityOrDefault volatility)).
Proof.
  intros (r & v & H).
  pose proof (baseSize_at_most_240 10000 r v eq_refl) as B.
  change (orDefault (Some 0.02) 0.02) with 0.02 in H.
  assert (M : maxSize 10000 == 500) by reflexivity.
  lra.
Qed.

(** C6, amended.  With a balance of 10000 and [maxRiskPerTrade = 0.02],
    for every [riskPercent] and every [volatility] the size before
    rounding is at most 240, the ceiling is 500, and the returned size is
    the size rounded to two decimals: the clamp never binds. *)
Theorem calculatePositionSize_scenario (riskPercent : option Q)
  (volatility : option (option Q)) :
  let base := baseSize 10000 (orDefault riskPercent 0.01) 0.02
                       (volatilityOrDefault volatility) in
  base <= 240
  /\ maxSize 10000 == 500
  /\ calculatePositionSize (Some 10000) riskPercent (Some 0.02) volatility
     == Js.round (base * 100) / 100.
Proof.
  intro base.
  assert (B : base <= 240) by (apply baseSize_at_most_240; reflexivity).
  split; [exact B | split; [reflexivity |]].
  unfold calculatePositionSize.
  change (orDefault (Some 10000) 10000) with 10000.
  change (orDefault (Some 0.02) 0.02) with 0.02.
  fold base.
  apply Q.min_l.
  assert (R : Js.round (base * 100) <= inject_Z 24000).
  { apply round_le_integer. change (inject_Z 24000) with 24000. lra. }
  change (inject_Z 24000) with 24000 in R.
  assert (M : maxSize 10000 == 500) by reflexivity.
  rewrite M. apply Qle_shift_div_r; [reflexivity |]. lra.
Qed.

(** The clamp itself works: with a higher [maxRiskPerTrade] the size
    before clamping is 6000 and the ceiling of 500 is returned. *)
Lemma clamp_binds_with_higher_risk :
  maxSize 10000 < baseSize 10000 0.5 0.5 5
  /\ calculatePositionSize (Some 10000) (Some 0.5) (Some 0.5) (Some (Some 5))
     == 500.
Proof. split; reflexivity. Qed.

End PositionSize.

(** ** The shared money-management settings *)

Section SharedSettings.
Import MoneyManagement.

Lemma selectSettings_lookup (us : ProfileSettings) (profile : string) :
  lookupProfile us (selectedKey profile) = Some (selectSettings us profile).
Proof.
  unfold selectedKey, selectSettings.
  repeat match goal with
         | |- context [if ?c then _ else _] => destruct c
         end; reflexivity.
Qed.

(** Reading the settings leaves the module state as it is. *)
Lemma getMoneyManagementSettings_state (accountInfo : option AccountInfo)
  (profileName : string) (st : State) :
  snd (getMoneyManagementSettings accountInfo profileName st) = st.
Proof. reflexivity. Qed.

(** The result of a read is decided by the arguments and by the entry
    of [userSettings] that the profile name selects. *)
Lemma getMoneyManagementSettings_entry (accountInfo : option AccountInfo)
  (profileName : string) (st st' : State) :
  lookupProfile (userSettings st') (selectedKey (Js.normalizeProfile profileName))
  = lookupProfile (userSettings st) (selectedKey (Js.normalizeProfile profileName)) ->
  fst (getMoneyManagementSettings accountInfo profileName st')
  = fst (getMoneyManagementSettings accountInfo profileName st).
Proof.
  rewrite !selectSettings_lookup. intro H. injection H as H.
  unfold getMoneyManagementSettings, bind, gets, ret. simpl. now rewrite H.
Qed.

Lemma storeProfile_other (us : ProfileSettings) (k key : string)
  (s : Settings) :
  k <> key -> lookupProfile (storeProfile us k s) key = lookupProfile us key.
Proof.
  intro Hne. unfold storeProfile, lookupProfile.
  destruct (k =? "scalping")%string eqn:K1;
    [apply String.eqb_eq in K1; subst k |];
    [| destruct (k =? "swing")%string eqn:K2;
       [apply String.eqb_eq in K2; subst k |];
       [| destruct (k =? "position")%string eqn:K3;
          [apply String.eqb_eq in K3; subst k |];
          [| destruct (k =? "longterm")%string eqn:K4;
             [apply String.eqb_eq in K4; subst k | reflexivity]]]];
    simpl;
    repeat match goal with
           | |- context [(key =? ?lit)%string] =>
               let E := fresh "E" in
               destruct (key =? lit)%string eqn:E;
               [apply String.eqb_eq in E; subst key; try congruence |]
           end; try reflexivity; try discriminate.
Qed.

(** An update writes the entry of its own profile type and no other; an
    update with an unknown profile type writes nothing. *)
Lemma updateMoneyManagementSettings_other (profileType key : string)
  (newSettings : SettingsPatch) (st : State) :
  profileType <> key ->
  lookupProfile
    (userSettings
       (snd (updateMoneyManagementSettings profileType newSettings st))) key
  = lookupProfile (userSettings st) key.
Proof.
  intro Hne.
  unfold updateMoneyManagementSettings, bind, gets, ret, modify. simpl.
  destruct (lookupProfile (userSettings st) profileType); simpl;
    [now apply storeProfile_other | reflexivity].
Qed.

Lemma afterUpdates_other (updates : list (string * SettingsPatch))
  (key : string) (st : State) :
  Forall (fun u => fst u <> key) updates ->
  lookupProfile (userSettings (afterUpdates updates st)) key
  = lookupProfile (userSettings st) key.
Proof.
  unfold afterUpdates. revert st.
  induction updates as [| u us IH]; intros st Hall; simpl.
  - reflexivity.
  - inversion Hall as [| ? ? Hu Hus]; subst.
    rewrite IH by exact Hus.
    now apply updateMoneyManagementSettings_other.
Qed.

(** C4, as the specification states it, fails: the settings are kept in
    a module variable, so an update between two reads with equal
    arguments changes what the second read returns. *)
Lemma getMoneyManagementSettings_sees_update :
  let accountInfo := Some {| balance := Some 10000 |} in
  let st1 := snd (getMoneyManagementSettings accountInfo "swing" initialState) in
  let st2 :=
    snd (updateMoneyManagementSettings "swing" (patchMaxRisk 0.05) st1) in
  fst (getMoneyManagementSettings accountInfo "swing" st2)
  <> fst (getMoneyManagementSettings accountInfo "swing" initialState).
Proof.
  intros accountInfo st1 st2 H.
  apply (f_equal maxRiskPerTrade) in H.
  vm_compute in H. discriminate H.
Qed.

(** C4, amended.  A read does not write the module state, and its
    result is a function of its arguments and of the entry of
    [userSettings] that the profile name selects: two reads with equal
    arguments return equal results whenever every update between them
    targets another profile type (or is rejected for an unknown one). *)
Theorem getMoneyManagementSettings_stable
  (accountInfo : option AccountInfo) (profileName : string) (st : State)
  (updates : list (string * SettingsPatch))
  (H : Forall (fun u => fst u <> selectedKey (Js.normalizeProfile profileName))
              updates) :
  let st1 := snd (getMoneyManagementSettings accountInfo profileName st) in
  st1 = st
  /\ fst (getMoneyManagementSettings accountInfo profileName
            (afterUpdates updates st1))
     = fst (getMoneyManagementSettings accountInfo profileName st).
Proof.
  intro st1. split; [reflexivity |].
  apply getMoneyManagementSettings_entry.
  now apply afterUpdates_other.
Qed.

Lemma getMoneyManagementSettings_stable_witness :
  let accountInfo := Some {| balance := Some 10000 |} in
  let updates := [("position"%string, patchMaxRisk 0.05);
                  ("bogus"%string, patchMaxRisk 1)] in
  fst (getMoneyManagementSettings accountInfo "Serpente dello Swing Trading"
         (afterUpdates updates initialState))
  = fst (getMoneyManagementSettings accountInfo "Serpente dello Swing Trading"
           initialState)
  /\ userSettings (afterUpdates updates initialState)
     <> userSettings initialState.
Proof.
  intros accountInfo updates. split.
  - apply (getMoneyManagementSettings_stable accountInfo
             "Serpente dello Swing Trading" initialState updates).
    repeat constructor; simpl; discriminate.
  - intro E. apply (f_equal (fun us => maxRiskPerTrade (position us))) in E.
    vm_compute in E. discriminate E.
Defined.

End SharedSettings.

(** ** The risk/reward ratio and the rejection of an order *)

Section RiskReward.
Import Snapshot SupportUtils MoneyManagement OrderGeneration.

Lemma Qabs_zero (x : Q) : Qabs x == 0 -> x == 0.
Proof.
  intro E.
  pose proof (Qle_Qabs x) as A.
  pose proof (Qle_Qabs (- x)) as B. rewrite Qabs_opp in B.
  lra.
Qed.






End RiskReward.

(** ** Ranges of the signals and of the composite score *)

Section SignalRanges.
Import Snapshot Recommendation.

(** A quotient by a positive number stays within the bounds of its
    numerator. *)
Lemma ratio_bound (a b k : Q) :
  0 < b -> - (k * b) <= a -> a <= k * b -> - k <= a / b /\ a / b <= k.
Proof.
  intros Hb Hlo Hhi. split.
  - apply Qle_shift_div_l; [exact Hb | lra].
  - apply Qle_shift_div_r; [exact Hb | lra].
Qed.

Ltac range_cases :=
  unfold signalInRange; cbv zeta;
  repeat case_cmp; try exact I; split; lra.

Lemma calculateRSISignal_range (ti : TechnicalIndicators) :
  signalInRange (calculateRSISignal ti).
Proof.
  unfold calculateRSISignal.
  destruct (momentum ti) as [m |]; [| exact I].
  destruct (rsi m); [| exact I]. range_cases.
Qed.

Lemma calculateMACDSignal_range (ti : TechnicalIndicators) :
  signalInRange (calculateMACDSignal ti).
Proof.
  unfold calculateMACDSignal.
  destruct (momentum ti) as [m |]; [| exact I].
  destruct (macd m), (macdSignal m), (macdHistogram m); try exact I.
  range_cases.
Qed.

Lemma slopeStep_range (e m : Q) :
  - 0.5 <= slopeStep e m /\ slopeStep e m <= 0.5.
Proof.
  unfold slopeStep. repeat case_cmp; split; lra.
Qed.

(** After the four steps the signal is bounded by the count. *)
Lemma emaAccumulate_bound (mas : MovingAverages) (price : Q) :
  - snd (emaAccumulate mas price) <= fst (emaAccumulate mas price)
  /\ fst (emaAccumulate mas price) <= snd (emaAccumulate mas price).
Proof.
  unfold emaAccumulate.
  destruct (ema20 mas) as [e |], (smaMedium mas) as [m |],
    (smaLong mas) as [l |]; cbn [fst snd];
    try pose proof (slopeStep_range e m) as [S1 S2];
    repeat case_cmp; split; lra.
Qed.

Lemma calculateEMASignal_range (ti : TechnicalIndicators) :
  signalInRange (calculateEMASignal ti).
Proof.
  unfold calculateEMASignal.
  destruct (movingAverages ti) as [mas |]; [| exact I].
  destruct (negb (Js.truthy (currentPrice ti))); [exact I |].
  cbv zeta.
  destruct (Js.gtb (snd (emaAccumulate mas (Js.toNumber (currentPrice ti)))) 0)
    eqn:E; [| exact I].
  apply gtb_gt in E.
  pose proof (emaAccumulate_bound mas (Js.toNumber (currentPrice ti)))
    as [B1 B2].
  destruct (ratio_bound
              (fst (emaAccumulate mas (Js.toNumber (currentPrice ti))))
              _ 1 E) as [R1 R2]; [lra | lra |].
  unfold signalInRange. split; lra.
Qed.

Lemma calculateADXSignal_range (ti : TechnicalIndicators) :
  signalInRange (calculateADXSignal ti).
Proof.
  unfold calculateADXSignal.
  destruct (trend ti) as [t |]; [| exact I].
  destruct (adx t), (plusDI t), (minusDI t); try exact I.
  range_cases.
Qed.

Lemma calculateBollingerSignal_range (ti : TechnicalIndicators) :
  signalInRange (calculateBollingerSignal ti).
Proof.
  unfold calculateBollingerSignal.
  destruct (volatility ti) as [v |]; [| exact I].
  destruct (priceData ti) as [pd |]; [| exact I].
  match goal with
  | |- context [if ?c then None else _] => destruct c; [exact I |]
  end.
  cbv zeta.
  repeat case_cmp; unfold signalInRange; split; lra.
Qed.

Lemma calculateVolumeSignal_range (ti : TechnicalIndicators) :
  signalInRange (calculateVolumeSignal ti).
Proof.
  unfold calculateVolumeSignal.
  destruct (volume ti) as [vol |]; [| exact I].
  destruct (priceData ti) as [pd |]; [| exact I].
  destruct (volumeCurrent vol), (volumeAverage vol); try exact I.
  cbv zeta.
  repeat case_cmp; unfold signalInRange; split; lra.
Qed.

(** One pattern entry contributes a value between -1.5 and 1.5 with a
    positive weight. *)
Lemma patternContribution_bound (p : Pattern) :
  0 < snd (patternContribution p)
  /\ - 1.5 <= fst (patternContribution p)
  /\ fst (patternContribution p) <= 1.5.
Proof.
  unfold patternContribution.
  repeat match goal with
         | |- context [if ?c then _ else _] => destruct c
         end; cbn [fst snd]; repeat split; lra.
Qed.

Lemma patternAccumulate_bound (ps : list Pattern) :
  ps <> [] ->
  0 < snd (patternAccumulate ps)
  /\ - (1.5 * snd (patternAccumulate ps)) <= fst (patternAccumulate ps)
  /\ fst (patternAccumulate ps) <= 1.5 * snd (patternAccumulate ps).
Proof.
  unfold patternAccumulate.
  assert (G : forall ps acc,
            0 < snd acc ->
            - (1.5 * snd acc) <= fst acc -> fst acc <= 1.5 * snd acc ->
            let r := fold_left
                       (fun acc p =>
                          let c := patternContribution p in
                          (fst acc + fst c * snd c, snd acc + snd c))
                       ps acc in
            0 < snd r
            /\ - (1.5 * snd r) <= fst r /\ fst r <= 1.5 * snd r).
  { clear. induction ps as [| p ps IH]; intros acc A0 A1 A2; simpl.
    - repeat split; lra.
    - destruct (patternContribution_bound p) as (W & C1 & C2).
      apply IH; cbn [fst snd]; nra. }
  intro Hne. destruct ps as [| p ps]; [congruence |]. simpl.
  destruct (patternContribution_bound p) as (W & C1 & C2).
  apply G; cbn [fst snd]; nra.
Qed.

Lemma calculatePatternSignal_range (ti : TechnicalIndicators) :
  signalInRange (calculatePatternSignal ti).
Proof.
  unfold calculatePatternSignal.
  destruct (trend ti) as [t |]; [| exact I].
  destruct (patterns t) as [| p ps] eqn:P; [exact I |].
  cbv zeta.
  destruct (patternAccumulate_bound (p :: ps)) as (W & B1 & B2);
    [discriminate |].
  apply gtb_gt in W. rewrite W. apply gtb_gt in W.
  destruct (ratio_bound (fst (patternAccumulate (p :: ps))) _ 1.5 W)
    as [R1 R2]; [lra | lra |].
  unfold signalInRange. split; lra.
Qed.

(** One weighted signal never outweighs its share of the maximum. *)
Lemma weighted_signal_bound (signal w : Q) :
  -2 <= signal -> signal <= 2 ->
  - Qabs (w * 2) <= signal * w /\ signal * w <= Qabs (w * 2).
Proof.
  intros L U.
  pose proof (Qle_Qabs (w * 2)) as A.
  pose proof (Qle_Qabs (- (w * 2))) as B. rewrite Qabs_opp in B.
  destruct (Qlt_le_dec w 0); split; nra.
Qed.

(** The loop invariant of [calculateWeightedRecommendation]:
    [|totalScore| <= maxPossibleScore]. *)
Lemma scoreTotals_bound (pairs : list (Q * option Q)) :
  Forall (fun p => signalInRange (snd p)) pairs ->
  - snd (scoreTotals pairs) <= fst (scoreTotals pairs)
  /\ fst (scoreTotals pairs) <= snd (scoreTotals pairs).
Proof.
  unfold scoreTotals.
  assert (G : forall acc,
            Forall (fun p => signalInRange (snd p)) pairs ->
            - snd acc <= fst acc -> fst acc <= snd acc ->
            let r := fold_left
                       (fun acc p =>
                          match snd p with
                          | Some signal =>
                              (fst acc + signal * fst p,
                               snd acc + Qabs (fst p * 2))
                          | None => acc
                          end) pairs acc in
            - snd r <= fst r /\ fst r <= snd r).
  { induction pairs as [| [w sg] rest IH]; intros acc Hall A1 A2;
      cbn [fold_left fst snd].
    - split; assumption.
    - inversion Hall as [| ? ? Hp Hrest]; subst. cbn [snd] in Hp.
      destruct sg as [signal |].
      + destruct Hp as [L U].
        destruct (weighted_signal_bound signal w L U) as [W1 W2].
        apply IH; cbn [fst snd]; [assumption | lra | lra].
      + now apply IH. }
  intro Hall. apply G; cbn [fst snd]; try assumption; lra.
Qed.

Lemma normalizedScoreOf_range (w : Weights) (s : Signals) :
  Forall signalInRange (signalValues s) ->
  -10 <= normalizedScoreOf w s /\ normalizedScoreOf w s <= 10.
Proof.
  intro Hall. unfold normalizedScoreOf. cbv zeta.
  destruct (Js.gtb (snd (scoreTotals (weightedSignals w s))) 0) eqn:E;
    [| split; lra].
  apply gtb_gt in E.
  assert (Hp : Forall (fun p => signalInRange (snd p)) (weightedSignals w s)).
  { unfold signalValues in Hall. unfold weightedSignals.
    repeat match goal with
           | H : Forall _ (_ :: _) |- _ =>
               let a := fresh in let b := fresh in
               inversion H as [| ? ? a b]; subst; clear H
           end.
    repeat constructor; assumption. }
  destruct (scoreTotals_bound _ Hp) as [B1 B2].
  destruct (ratio_bound (fst (scoreTotals (weightedSignals w s))) _ 1 E)
    as [R1 R2]; [lra | lra |].
  split; lra.
Qed.

(** C5.  For every snapshot each of the seven signal functions returns
    the unavailable marker or a number in [-2, 2], and for every snapshot
    and every profile name the normalized score of
    [calculateWeightedRecommendation] lies in [-10, 10]. *)
Theorem signals_and_score_in_range (ti : TechnicalIndicators)
  (profileType : string) :
  signalInRange (calculateRSISignal ti)
  /\ signalInRange (calculateMACDSignal ti)
  /\ signalInRange (calculateEMASignal ti)
  /\ signalInRange (calculateADXSignal ti)
  /\ signalInRange (calculateBollingerSignal ti)
  /\ signalInRange (calculateVolumeSignal ti)
  /\ signalInRange (calculatePatternSignal ti)
  /\ -10 <= score (calculateWeightedRecommendation ti profileType)
  /\ score (calculateWeightedRecommendation ti profileType) <= 10.
Proof.
  pose proof (calculateRSISignal_range ti) as S1.
  pose proof (calculateMACDSignal_range ti) as S2.
  pose proof (calculateEMASignal_range ti) as S3.
  pose proof (calculateADXSignal_range ti) as S4.
  pose proof (calculateBollingerSignal_range ti) as S5.
  pose proof (calculateVolumeSignal_range ti) as S6.
  pose proof (calculatePatternSignal_range ti) as S7.
  repeat (split; [assumption |]).
  unfold calculateWeightedRecommendation. cbn [score].
  apply normalizedScoreOf_range.
  unfold signalValues, computeSignals. cbn.
  repeat constructor; assumption.
Qed.

End SignalRanges.

(** ** The confidence level *)

Section Confidence.
Import Recommendation.
Local Open Scope R_scope.

Lemma tierOf_alta (x high medium : R) :
  tierOf x high medium = alta <-> x > high.
Proof.
  unfold tierOf.
  destruct (Rgt_dec x high); [tauto |].
  destruct (Rgt_dec x medium); split; intro H;
    try discriminate; contradiction.
Qed.

Lemma tierOf_bassa (x high medium : R) :
  medium <= high -> (tierOf x high medium = bassa <-> x <= medium).
Proof.
  intro Hord. unfold tierOf.
  destruct (Rgt_dec x high); [split; [discriminate | lra] |].
  destruct (Rgt_dec x medium); split; intro H;
    try discriminate; try reflexivity; lra.
Qed.

Lemma tierOf_cases (x high medium : R) :
  medium <= high ->
  (tierOf x high medium = alta /\ x > high)
  \/ (tierOf x high medium = media /\ medium < x <= high)
  \/ (tierOf x high medium = bassa /\ x <= medium).
Proof.
  intro Hord. unfold tierOf.
  destruct (Rgt_dec x high); [left; split; [reflexivity | lra] |].
  destruct (Rgt_dec x medium);
    [right; left | right; right]; split; try reflexivity; lra.
Qed.

Lemma noiseDivisor_zero : noiseDivisor 0 = 1.
Proof.
  unfold noiseDivisor. destruct (Req_dec_T 0 0); [reflexivity | congruence].
Qed.

Lemma noiseDivisor_nonzero (stdDev : R) :
  stdDev <> 0 -> noiseDivisor stdDev = stdDev.
Proof.
  intro H. unfold noiseDivisor.
  destruct (Req_dec_T stdDev 0); [contradiction | reflexivity].
Qed.

Lemma meanOf_two_one : meanOf [2; 1] = 3 / 2.
Proof. unfold meanOf, sumR. simpl. lra. Qed.

Lemma stdDevOf_two_one : stdDevOf [2; 1] = 1 / 2.
Proof.
  unfold stdDevOf. rewrite meanOf_two_one. unfold sumR. simpl.
  replace ((0 + (2 - 3 / 2) * ((2 - 3 / 2) * 1)
            + (1 - 3 / 2) * ((1 - 3 / 2) * 1)) / (1 + 1))
    with ((1 / 2) * (1 / 2)) by lra.
  apply sqrt_square. lra.
Qed.

(** C2, as the specification states it, fails: for the signals 2 and 1
    the standard deviation is 1/2, strictly between 0 and 1, and the
    divisor is that 1/2, not 1; with a score of 6 the code answers Alta
    where the rule with [max(stdDev, 1)] answers Media. *)
Lemma determineConfidence_divisor_not_max :
  0 < stdDevOf [2; 1] < 1
  /\ noiseDivisor (stdDevOf [2; 1]) <> 1
  /\ determineConfidence 6 [Some 2; Some 1] = Alta
  /\ specifiedConfidence 6 [Some 2; Some 1] = Media.
Proof.
  assert (A6 : Rabs 6 = 6) by (apply Rabs_pos_eq; lra).
  assert (Am : Rabs (3 / 2) = 3 / 2) by (apply Rabs_pos_eq; lra).
  assert (T6 : tierOf 6 5 2 = alta) by (apply tierOf_alta; lra).
  rewrite stdDevOf_two_one.
  rewrite noiseDivisor_nonzero by lra.
  repeat split; try lra.
  - unfold determineConfidence. simpl validSignals. simpl Nat.ltb. cbv zeta.
    rewrite meanOf_two_one, stdDevOf_two_one, A6, Am, T6.
    rewrite noiseDivisor_nonzero by lra.
    assert (T : tierOf (3 / 2 / (1 / 2)) 1.5 0.8 = alta)
      by (apply tierOf_alta; lra).
    now rewrite T.
  - unfold specifiedConfidence. simpl validSignals. cbv zeta.
    rewrite meanOf_two_one, stdDevOf_two_one, A6, Am, T6.
    rewrite Rmax_right by lra.
    unfold tierOf.
    destruct (Rgt_dec (3 / 2 / 1) 1.5) as [G | G]; [lra |].
    destruct (Rgt_dec (3 / 2 / 1) 0.8) as [G' | G']; [reflexivity | lra].
Qed.

(** C2, amended.  With fewer than two available signals the confidence
    is Low.  Otherwise, with the mean and the population standard
    deviation of the available signals, [signalToNoise] is [|mean|]
    divided by the standard deviation itself, or by 1 when the standard
    deviation is 0; the score tier is high above 5 and low up to 2 in
    absolute value, the coherence tier is high above 1.5 and low up to
    0.8; the confidence is High exactly when both tiers are high, Low
    exactly when one of them is low, and Medium otherwise. *)
Theorem determineConfidence_rule (score : R) (signals : list (option R)) :
  let valid := validSignals signals in
  let stdDev := stdDevOf valid in
  let signalToNoise := Rabs (meanOf valid) / noiseDivisor stdDev in
  (stdDev = 0 -> noiseDivisor stdDev = 1)
  /\ (stdDev <> 0 -> noiseDivisor stdDev = stdDev)
  /\ ((length valid < 2)%nat -> determineConfidence score signals = Bassa)
  /\ ((2 <= length valid)%nat ->
        (determineConfidence score signals = Alta
           <-> Rabs score > 5 /\ signalToNoise > 1.5)
        /\ (determineConfidence score signals = Bassa
              <-> Rabs score <= 2 \/ signalToNoise <= 0.8)
        /\ (determineConfidence score signals = Media
              <-> Rabs score > 2 /\ signalToNoise > 0.8
                  /\ ~ (Rabs score > 5 /\ signalToNoise > 1.5))).
Proof.
  intros valid stdDev signalToNoise.
  split; [intro E; rewrite E; apply noiseDivisor_zero |].
  split; [apply noiseDivisor_nonzero |].
  split.
  - intro Hlen. unfold determineConfidence. fold valid.
    apply Nat.ltb_lt in Hlen. now rewrite Hlen.
  - intro Hlen. unfold determineConfidence. fold valid.
    apply Nat.ltb_ge in Hlen. rewrite Hlen. cbv zeta.
    fold stdDev. fold signalToNoise.
    destruct (tierOf_cases (Rabs score) 5 2) as [[TS S] | [[TS S] | [TS S]]];
      [lra | | |];
      (destruct (tierOf_cases signalToNoise 1.5 0.8)
         as [[TC C] | [[TC C] | [TC C]]]; [lra | | |]);
      rewrite TS; try rewrite TC; cbv iota;
      (split; [| split]); split; intro H;
      try discriminate H; try reflexivity; try lra;
      try (exfalso; lra);
      try (repeat split; try lra; intros [? ?]; lra).
Qed.

End Confidence.

(** ** The order proposal *)

Section OrderInvariant.
Import Snapshot SupportUtils MoneyManagement OrderGeneration.

(** Splits on the next test of a profile name against a literal; in the
    branch of equality the name is the literal. *)
Ltac case_profile p :=
  match goal with
  | |- context [(p =? ?lit)%string] =>
      let E := fresh "E" in
      destruct (p =? lit)%string eqn:E;
      [apply String.eqb_eq in E; subst p | cbn [orb]]
  end.

(** The constants of the three [switch] statements that decide entry and
    stop: the weighted distance of the percentage stop is at least three
    times the entry deviation, for every profile name. *)
Lemma profile_constants (p : string) :
  0 < entryDeviation p
  /\ 0 < stopPercentage p
  /\ 3 * entryDeviation p <= stopPercentage p
  /\ 0 < stopAtrMultiplier p.
Proof.
  unfold entryDeviation, stopPercentage, stopAtrMultiplier.
  repeat (case_profile p;
          [vm_compute; repeat split; (reflexivity || discriminate) |]).
  vm_compute; repeat split; (reflexivity || discriminate).
Qed.

(** [Math.max(...)] and [Math.min(...)] return one of their arguments. *)
Lemma maxOf_In (x : Q) (xs : list Q) : In (Js.maxOf x xs) (x :: xs).
Proof.
  unfold Js.maxOf. revert x.
  induction xs as [| y ys IH]; intro x; simpl.
  - now left.
  - destruct (IH (Qmax x y)) as [H | H].
    + rewrite <- H.
      destruct (Q.max_dec x y) as [E | E];
        unfold Qmax, GenericMinMax.gmax in *;
        destruct (x ?= y); auto.
    + auto.
Qed.

Lemma minOf_In (x : Q) (xs : list Q) : In (Js.minOf x xs) (x :: xs).
Proof.
  unfold Js.minOf. revert x.
  induction xs as [| y ys IH]; intro x; simpl.
  - now left.
  - destruct (IH (Qmin x y)) as [H | H].
    + rewrite <- H.
      unfold Qmin, GenericMinMax.gmin in *;
        destruct (x ?= y); auto.
    + auto.
Qed.

Lemma findNearestSupportBelow_below (ti : TechnicalIndicators) (cp s : Q) :
  currentPrice ti = Some cp ->
  findNearestSupportBelow ti = Some s -> s < cp.
Proof.
  unfold currentPrice, findNearestSupportBelow.
  destruct (levels ti) as [lv |]; destruct (priceData ti) as [pd |];
    try discriminate.
  intros Hcp. rewrite Hcp. simpl Js.toNumber.
  destruct (filter (fun support => Js.ltb support cp) (supports lv))
    as [| x xs] eqn:F; [discriminate |].
  intro H. injection H as <-.
  pose proof (maxOf_In x xs) as Hin. rewrite <- F in Hin.
  apply filter_In in Hin. destruct Hin as [_ Hlt]. now apply ltb_lt in Hlt.
Qed.

Lemma findNearestResistanceAbove_above (ti : TechnicalIndicators)
  (cp r : Q) :
  currentPrice ti = Some cp ->
  findNearestResistanceAbove ti = Some r -> cp < r.
Proof.
  unfold currentPrice, findNearestResistanceAbove.
  destruct (levels ti) as [lv |]; destruct (priceData ti) as [pd |];
    try discriminate.
  intros Hcp. rewrite Hcp. simpl Js.toNumber.
  destruct (filter (fun resistance => Js.gtb resistance cp) (resistances lv))
    as [| x xs] eqn:F; [discriminate |].
  intro H. injection H as <-.
  pose proof (minOf_In x xs) as Hin. rewrite <- F in Hin.
  apply filter_In in Hin. destruct Hin as [_ Hgt]. now apply gtb_gt in Hgt.
Qed.

Lemma validMAs_test (mas : MovingAverages) (test : Q -> bool) (q : Q) :
  In q (validMAs mas test) -> test q = true.
Proof.
  unfold validMAs. intro H. apply in_flat_map in H.
  destruct H as ([m |] & _ & H); [| contradiction].
  destruct (test m) eqn:T; [| contradiction].
  destruct H as [<- | []]. exact T.
Qed.

Lemma findMABasedStopLoss_side (ti : TechnicalIndicators) (dir : direction)
  (cp m : Q) :
  currentPrice ti = Some cp ->
  findMABasedStopLoss ti dir = Some m ->
  match dir with Long => m < cp | Short => cp < m end.
Proof.
  intros Hcp. unfold findMABasedStopLoss. rewrite Hcp.
  destruct (movingAverages ti) as [mas |]; [| discriminate].
  destruct (negb (Js.truthy (Some cp))); [discriminate |].
  simpl Js.toNumber. cbv zeta.
  destruct dir.
  - destruct (validMAs mas (fun ma => Js.ltb ma cp)) as [| x xs] eqn:V;
      [discriminate |].
    intro H. injection H as <-.
    pose proof (maxOf_In x xs) as Hin. rewrite <- V in Hin.
    apply validMAs_test in Hin. now apply ltb_lt in Hin.
  - destruct (validMAs mas (fun ma => Js.gtb ma cp)) as [| x xs] eqn:V;
      [discriminate |].
    intro H. injection H as <-.
    pose proof (minOf_In x xs) as Hin. rewrite <- V in Hin.
    apply validMAs_test in Hin. now apply gtb_gt in Hin.
Qed.

Section Stops.

Variable sqrt252 : Q.
Hypothesis sqrt252_positive : 0 < sqrt252.

Lemma calculateATRStopLoss_side (ti : TechnicalIndicators) (dir : direction)
  (multiplier cp a : Q) :
  currentPrice ti = Some cp -> 0 < cp -> 0 < multiplier ->
  (forall vol, volatility ti = Some vol -> 0 <= Js.toNumber (value vol)) ->
  calculateATRStopLoss sqrt252 ti dir multiplier = Some a ->
  match dir with Long => a <= cp | Short => cp <= a end.
Proof.
  intros Hcp Hpos Hm Hvol. unfold calculateATRStopLoss, currentPrice in *.
  destruct (priceData ti) as [pd |]; [| discriminate].
  destruct (volatility ti) as [vol |]; [| discriminate].
  rewrite Hcp. simpl Js.toNumber.
  specialize (Hvol vol eq_refl).
  assert (A : 0 <= cp * (Js.toNumber (value vol) / 100) / sqrt252
                   * multiplier).
  { apply Qmult_le_0_compat; [| lra].
    apply Qle_shift_div_l; [exact sqrt252_positive |].
    assert (0 <= Js.toNumber (value vol) / 100)
      by (apply Qle_shift_div_l; [reflexivity | lra]).
    nra. }
  cbv zeta.
  destruct dir; intro H; injection H as <-; lra.
Qed.

Lemma pushStop_In (x : option Q) (w : Q) (t : string) (st : Stop) :
  In st (pushStop x w t) ->
  exists q, x = Some q /\ stopValue st = q /\ stopWeight st = w.
Proof.
  unfold pushStop. destruct (Js.truthy x) eqn:T; [| contradiction].
  intros [<- | []]. destruct x as [q |]; [| discriminate].
  exists q. auto.
Qed.

(** Every candidate stop lies on the loss side of the current price (or
    on it), with a weight between 0 and 3. *)
Lemma possibleStops_side (ti : TechnicalIndicators) (dir : direction)
  (profile : string) (cp : Q) :
  currentPrice ti = Some cp -> 0 < cp ->
  (forall vol, volatility ti = Some vol -> 0 <= Js.toNumber (value vol)) ->
  Forall (stopOnSide dir cp) (possibleStops sqrt252 ti dir profile).
Proof.
  intros Hcp Hpos Hvol.
  destruct (profile_constants profile) as (_ & Hpct & _ & Hmult).
  unfold possibleStops. rewrite Hcp.
  repeat (apply Forall_app; split); apply Forall_forall; intros st Hin.
  - destruct dir; apply pushStop_In in Hin;
      destruct Hin as (q & Hq & Hv & Hw);
      unfold stopOnSide; rewrite Hv, Hw.
    + pose proof (findNearestSupportBelow_below ti cp q Hcp Hq). lra.
    + pose proof (findNearestResistanceAbove_above ti cp q Hcp Hq). lra.
  - apply pushStop_In in Hin. destruct Hin as (q & Hq & Hv & Hw).
    pose proof (calculateATRStopLoss_side ti dir _ cp q Hcp Hpos Hmult
                  Hvol Hq) as S.
    unfold stopOnSide. rewrite Hv, Hw. destruct dir; lra.
  - apply pushStop_In in Hin. destruct Hin as (q & Hq & Hv & Hw).
    pose proof (findMABasedStopLoss_side ti dir cp q Hcp Hq) as S.
    unfold stopOnSide. rewrite Hv, Hw. destruct dir; lra.
  - destruct (Js.truthy (Some cp)); [| contradiction].
    destruct Hin as [<- | []]. unfold stopOnSide. simpl.
    destruct dir; nra.
Qed.

(** The percentage stop is always among the candidates. *)
Lemma possibleStops_percent (ti : TechnicalIndicators) (dir : direction)
  (profile : string) (cp : Q) :
  currentPrice ti = Some cp -> 0 < cp ->
  In {| stopValue :=
          match dir with
          | Long => cp * (1 - stopPercentage profile)
          | Short => cp * (1 + stopPercentage profile)
          end;
        stopWeight := 1;
        stopType := "percent" |}
     (possibleStops sqrt252 ti dir profile).
Proof.
  intros Hcp Hpos. unfold possibleStops. rewrite Hcp.
  assert (T : Js.truthy (Some cp) = true).
  { apply truthy_true. exists cp. split; [reflexivity | lra]. }
  rewrite T. simpl Js.toNumber.
  repeat (apply in_or_app; right). now left.
Qed.

(** The selection loop returns a candidate whose score no other
    candidate exceeds. *)
Lemma selectStop_fold (cp : Q) (stops : list Stop) :
  forall (acc : option (Q * Q)) (b sc : Q),
    fold_left (fun best stop =>
                 let score := stopScore cp stop in
                 match best with
                 | None => Some (stopValue stop, score)
                 | Some (_, bestScore) =>
                     if Js.gtb score bestScore
                     then Some (stopValue stop, score)
                     else best
                 end)
              stops acc = Some (b, sc) ->
    (acc = Some (b, sc)
     \/ exists st, In st stops /\ stopValue st = b /\ sc = stopScore cp st)
    /\ (forall st, In st stops -> stopScore cp st <= sc)
    /\ (forall b0 sc0, acc = Some (b0, sc0) -> sc0 <= sc).
Proof.
  induction stops as [| s rest IH]; intros acc b sc H; simpl in H.
  - subst acc. repeat split.
    + now left.
    + intros st [].
    + intros b0 sc0 E. injection E as _ <-. apply Qle_refl.
  - apply IH in H. destruct H as (H1 & H2 & H3).
    destruct acc as [[b0 sc0] |].
    + destruct (Js.gtb (stopScore cp s) sc0) eqn:G.
      * apply gtb_gt in G.
        pose proof (H3 _ _ eq_refl) as Hs.
        repeat split.
        -- right. destruct H1 as [E | (st & Hin & Hv & Hsc)].
           ++ injection E as <- <-. exists s. simpl. auto.
           ++ exists st. simpl. auto.
        -- intros st [<- | Hin]; [exact Hs | now apply H2].
        -- intros b1 sc1 E. injection E as <- <-. lra.
      * apply gtb_le in G.
        pose proof (H3 _ _ eq_refl) as Hs.
        repeat split.
        -- destruct H1 as [E | (st & Hin & Hv & Hsc)]; [now left |].
           right. exists st. simpl. auto.
        -- intros st [<- | Hin]; [lra | now apply H2].
        -- intros b1 sc1 E. injection E as <- <-. exact Hs.
    + pose proof (H3 _ _ eq_refl) as Hs.
      repeat split.
      * right. destruct H1 as [E | (st & Hin & Hv & Hsc)].
        -- injection E as <- <-. exists s. simpl. auto.
        -- exists st. simpl. auto.
      * intros st [<- | Hin]; [exact Hs | now apply H2].
      * intros b1 sc1 E. discriminate E.
Qed.

Lemma selectStop_best (cp : Q) (stops : list Stop) (b sc : Q) :
  selectStop cp stops = Some (b, sc) ->
  (exists st, In st stops /\ stopValue st = b /\ sc = stopScore cp st)
  /\ (forall st, In st stops -> stopScore cp st <= sc).
Proof.
  intro H. apply selectStop_fold in H. destruct H as ([E | H1] & H2 & _).
  - discriminate E.
  - split; assumption.
Qed.

(** The score of a candidate on the loss side, cleared of its
    denominator. *)
Lemma stopScore_side (dir : direction) (cp : Q) (st : Stop) :
  0 < cp -> stopOnSide dir cp st ->
  stopScore cp st * cp ==
  match dir with
  | Long => (cp - stopValue st) * stopWeight st
  | Short => (stopValue st - cp) * stopWeight st
  end.
Proof.
  intros Hpos (Hside & _ & _). unfold stopScore. cbv zeta.
  destruct dir.
  - rewrite Qabs_neg.
    + field. lra.
    + apply Qle_shift_div_r; [exact Hpos | lra].
  - rewrite Qabs_pos.
    + field. lra.
    + apply Qle_shift_div_l; [exact Hpos | lra].
Qed.

(** The stop that is chosen lies strictly on the loss side of the
    current price, at or beyond the entry deviation of the profile. *)
Lemma calculateOptimalStopLoss_side (ti : TechnicalIndicators)
  (dir : direction) (profileName : string) (cp b : Q) :
  currentPrice ti = Some cp -> 0 < cp ->
  (forall vol, volatility ti = Some vol -> 0 <= Js.toNumber (value vol)) ->
  calculateOptimalStopLoss sqrt252 ti dir profileName = Some b ->
  let deviation := entryDeviation (Js.normalizeProfile profileName) in
  match dir with
  | Long => b < cp /\ b <= cp * (1 - deviation)
  | Short => cp < b /\ cp * (1 + deviation) <= b
  end.
Proof.
  intros Hcp Hpos Hvol H deviation.
  unfold calculateOptimalStopLoss in H. cbv zeta in H.
  set (p := Js.normalizeProfile profileName) in *.
  rewrite Hcp in H. simpl Js.toNumber in H.
  pose proof (possibleStops_side ti dir p cp Hcp Hpos Hvol) as Hside.
  pose proof (possibleStops_percent ti dir p cp Hcp Hpos) as Hpct.
  destruct (possibleStops sqrt252 ti dir p) as [| s0 rest] eqn:P;
    [discriminate |].
  destruct (selectStop cp (s0 :: rest)) as [[b' sc] |] eqn:S;
    [| discriminate].
  injection H as ->.
  apply selectStop_best in S. destruct S as ((st & Hin & Hv & Hsc) & Hmax).
  rewrite Forall_forall in Hside.
  pose proof (Hside _ Hin) as Sst.
  pose proof (Hside _ Hpct) as Spc.
  pose proof (Hmax _ Hpct) as Hle. rewrite Hsc in Hle.
  pose proof (stopScore_side dir cp _ Hpos Sst) as E1.
  pose proof (stopScore_side dir cp _ Hpos Spc) as E2.
  destruct Sst as (Sv & Sw0 & Sw3). rewrite Hv in *.
  destruct (profile_constants p) as (Hdev & Hp & Hrel & _).
  fold deviation in Hdev, Hrel.
  assert (M : stopScore cp
                {| stopValue :=
                     match dir with
                     | Long => cp * (1 - stopPercentage p)
                     | Short => cp * (1 + stopPercentage p)
                     end;
                   stopWeight := 1; stopType := "percent" |} * cp
              <= stopScore cp st * cp)
    by (apply Qmult_le_compat_r; lra).
  rewrite E1, E2 in M. clear E1 E2 Hle.
  destruct dir; cbn [stopValue stopWeight] in M; split; nra.
Qed.

End Stops.


Lemma getMinimumRiskRewardRatio_positive (profileName : string) :
  0 < getMinimumRiskRewardRatio profileName.
Proof.
  unfold getMinimumRiskRewardRatio. cbv zeta.
  repeat match goal with
         | |- context [if ?c then _ else _] => destruct c
         end; reflexivity.
Qed.

(** What an accepted order records. *)
Lemma generateMT4Order_accepted (sqrt252 : Q) (analysisData : AnalysisData)
  (recommendation : string) (accountInfo : option AccountInfo) (st : State)
  (o : Order) :
  fst (generateMT4Order sqrt252 analysisData recommendation accountInfo st)
  = Js.Returned (Accepted o) ->
  let ti := technicalIndicators analysisData in
  let profileName := name (tradingProfile analysisData) in
  exists target,
    calculateEntryPrice ti (orderKind o) profileName
    = Js.Returned (entryPrice o)
    /\ calculateOptimalStopLoss sqrt252 ti (directionOf (orderKind o))
         profileName = Some (stopLoss o)
    /\ calculateRiskRewardRatio (Some (entryPrice o)) target
         (Some (stopLoss o)) = Some (riskRewardRatio o)
    /\ getMinimumRiskRewardRatio profileName <= riskRewardRatio o.
Proof.
  intros H ti profileName. unfold generateMT4Order in H.
  fold ti in H. fold profileName in H.
  destruct (determineOrderType recommendation) as [ot |];
    [| discriminate H].
  destruct (calculateEntryPrice ti ot profileName) as [entry |] eqn:He;
    [| discriminate H].
  destruct (calculateOptimalStopLoss sqrt252 ti (directionOf ot) profileName)
    as [stop |] eqn:Hs;
    [| rewrite orb_true_r in H; discriminate H].
  set (target := match calculateOptimalTargetPrice ti (directionOf ot)
                         profileName with
                 | Some r => r
                 | None => None
                 end) in *.
  destruct (negb (Js.truthy (Some entry)) || negb (Js.truthy (Some stop))
            || negb (Js.truthy target)); [discriminate H |].
  destruct (calculateRiskRewardRatio (Some entry) target (Some stop))
    as [r |] eqn:Hr.
  - cbn [Js.toNumber] in H.
    destruct (Js.ltb r (getMinimumRiskRewardRatio profileName)) eqn:L;
      [discriminate H |].
    apply ltb_ge in L.
    unfold bind, getMoneyManagementSettings, gets, ret in H.
    cbn [fst snd] in H.
    destruct accountInfo as [ai |]; [| discriminate H].
    destruct (volatility ti) as [vol |]; [| discriminate H].
    injection H as <-. cbn [orderKind entryPrice stopLoss riskRewardRatio
                            Js.toNumber].
    exists target. rewrite He, Hs, Hr. auto.
  - cbn [Js.toNumber] in H.
    assert (L : Js.ltb 0 (getMinimumRiskRewardRatio profileName) = true)
      by (apply ltb_lt, getMinimumRiskRewardRatio_positive).
    rewrite L in H. discriminate H.
Qed.





End OrderInvariant.

(** * Further properties of the code *)

(** ** Moving averages *)

Section MovingAverageBounds.
Import Indicators.

Lemma ofNat_S (n : nat) : ofNat (S n) == ofNat n + 1.
Proof.
  unfold ofNat. rewrite Nat2Z.inj_succ. unfold Z.succ.
  rewrite inject_Z_plus. reflexivity.
Qed.

Lemma ofNat_positive (n : nat) : (0 < n)%nat -> 0 < ofNat n.
Proof.
  intro H. unfold ofNat. change 0 with (inject_Z 0).
  rewrite <- Zlt_Qlt. lia.
Qed.

(** A sum of [n] numbers of [[lo, hi]] lies in [[n * lo, n * hi]]. *)
Lemma sum_bounds (lo hi : Q) (l : list Q) :
  Forall (fun x => lo <= x /\ x <= hi) l ->
  ofNat (length l) * lo <= sum l /\ sum l <= ofNat (length l) * hi.
Proof.
  unfold sum.
  assert (G : forall a,
            Forall (fun x => lo <= x /\ x <= hi) l ->
            a + ofNat (length l) * lo <= fold_left Qplus l a
            /\ fold_left Qplus l a <= a + ofNat (length l) * hi).
  { induction l as [| x xs IH]; intros a Hall.
    - cbn [fold_left length]. change (ofNat 0) with 0. split; lra.
    - inversion Hall as [| ? ? [Hx1 Hx2] Hxs]; subst.
      cbn [fold_left length]. rewrite ofNat_S.
      destruct (IH (a + x) Hxs) as [I1 I2]. split; lra. }
  intro Hall. destruct (G 0 Hall) as [G1 G2]. split; lra.
Qed.


Lemma nth_map_seq {A : Type} (f : nat -> A) (n i : nat) (d : A) :
  (i < n)%nat -> nth i (map f (seq 0 n)) d = f i.
Proof.
  intro H.
  rewrite (nth_indep _ d (f 0%nat)) by now rewrite length_map, length_seq.
  rewrite map_nth, seq_nth by exact H. reflexivity.
Qed.

Lemma slice_length {A : Type} (a b : nat) (l : list A) :
  (b <= length l)%nat -> length (slice a b l) = (b - a)%nat.
Proof.
  intro H. unfold slice. rewrite length_firstn, length_skipn. lia.
Qed.





(** [calculateEMA] returns one entry per price, except on the empty
    series with period 0, where it returns one undefined entry; with less
    history than the period every entry is unavailable. *)
Theorem calculateEMA_length (prices : list Q) (period : nat) :
  length (calculateEMA prices period)
  = match prices, period with
    | [], O => 1%nat
    | _, _ => length prices
    end
  /\ ((length prices < period)%nat ->
      calculateEMA prices period = repeat None (length prices)).
Proof.
  split.
  - unfold calculateEMA.
    destruct (length prices <? period)%nat eqn:E.
    + apply Nat.ltb_lt in E. rewrite repeat_length.
      destruct prices, period; simpl in *; try reflexivity; lia.
    + apply Nat.ltb_ge in E.
      destruct prices as [| first rest] eqn:P.
      * simpl in E. destruct period; [reflexivity | lia].
      * rewrite <- P. rewrite length_map. unfold emaValues. cbv zeta.
        assert (G : forall m a acc,
                  length acc = a ->
                  length (fold_left
                            (emaStep prices period (2 / (ofNat period + 1)))
                            (seq a m) acc) = (a + m)%nat).
        { induction m as [| m IH]; intros a acc Hacc; simpl; [lia |].
          rewrite IH; [lia |].
          unfold emaStep. destruct (a <? period)%nat;
            rewrite length_app; simpl; lia. }
        rewrite (G _ 1%nat [first] eq_refl). rewrite P. simpl. lia.
  - intro H. unfold calculateEMA.
    apply Nat.ltb_lt in H. now rewrite H.
Qed.



End MovingAverageBounds.

(** ** MACD *)

Section Macd.
Import Indicators.





End Macd.

(** ** Bollinger bands *)

Section Bollinger.
Import Indicators.
Local Open Scope R_scope.








End Bollinger.

(** ** Nearest levels and Fibonacci targets *)

Section NearestLevels.
Import Snapshot SupportUtils.

Lemma fold_max_ge (zs : list Q) (a : Q) : a <= fold_left Qmax zs a.
Proof.
  revert a. induction zs as [| z zs IH]; intro a; cbn [fold_left].
  - apply Qle_refl.
  - pose proof (IH (Qmax a z)). pose proof (Q.le_max_l a z). lra.
Qed.

Lemma fold_min_le (zs : list Q) (a : Q) : fold_left Qmin zs a <= a.
Proof.
  revert a. induction zs as [| z zs IH]; intro a; cbn [fold_left].
  - apply Qle_refl.
  - pose proof (IH (Qmin a z)). pose proof (Q.le_min_l a z). lra.
Qed.

Lemma maxOf_upper (x : Q) (xs : list Q) (y : Q) :
  In y (x :: xs) -> y <= Js.maxOf x xs.
Proof.
  unfold Js.maxOf. revert x.
  induction xs as [| z zs IH]; intros x Hin.
  - destruct Hin as [<- | []]. apply Qle_refl.
  - cbn [fold_left].
    pose proof (fold_max_ge zs (Qmax x z)) as G.
    pose proof (Q.le_max_l x z). pose proof (Q.le_max_r x z).
    destruct Hin as [<- | [<- | Hin]]; [lra | lra |].
    apply IH. now right.
Qed.

Lemma minOf_lower (x : Q) (xs : list Q) (y : Q) :
  In y (x :: xs) -> Js.minOf x xs <= y.
Proof.
  unfold Js.minOf. revert x.
  induction xs as [| z zs IH]; intros x Hin.
  - destruct Hin as [<- | []]. apply Qle_refl.
  - cbn [fold_left].
    pose proof (fold_min_le zs (Qmin x z)) as G.
    pose proof (Q.le_min_l x z). pose proof (Q.le_min_r x z).
    destruct Hin as [<- | [<- | Hin]]; [lra | lra |].
    apply IH. now right.
Qed.

(** [findNearestSupportBelow] returns the greatest support strictly
    below the current price, and [null] exactly when no support is below
    it; [findNearestResistanceAbove] returns the least resistance strictly
    above the current price, and [null] exactly when none is above it. *)
Theorem nearest_levels (ti : TechnicalIndicators) (lv : Levels) (cp : Q)
  (Hcp : currentPrice ti = Some cp) (Hlv : levels ti = Some lv) :
  (forall s, findNearestSupportBelow ti = Some s ->
     In s (supports lv) /\ s < cp
     /\ forall x, In x (supports lv) -> x < cp -> x <= s)
  /\ (findNearestSupportBelow ti = None <->
      forall x, In x (supports lv) -> cp <= x)
  /\ (forall r, findNearestResistanceAbove ti = Some r ->
        In r (resistances lv) /\ cp < r
        /\ forall x, In x (resistances lv) -> cp < x -> r <= x)
  /\ (findNearestResistanceAbove ti = None <->
      forall x, In x (resistances lv) -> x <= cp).
Proof.
  unfold findNearestSupportBelow, findNearestResistanceAbove.
  unfold currentPrice in Hcp. rewrite Hlv.
  destruct (priceData ti) as [pd |]; [| discriminate Hcp].
  rewrite Hcp. cbn [Js.toNumber]. cbv zeta.
  repeat split.
  - destruct (filter (fun support => Js.ltb support cp) (supports lv))
      as [| y ys] eqn:F; [discriminate |].
    injection H as <-.
    pose proof (maxOf_In y ys) as Hin. rewrite <- F in Hin.
    now apply filter_In in Hin.
  - destruct (filter (fun support => Js.ltb support cp) (supports lv))
      as [| y ys] eqn:F; [discriminate |].
    injection H as <-.
    pose proof (maxOf_In y ys) as Hin. rewrite <- F in Hin.
    apply filter_In in Hin. destruct Hin as [_ Hlt]. now apply ltb_lt.
  - intros x Hx Hlt.
    destruct (filter (fun support => Js.ltb support cp) (supports lv))
      as [| y ys] eqn:F; [discriminate |].
    injection H as <-. apply maxOf_upper. rewrite <- F.
    apply filter_In. split; [exact Hx | now apply ltb_lt].
  - intros H x Hx.
    destruct (filter (fun support => Js.ltb support cp) (supports lv))
      as [| y ys] eqn:F; [| discriminate].
    destruct (Js.ltb x cp) eqn:L; [| now apply ltb_ge].
    assert (Hin : In x []) by (rewrite <- F; apply filter_In; auto).
    contradiction.
  - intro H.
    destruct (filter (fun support => Js.ltb support cp) (supports lv))
      as [| y ys] eqn:F; [reflexivity |].
    assert (Hin : In y (y :: ys)) by now left.
    rewrite <- F in Hin. apply filter_In in Hin. destruct Hin as [Hy Hlt].
    apply ltb_lt in Hlt. specialize (H y Hy). lra.
  - destruct (filter (fun resistance => Js.gtb resistance cp)
                     (resistances lv)) as [| y ys] eqn:F; [discriminate |].
    injection H as <-.
    pose proof (minOf_In y ys) as Hin. rewrite <- F in Hin.
    now apply filter_In in Hin.
  - destruct (filter (fun resistance => Js.gtb resistance cp)
                     (resistances lv)) as [| y ys] eqn:F; [discriminate |].
    injection H as <-.
    pose proof (minOf_In y ys) as Hin. rewrite <- F in Hin.
    apply filter_In in Hin. destruct Hin as [_ Hgt]. now apply gtb_gt.
  - intros x Hx Hgt.
    destruct (filter (fun resistance => Js.gtb resistance cp)
                     (resistances lv)) as [| y ys] eqn:F; [discriminate |].
    injection H as <-. apply minOf_lower. rewrite <- F.
    apply filter_In. split; [exact Hx | now apply gtb_gt].
  - intros H x Hx.
    destruct (filter (fun resistance => Js.gtb resistance cp)
                     (resistances lv)) as [| y ys] eqn:F; [| discriminate].
    destruct (Js.gtb x cp) eqn:G; [| now apply gtb_le].
    assert (Hin : In x []) by (rewrite <- F; apply filter_In; auto).
    contradiction.
  - intro H.
    destruct (filter (fun resistance => Js.gtb resistance cp)
                     (resistances lv)) as [| y ys] eqn:F; [reflexivity |].
    assert (Hin : In y (y :: ys)) by now left.
    rewrite <- F in Hin. apply filter_In in Hin. destruct Hin as [Hy Hgt].
    apply gtb_gt in Hgt. specialize (H y Hy). lra.
Qed.

Lemma nearest_levels_witness :
  findNearestSupportBelow (levelsSnapshot 100 1.5 [90; 97; 101; 95] [99; 104])
  = Some 97
  /\ (forall s,
        findNearestSupportBelow
          (levelsSnapshot 100 1.5 [90; 97; 101; 95] [99; 104]) = Some s ->
        s < 100).
Proof.
  destruct (nearest_levels
              (levelsSnapshot 100 1.5 [90; 97; 101; 95] [99; 104])
              {| supports := [90; 97; 101; 95]; resistances := [99; 104] |}
              100 eq_refl eq_refl) as (A & _).
  split; [reflexivity |].
  intros s Hs. now destruct (A s Hs) as (_ & B & _).
Defined.

Lemma calculateFibonacciTargetsLong_ascending (ti : TechnicalIndicators)
  (cp : Q) (f : FibTargets) (s : Q) :
  currentPrice ti = Some cp ->
  calculateFibonacciTargetsLong ti = Some f ->
  findNearestSupportBelow ti = Some s ->
  cp < target1 f /\ target1 f < target2 f /\ target2 f < target3 f
  /\ target3 f < target4 f /\ target3 f - cp == cp - s.
Proof.
  intros Hcp Hf Hs.
  pose proof (findNearestSupportBelow_below ti cp s Hcp Hs) as Hlt.
  unfold calculateFibonacciTargetsLong in Hf. unfold currentPrice in Hcp.
  destruct (priceData ti) as [pd |]; [| discriminate Hcp].
  rewrite Hcp, Hs in Hf. cbn [Js.toNumber] in Hf.
  destruct (negb (Js.truthy (Some s))); [discriminate Hf |].
  injection Hf as <-. cbn [target1 target2 target3 target4].
  repeat split; lra.
Qed.

Lemma calculateFibonacciTargetsShort_descending (ti : TechnicalIndicators)
  (cp : Q) (f : FibTargets) (r : Q) :
  currentPrice ti = Some cp ->
  calculateFibonacciTargetsShort ti = Some f ->
  findNearestResistanceAbove ti = Some r ->
  target4 f < target3 f /\ target3 f < target2 f
  /\ target2 f < target1 f /\ target1 f < cp
  /\ cp - target3 f == r - cp.
Proof.
  intros Hcp Hf Hr.
  pose proof (findNearestResistanceAbove_above ti cp r Hcp Hr) as Hgt.
  unfold calculateFibonacciTargetsShort in Hf. unfold currentPrice in Hcp.
  destruct (priceData ti) as [pd |]; [| discriminate Hcp].
  rewrite Hcp, Hr in Hf. cbn [Js.toNumber] in Hf.
  destruct (negb (Js.truthy (Some r))); [discriminate Hf |].
  injection Hf as <-. cbn [target1 target2 target3 target4].
  repeat split; lra.
Qed.



End NearestLevels.

(** ** The stop and the target that are chosen *)

Section StopAndTarget.
Import Snapshot SupportUtils.

Ltac case_profile p :=
  match goal with
  | |- context [(p =? ?lit)%string] =>
      let E := fresh "E" in
      destruct (p =? lit)%string eqn:E;
      [apply String.eqb_eq in E; subst p | cbn [orb]]
  end.

Lemma currentPrice_Some (ti : TechnicalIndicators) (cp : Q) :
  currentPrice ti = Some cp ->
  exists pd, priceData ti = Some pd /\ current pd = Some cp.
Proof.
  unfold currentPrice. destruct (priceData ti) as [pd |]; [| discriminate].
  intro H. exists pd. auto.
Qed.

Lemma truthy_positive (cp : Q) : 0 < cp -> Js.truthy (Some cp) = true.
Proof.
  intro H. apply truthy_true. exists cp. split; [reflexivity | lra].
Qed.

(** The selection loop keeps a candidate once it has one. *)
Lemma selectStop_nonempty (cp : Q) (stops : list Stop) :
  stops <> [] -> exists b sc, selectStop cp stops = Some (b, sc).
Proof.
  unfold selectStop.
  assert (G : forall l (acc : option (Q * Q)),
            acc <> None ->
            fold_left (fun best stop =>
                         let score := stopScore cp stop in
                         match best with
                         | None => Some (stopValue stop, score)
                         | Some (_, bestScore) =>
                             if Js.gtb score bestScore
                             then Some (stopValue stop, score)
                             else best
                         end) l acc <> None).
  { induction l as [| s l IH]; intros acc Hacc; cbn [fold_left].
    - exact Hacc.
    - apply IH. destruct acc as [[b sc] |]; [| congruence].
      cbv zeta. destruct (Js.gtb (stopScore cp s) sc); discriminate. }
  intro Hne. destruct stops as [| s rest]; [congruence |].
  cbn [fold_left].
  destruct (fold_left _ rest _) as [[b sc] |] eqn:F.
  - exists b, sc. reflexivity.
  - exfalso. revert F. apply G. discriminate.
Qed.

Section WithSqrt.

Variable sqrt252 : Q.
Hypothesis sqrt252_positive : 0 < sqrt252.

(** For a positive current price and a non-negative volatility
    [calculateOptimalStopLoss] always returns a stop; the stop lies
    strictly on the loss side of the current price, at a distance of at
    least a third of the stop percentage of the profile.  Without
    [priceData] there is no candidate and the result is [null]. *)
Theorem calculateOptimalStopLoss_total (ti : TechnicalIndicators)
  (dir : direction) (profileName : string) (cp : Q)
  (Hcp : currentPrice ti = Some cp) (Hpos : 0 < cp)
  (Hvol : forall vol, volatility ti = Some vol ->
                      0 <= Js.toNumber (value vol)) :
  let percentage := stopPercentage (Js.normalizeProfile profileName) in
  (exists b,
     calculateOptimalStopLoss sqrt252 ti dir profileName = Some b
     /\ match dir with
        | Long => b < cp /\ cp * percentage <= 3 * (cp - b)
        | Short => cp < b /\ cp * percentage <= 3 * (b - cp)
        end)
  /\ (forall ti' : TechnicalIndicators,
        priceData ti' = None ->
        calculateOptimalStopLoss sqrt252 ti' dir profileName = None).
Proof.
  intro percentage. split.
  - unfold calculateOptimalStopLoss. cbv zeta.
    set (p := Js.normalizeProfile profileName) in *.
    rewrite Hcp. cbn [Js.toNumber].
    pose proof (possibleStops_side sqrt252 sqrt252_positive ti dir p cp
                  Hcp Hpos Hvol) as Hside.
    pose proof (possibleStops_percent sqrt252 ti dir p cp Hcp Hpos) as Hpct.
    destruct (possibleStops sqrt252 ti dir p) as [| s0 rest] eqn:P;
      [contradiction |].
    destruct (selectStop_nonempty cp (s0 :: rest)) as (b & sc & S);
      [discriminate |].
    rewrite S. exists b. split; [reflexivity |].
    apply selectStop_best in S.
    destruct S as ((st & Hin & Hv & Hsc) & Hmax).
    rewrite Forall_forall in Hside.
    pose proof (Hside _ Hin) as Sst.
    pose proof (Hside _ Hpct) as Spc.
    pose proof (Hmax _ Hpct) as Hle. rewrite Hsc in Hle.
    pose proof (stopScore_side dir cp _ Hpos Sst) as E1.
    pose proof (stopScore_side dir cp _ Hpos Spc) as E2.
    destruct Sst as (Sv & Sw0 & Sw3). rewrite Hv in *.
    destruct (profile_constants p) as (_ & Hp & _ & _).
    fold percentage in Hp.
    assert (M : stopScore cp
                  {| stopValue :=
                       match dir with
                       | Long => cp * (1 - stopPercentage p)
                       | Short => cp * (1 + stopPercentage p)
                       end;
                     stopWeight := 1; stopType := "percent" |} * cp
                <= stopScore cp st * cp)
      by (apply Qmult_le_compat_r; lra).
    rewrite E1, E2 in M. clear E1 E2 Hle.
    fold percentage in M.
    destruct dir; cbn [stopValue stopWeight] in M; split; nra.
  - intros ti' Hpd. unfold calculateOptimalStopLoss, possibleStops.
    unfold findNearestSupportBelow, findNearestResistanceAbove,
      calculateATRStopLoss, findMABasedStopLoss, currentPrice.
    rewrite Hpd. cbn [Js.truthy].
    destruct dir, (levels ti'), (movingAverages ti'); reflexivity.
Qed.

End WithSqrt.

Lemma calculateOptimalStopLoss_total_witness :
  exists b,
    calculateOptimalStopLoss sqrt252Double
      (levelsSnapshot 100 1.5 [99] [108]) Long "swing" = Some b
    /\ b < 100.
Proof.
  destruct (calculateOptimalStopLoss_total sqrt252Double eq_refl
              (levelsSnapshot 100 1.5 [99] [108]) Long "swing" 100)
    as ((b & E & B & _) & _).
  - reflexivity.
  - reflexivity.
  - intros vol H. injection H as <-. discriminate.
  - exists b. split; assumption.
Defined.

Lemma targetPercentage_positive (p : string) (dir : direction) :
  0 < targetPercentage p dir /\ targetPercentage p dir < 1.
Proof.
  unfold targetPercentage.
  repeat match goal with
         | |- context [if ?c then _ else _] => destruct c
         end; split; reflexivity.
Qed.

(** A reducer that, at each step, keeps its accumulator or takes the
    candidate at hand, returns one of the candidates or what it started
    from. *)
Lemma fold_select {X : Type} (f : option X -> Target -> option X)
  (proj : X -> Target) :
  (forall acc t, f acc t = acc \/ exists x, f acc t = Some x /\ proj x = t) ->
  forall ts acc x,
    fold_left f ts acc = Some x ->
    (exists y, acc = Some y /\ proj y = proj x) \/ In (proj x) ts.
Proof.
  intros Hf. induction ts as [| t ts IH]; intros acc x H; cbn [fold_left] in H.
  - left. exists x. auto.
  - apply IH in H. destruct H as [(y & Hy & Hp) | Hin].
    + destruct (Hf acc t) as [E | (x0 & E & Hx0)].
      * left. exists y. rewrite <- E. auto.
      * right. left. rewrite E in Hy. injection Hy as ->.
        now rewrite <- Hp.
    + right. now right.
Qed.

(** A reducer that always takes the first candidate and never drops
    what it holds returns a candidate on every non-empty list. *)
Lemma fold_keeps {X : Type} (f : option X -> Target -> option X) :
  (forall acc t, acc <> None -> f acc t <> None) ->
  (forall t, f None t <> None) ->
  forall ts, ts <> [] -> fold_left f ts None <> None.
Proof.
  intros Hkeep Hfirst ts Hne.
  assert (G : forall l acc, acc <> None -> fold_left f l acc <> None).
  { induction l as [| t l IH]; intros acc Hacc; cbn [fold_left];
      [exact Hacc | apply IH, Hkeep, Hacc]. }
  destruct ts as [| t ts]; [congruence |].
  cbn [fold_left]. apply G, Hfirst.
Qed.

Lemma reduceScalping_In (cp : Q) (ts : list Target) (t : Target) :
  reduceScalping cp ts = Some t -> In t ts.
Proof.
  unfold reduceScalping. intro H.
  apply (fold_select _ (fun x => x)) in H.
  - destruct H as [(y & Hy & _) | Hin]; [discriminate Hy | exact Hin].
  - intros acc c. cbv zeta. destruct acc as [b |].
    + destruct (Js.ltb (targetDistance cp c) 0.02
                && Js.gtb (targetWeight c) (targetWeight b));
        [right; exists c; auto | now left].
    + right. exists c. auto.
Qed.

Lemma reduceSwing_In (cp : Q) (ts : list Target) (x : Target * Q) :
  reduceSwing cp ts = Some x -> In (fst x) ts.
Proof.
  unfold reduceSwing. intro H.
  apply (fold_select _ fst) in H.
  - destruct H as [(y & Hy & _) | Hin]; [discriminate Hy | exact Hin].
  - intros acc c. cbv zeta. destruct acc as [[b sc] |].
    + destruct (Js.gtb (targetWeight c * (1 / targetDistance cp c)) sc);
        [right; eexists; split; [reflexivity | reflexivity] | now left].
    + right. eexists. split; reflexivity.
Qed.

Lemma reduceDefault_In (ts : list Target) (t : Target) :
  reduceDefault ts = Some t -> In t ts.
Proof.
  unfold reduceDefault. intro H.
  apply (fold_select _ (fun x => x)) in H.
  - destruct H as [(y & Hy & _) | Hin]; [discriminate Hy | exact Hin].
  - intros acc c. destruct acc as [b |].
    + destruct (Js.gtb (targetWeight c) (targetWeight b));
        [right; exists c; auto | now left].
    + right. exists c. auto.
Qed.

Lemma reduceLongTerm_In (cp : Q) (ts : list Target) (x : Target * Q) :
  reduceLongTerm cp ts = Some x -> In (fst x) ts.
Proof.
  unfold reduceLongTerm. intro H.
  apply (fold_select _ fst) in H.
  - destruct H as [(y & Hy & _) | Hin]; [discriminate Hy | exact Hin].
  - intros acc c. cbv zeta.
    match goal with
    | |- context [if ?b then _ else _] => destruct b
    end; [right; eexists; split; reflexivity | now left].
Qed.

(** The reducer of the long-term traders returns nothing exactly when
    no candidate has a weight of 1.5 or more. *)
Lemma reduceLongTerm_None (cp : Q) (ts : list Target) :
  reduceLongTerm cp ts = None <->
  forall t, In t ts -> targetWeight t < 1.5.
Proof.
  unfold reduceLongTerm.
  set (f := fun (best : option (Target * Q)) (target : Target) =>
              let distance := targetDistance cp target in
              let further :=
                match best with
                | None => true
                | Some (_, bestDistance) => Js.gtb distance bestDistance
                end in
              if Js.geb (targetWeight target) 1.5 && further
              then Some (target, distance) else best).
  assert (Keep : forall l acc, acc <> None -> fold_left f l acc <> None).
  { induction l as [| t l IH]; intros acc Hacc; cbn [fold_left];
      [exact Hacc |].
    apply IH. unfold f. cbv zeta.
    match goal with
    | |- context [if ?b then _ else _] => destruct b
    end; [discriminate | exact Hacc]. }
  induction ts as [| t ts IH]; cbn [fold_left].
  - split; [intros _ t [] | reflexivity].
  - destruct (Js.geb (targetWeight t) 1.5) eqn:G.
    + assert (E : f None t = Some (t, targetDistance cp t))
        by (unfold f; cbv zeta; now rewrite G).
      rewrite E. split.
      * intro H. exfalso. revert H. apply Keep. discriminate.
      * intro H. apply geb_ge in G.
        specialize (H t (or_introl eq_refl)). lra.
    + assert (E : f None t = None)
        by (unfold f; cbv zeta; now rewrite G).
      rewrite E, IH. apply geb_lt in G. split.
      * intros H c [<- | Hin]; [exact G | now apply H].
      * intros H c Hin. apply H. now right.
Qed.

Lemma fibLong_Some (ti : TechnicalIndicators) (pd : PriceData) :
  priceData ti = Some pd ->
  (calculateFibonacciTargetsLong ti <> None
   <-> Js.truthy (findNearestSupportBelow ti) = true).
Proof.
  intro Hpd. unfold calculateFibonacciTargetsLong. rewrite Hpd. cbv zeta.
  destruct (Js.truthy (findNearestSupportBelow ti)); cbn [negb];
    split; intro H; congruence.
Qed.

Lemma fibShort_Some (ti : TechnicalIndicators) (pd : PriceData) :
  priceData ti = Some pd ->
  (calculateFibonacciTargetsShort ti <> None
   <-> Js.truthy (findNearestResistanceAbove ti) = true).
Proof.
  intro Hpd. unfold calculateFibonacciTargetsShort. rewrite Hpd. cbv zeta.
  destruct (Js.truthy (findNearestResistanceAbove ti)); cbn [negb];
    split; intro H; congruence.
Qed.

(** Every candidate target lies on the profit side of the current
    price. *)
Lemma potentialTargets_side (ti : TechnicalIndicators) (dir : direction)
  (p : string) (cp : Q) :
  currentPrice ti = Some cp -> 0 < cp ->
  forall t, In t (potentialTargets ti dir p cp) ->
            match dir with
            | Long => cp < targetValue t
            | Short => targetValue t < cp
            end.
Proof.
  intros Hcp Hpos t Hin. unfold potentialTargets in Hin.
  destruct (targetPercentage_positive p dir) as [P0 P1].
  assert (FL := fun f s =>
                  calculateFibonacciTargetsLong_ascending ti cp f s Hcp).
  assert (FS := fun f r =>
                  calculateFibonacciTargetsShort_descending ti cp f r Hcp).
  destruct (currentPrice_Some ti cp Hcp) as (pd & Hpd & _).
  apply in_app_or in Hin. destruct Hin as [Hin | Hin];
    [| apply in_app_or in Hin; destruct Hin as [Hin | Hin]].
  - destruct dir.
    + destruct (findNearestResistanceAbove ti) as [r |] eqn:R;
        [| contradiction].
      destruct (Js.truthy (Some r)); [| contradiction].
      destruct Hin as [<- | []]. cbn [targetValue Js.toNumber].
      now apply (findNearestResistanceAbove_above ti cp r).
    + destruct (findNearestSupportBelow ti) as [s |] eqn:S;
        [| contradiction].
      destruct (Js.truthy (Some s)); [| contradiction].
      destruct Hin as [<- | []]. cbn [targetValue Js.toNumber].
      now apply (findNearestSupportBelow_below ti cp s).
  - destruct dir.
    + destruct (calculateFibonacciTargetsLong ti) as [f |] eqn:F;
        [| contradiction].
      assert (T : Js.truthy (findNearestSupportBelow ti) = true)
        by (apply (fibLong_Some ti pd Hpd); congruence).
      destruct (findNearestSupportBelow ti) as [s |] eqn:S;
        [| discriminate T].
      destruct (FL f s eq_refl eq_refl) as (A1 & A2 & A3 & _).
      cbn [fibTargetEntries] in Hin.
      destruct Hin as [<- | [<- | [<- | []]]]; cbn [targetValue]; lra.
    + destruct (calculateFibonacciTargetsShort ti) as [f |] eqn:F;
        [| contradiction].
      assert (T : Js.truthy (findNearestResistanceAbove ti) = true)
        by (apply (fibShort_Some ti pd Hpd); congruence).
      destruct (findNearestResistanceAbove ti) as [r |] eqn:R;
        [| discriminate T].
      destruct (FS f r eq_refl eq_refl) as (A1 & A2 & A3 & A4 & _).
      cbn [fibTargetEntries] in Hin.
      destruct Hin as [<- | [<- | [<- | []]]]; cbn [targetValue]; lra.
  - destruct Hin as [<- | []]. cbn [targetValue]. destruct dir; nra.
Qed.

(** A candidate of weight 1.5 or more exists exactly when a resistance
    above or a support below the price is available. *)
Lemma potentialTargets_heavy (ti : TechnicalIndicators) (dir : direction)
  (p : string) (cp : Q) (pd : PriceData) :
  priceData ti = Some pd ->
  ((forall t, In t (potentialTargets ti dir p cp) -> targetWeight t < 1.5)
   <-> Js.truthy (findNearestResistanceAbove ti) = false
       /\ Js.truthy (findNearestSupportBelow ti) = false).
Proof.
  intro Hpd. unfold potentialTargets.
  pose proof (fibLong_Some ti pd Hpd) as FL.
  pose proof (fibShort_Some ti pd Hpd) as FS.
  split.
  - intro H.
    assert (Level : forall (v : option Q) (kind : string) rest,
               Js.truthy v = true ->
               ~ (forall t,
                     In t ((if Js.truthy v
                            then [{| targetValue := Js.toNumber v;
                                     targetWeight := 3;
                                     targetType := kind |}]
                            else []) ++ rest) ->
                     targetWeight t < 1.5)).
    { intros v kind rest T A. rewrite T in A.
      specialize (A _ (or_introl eq_refl)). discriminate A. }
    assert (Fib : forall (fib : option FibTargets) first last,
               fib <> None ->
               ~ (forall t,
                     In t (first ++ fibTargetEntries fib ++ last) ->
                     targetWeight t < 1.5)).
    { intros [f |] first last N A; [| congruence].
      assert (W : targetWeight {| targetValue := target2 f;
                                  targetWeight := 2;
                                  targetType := "fib61" |} < 1.5).
      { apply A. apply in_or_app. right. apply in_or_app. left.
        cbn [fibTargetEntries]. right. now left. }
      discriminate W. }
    destruct dir; cbv zeta in H; split; apply not_true_is_false; intro T;
      revert H.
    + now apply Level.
    + apply Fib. now apply FL.
    + apply Fib. now apply FS.
    + now apply Level.
  - intros [TR TS] t Hin.
    assert (NL : calculateFibonacciTargetsLong ti = None).
    { destruct (calculateFibonacciTargetsLong ti) eqn:F; [| reflexivity].
      assert (Js.truthy (findNearestSupportBelow ti) = true)
        by (apply FL; congruence). congruence. }
    assert (NS : calculateFibonacciTargetsShort ti = None).
    { destruct (calculateFibonacciTargetsShort ti) eqn:F; [| reflexivity].
      assert (Js.truthy (findNearestResistanceAbove ti) = true)
        by (apply FS; congruence). congruence. }
    rewrite TR, TS, NL, NS in Hin.
    destruct dir; cbn [fibTargetEntries app] in Hin;
      destruct Hin as [<- | []]; reflexivity.
Qed.

Lemma potentialTargets_nonempty (ti : TechnicalIndicators) (dir : direction)
  (p : string) (cp : Q) : potentialTargets ti dir p cp <> [].
Proof.
  unfold potentialTargets. intro H.
  apply app_eq_nil in H. destruct H as [_ H].
  apply app_eq_nil in H. destruct H as [_ H]. discriminate H.
Qed.

Lemma reduceScalping_Some (cp : Q) (ts : list Target) :
  ts <> [] -> reduceScalping cp ts <> None.
Proof.
  unfold reduceScalping. apply fold_keeps.
  - intros [b |] t H; [| congruence]. cbv zeta.
    destruct (Js.ltb (targetDistance cp t) 0.02
              && Js.gtb (targetWeight t) (targetWeight b)); discriminate.
  - intros t. discriminate.
Qed.

Lemma reduceSwing_Some (cp : Q) (ts : list Target) :
  ts <> [] -> reduceSwing cp ts <> None.
Proof.
  unfold reduceSwing. apply fold_keeps.
  - intros [[b sc] |] t H; [| congruence]. cbv zeta.
    destruct (Js.gtb (targetWeight t * (1 / targetDistance cp t)) sc);
      discriminate.
  - intros t. discriminate.
Qed.

Lemma reduceDefault_Some (ts : list Target) :
  ts <> [] -> reduceDefault ts <> None.
Proof.
  unfold reduceDefault. apply fold_keeps.
  - intros [b |] t H; [| congruence].
    destruct (Js.gtb (targetWeight t) (targetWeight b)); discriminate.
  - intros t. discriminate.
Qed.

(** The target object that is returned for a positive current price. *)
Lemma calculateOptimalTargetPrice_chosen (ti : TechnicalIndicators)
  (dir : direction) (profileName : string) (cp : Q) :
  currentPrice ti = Some cp -> 0 < cp ->
  exists t,
    calculateOptimalTargetPrice ti dir profileName = Some t
    /\ (forall v, t = Some v ->
          match dir with Long => cp < v | Short => v < cp end)
    /\ (t = None <->
        isLongTermProfile (Js.normalizeProfile profileName) = true
        /\ Js.truthy (findNearestResistanceAbove ti) = false
        /\ Js.truthy (findNearestSupportBelow ti) = false).
Proof.
  intros Hcp Hpos.
  destruct (currentPrice_Some ti cp Hcp) as (pd & Hpd & _).
  unfold calculateOptimalTargetPrice. cbv zeta.
  rewrite Hcp, (truthy_positive cp Hpos). cbn [negb Js.toNumber].
  generalize (Js.normalizeProfile profileName). intro p.
  pose proof (potentialTargets_side ti dir p cp Hcp Hpos) as Side.
  pose proof (potentialTargets_heavy ti dir p cp pd Hpd) as Heavy.
  pose proof (potentialTargets_nonempty ti dir p cp) as Hne.
  destruct (potentialTargets ti dir p cp) as [| t0 rest] eqn:TG;
    [congruence |].
  rewrite <- TG in *. clear TG t0 rest.
  set (targets := potentialTargets ti dir p cp) in *.
  assert (Light : forall kept : option Target,
             kept <> None ->
             (forall t, kept = Some t -> In t targets) ->
             isLongTermProfile p = false ->
             exists t,
               Some (option_map targetValue kept) = Some t
               /\ (forall v, t = Some v ->
                     match dir with Long => cp < v | Short => v < cp end)
               /\ (t = None <->
                   isLongTermProfile p = true
                   /\ Js.truthy (findNearestResistanceAbove ti) = false
                   /\ Js.truthy (findNearestSupportBelow ti) = false)).
  { intros [k |] Hk Hin Hlt; [| congruence].
    eexists. split; [reflexivity |]. cbn [option_map]. split.
    - intros v Hv. injection Hv as <-. apply Side, Hin. reflexivity.
    - split; [discriminate | intros (A & _); congruence]. }
  case_profile p.
  { apply Light;
      [apply reduceScalping_Some, Hne
      | intros t; apply reduceScalping_In | reflexivity]. }
  destruct ((p =? "serpentedelloswingtrading")%string
            || (p =? "swing")%string) eqn:Swing.
  { assert (NotLong : isLongTermProfile p = false).
    { apply orb_true_iff in Swing.
      destruct Swing as [S | S]; apply String.eqb_eq in S; subst p;
        reflexivity. }
    destruct (reduceSwing cp targets) as [[k sc] |] eqn:R;
      [| exfalso; revert R; apply reduceSwing_Some, Hne].
    destruct (Light (Some k)) as (t & Et & A & B);
      [discriminate
      | intros t Ht; injection Ht as <-;
        apply (reduceSwing_In cp targets (k, sc) R)
      | exact NotLong |].
    exists t. auto. }
  destruct ((p =? "orsodellpositiontrading")%string
            || (p =? "position")%string
            || (p =? "tartarugadell'investimento")%string
            || (p =? "longterm")%string) eqn:Long.
  { assert (IsLong : isLongTermProfile p = true) by exact Long.
    eexists. split; [reflexivity |]. split.
    - intros v Hv.
      destruct (reduceLongTerm cp targets) as [[k d] |] eqn:R;
        [| discriminate Hv].
      cbn [option_map fst] in Hv. injection Hv as <-.
      apply Side. apply (reduceLongTerm_In cp targets (k, d) R).
    - rewrite <- Heavy, <- (reduceLongTerm_None cp targets).
      destruct (reduceLongTerm cp targets) as [[k d] |];
        cbn [option_map]; split.
      + discriminate.
      + intros (_ & A). discriminate A.
      + intros _. split; [exact IsLong | reflexivity].
      + reflexivity. }
  { assert (NotLong : isLongTermProfile p = false) by exact Long.
    apply Light;
      [apply reduceDefault_Some, Hne
      | intros t; apply reduceDefault_In | exact NotLong]. }
Qed.

(** For a positive current price [calculateOptimalTargetPrice] returns
    an object; its value, when it has one, lies on the profit side of the
    current price (above for a long position, below for a short one); and
    the value is undefined exactly for the profile names of the position
    and long-term reducer when the snapshot offers neither a resistance
    above nor a support below the price, so that only the percentage
    target, of weight 1, is a candidate.  Without a current price the
    result is [null]. *)
Theorem calculateOptimalTargetPrice_side (ti : TechnicalIndicators)
  (dir : direction) (profileName : string) (cp : Q)
  (Hcp : currentPrice ti = Some cp) (Hpos : 0 < cp) :
  (exists t,
     calculateOptimalTargetPrice ti dir profileName = Some t
     /\ (forall v, t = Some v ->
           match dir with Long => cp < v | Short => v < cp end)
     /\ (t = None <->
         isLongTermProfile (Js.normalizeProfile profileName) = true
         /\ Js.truthy (findNearestResistanceAbove ti) = false
         /\ Js.truthy (findNearestSupportBelow ti) = false))
  /\ (forall ti' : TechnicalIndicators,
        Js.truthy (currentPrice ti') = false ->
        calculateOptimalTargetPrice ti' dir profileName = None).
Proof.
  split.
  - now apply calculateOptimalTargetPrice_chosen.
  - intros ti' H. unfold calculateOptimalTargetPrice. cbv zeta.
    now rewrite H.
Qed.

Lemma calculateOptimalTargetPrice_side_witness :
  (exists v,
     calculateOptimalTargetPrice (levelsSnapshot 100 1.5 [99] [108])
       Long "swing" = Some (Some v)
     /\ 100 < v)
  /\ calculateOptimalTargetPrice (levelsSnapshot 100 1.5 [] []) Long
       "longterm" = Some None.
Proof.
  split.
  - destruct (calculateOptimalTargetPrice_side
                (levelsSnapshot 100 1.5 [99] [108]) Long "swing" 100
                eq_refl eq_refl) as ((t & E & A & _) & _).
    destruct t as [v |].
    + exists v. split; [exact E | now apply A].
    + vm_compute in E. discriminate E.
  - destruct (calculateOptimalTargetPrice_side
                (levelsSnapshot 100 1.5 [] []) Long "longterm" 100
                eq_refl eq_refl) as ((t & E & _ & B) & _).
    rewrite E. f_equal. apply B. repeat split; reflexivity.
Defined.

End StopAndTarget.

(** ** Accepted and rejected orders *)

Section Orders.
Import Snapshot SupportUtils MoneyManagement OrderGeneration.

Lemma round_nonneg (x : Q) : 0 <= x -> 0 <= Js.round x.
Proof.
  intro H. unfold Js.round. change 0 with (inject_Z 0).
  rewrite <- Zle_Qle. rewrite <- (Qfloor_Z 0).
  apply Qfloor_resp_le. change (inject_Z 0) with 0. lra.
Qed.

(** The size is never negative and never above 500. *)
Lemma calculatePositionSize_range (b r m : option Q)
  (v : option (option Q)) :
  0 <= calculatePositionSize b r m v /\ calculatePositionSize b r m v <= 500.
Proof.
  split.
  - unfold calculatePositionSize. cbv zeta.
    assert (Hb : 0 < orDefault b 10000)
      by (apply orDefault_positive; reflexivity).
    assert (Hr : 0 < orDefault r 0.01)
      by (apply orDefault_positive; reflexivity).
    assert (Hm : 0 < orDefault m 0.02)
      by (apply orDefault_positive; reflexivity).
    apply Q.min_glb.
    + apply Qle_shift_div_l; [reflexivity |].
      setoid_replace (0 * 100) with 0 by ring.
      apply round_nonneg.
      rewrite (baseSize_balance_free _ _ _ _ Hb).
      pose proof (volatilityFactor_range (volatilityOrDefault v)) as [F1 F2].
      assert (0 < Qmin (orDefault r 0.01) (orDefault m 0.02))
        by (apply Q.min_glb_lt; assumption).
      nra.
    + rewrite (maxSize_500 _ Hb). discriminate.
  - unfold calculatePositionSize.
    assert (Hb : 0 < orDefault b 10000)
      by (apply orDefault_positive; reflexivity).
    rewrite <- (maxSize_500 (orDefault b 10000) Hb).
    apply Q.le_min_r.
Qed.

(** [generateMT4Order] reads the settings and never writes them. *)
Lemma generateMT4Order_state (sqrt252 : Q) (analysisData : AnalysisData)
  (recommendation : string) (accountInfo : option AccountInfo) (st : State) :
  snd (generateMT4Order sqrt252 analysisData recommendation accountInfo st)
  = st.
Proof.
  unfold generateMT4Order.
  repeat match goal with
         | |- context [match ?x with _ => _ end] =>
             lazymatch x with
             | context [match _ with _ => _ end] => fail
             | _ => destruct x
             end
         end;
    try reflexivity;
    unfold bind, getMoneyManagementSettings, gets, ret; cbn [fst snd];
    repeat match goal with
           | |- context [match ?x with _ => _ end] => destruct x
           end; reflexivity.
Qed.

(** Every field of an accepted order, traced to the function that
    computed it. *)
Lemma generateMT4Order_accepted_fields (sqrt252 : Q)
  (analysisData : AnalysisData) (recommendation : string)
  (accountInfo : option AccountInfo) (st : State) (o : Order) :
  fst (generateMT4Order sqrt252 analysisData recommendation accountInfo st)
  = Js.Returned (Accepted o) ->
  let ti := technicalIndicators analysisData in
  let profileName := name (tradingProfile analysisData) in
  determineOrderType recommendation = Some (orderKind o)
  /\ calculateOptimalTargetPrice ti (directionOf (orderKind o)) profileName
     = Some (Some (targetPrice o))
  /\ (exists b r m v, positionSize o = calculatePositionSize b r m v).
Proof.
  intros H ti profileName. unfold generateMT4Order in H.
  fold ti in H. fold profileName in H.
  destruct (determineOrderType recommendation) as [ot |];
    [| discriminate H].
  destruct (calculateEntryPrice ti ot profileName) as [entry |];
    [| discriminate H].
  destruct (calculateOptimalTargetPrice ti (directionOf ot) profileName)
    as [[target |] |] eqn:Ht;
    try (rewrite !orb_true_r in H; discriminate H).
  destruct (negb (Js.truthy (Some entry))
            || negb (Js.truthy
                       (calculateOptimalStopLoss sqrt252 ti (directionOf ot)
                          profileName))
            || negb (Js.truthy (Some target))); [discriminate H |].
  destruct (Js.ltb _ _); [destruct (calculateRiskRewardRatio _ _ _);
                          discriminate H |].
  unfold bind, getMoneyManagementSettings, gets, ret in H.
  cbn [fst snd] in H.
  destruct accountInfo as [ai |]; [| discriminate H].
  destruct (volatility ti) as [vol |]; [| discriminate H].
  injection H as <-. cbn [orderKind targetPrice positionSize Js.toNumber].
  rewrite Ht. repeat split. eauto.
Qed.

(** An accepted order brackets the current price: for a positive
    current price and a non-negative volatility the stop loss is on one
    side of the price and the target on the other (stop below and target
    above for BUY, the reverse for SELL); the position size lies between 0
    and 500; and the call leaves the shared settings untouched. *)
Theorem accepted_order_brackets_price (sqrt252 : Q)
  (analysisData : AnalysisData) (recommendation : string)
  (accountInfo : option AccountInfo) (st : State) (o : Order) (cp : Q)
  (Hsqrt : 0 < sqrt252)
  (Hcp : currentPrice (technicalIndicators analysisData) = Some cp)
  (Hpos : 0 < cp)
  (Hvol : forall vol,
      volatility (technicalIndicators analysisData) = Some vol ->
      0 <= Js.toNumber (value vol))
  (Hvalid :
     fst (generateMT4Order sqrt252 analysisData recommendation accountInfo st)
     = Js.Returned (Accepted o)) :
  match orderKind o with
  | BUY => stopLoss o < cp /\ cp < targetPrice o
  | SELL => targetPrice o < cp /\ cp < stopLoss o
  end
  /\ 0 <= positionSize o /\ positionSize o <= 500
  /\ snd (generateMT4Order sqrt252 analysisData recommendation accountInfo st)
     = st.
Proof.
  destruct (generateMT4Order_accepted _ _ _ _ _ _ Hvalid)
    as (_ & _ & Hs & _ & _).
  pose proof (calculateOptimalStopLoss_side sqrt252 Hsqrt _ _ _ cp _
                Hcp Hpos Hvol Hs) as Stop.
  cbv zeta in Stop.
  destruct (generateMT4Order_accepted_fields _ _ _ _ _ _ Hvalid)
    as (_ & Ht & (b & r & m & v & Hsize)).
  destruct (calculateOptimalTargetPrice_chosen _ (directionOf (orderKind o))
              (name (tradingProfile analysisData)) cp Hcp Hpos)
    as (t & Et & Side & _).
  rewrite Ht in Et. injection Et as <-.
  specialize (Side _ eq_refl).
  destruct (calculatePositionSize_range b r m v) as [S1 S2].
  rewrite <- Hsize in S1, S2.
  split; [| split; [exact S1 | split; [exact S2 |]]].
  - destruct (orderKind o); cbn [directionOf] in Side, Stop; tauto.
  - apply generateMT4Order_state.
Qed.

Lemma accepted_order_brackets_price_witness :
  exists o,
    fst (generateMT4Order sqrt252Double
           (analysisOf "swing" (levelsSnapshot 100 1.5 [92] [101]))
           "Vendi" sampleAccount initialState)
    = Js.Returned (Accepted o)
    /\ orderKind o = SELL
    /\ targetPrice o < 100 /\ 100 < stopLoss o
    /\ positionSize o <= 500.
Proof.
  eexists. split; [vm_compute; reflexivity |].
  split; [reflexivity |].
  match goal with
  | |- targetPrice ?o < _ /\ _ =>
      pose proof (accepted_order_brackets_price sqrt252Double
                    (analysisOf "swing" (levelsSnapshot 100 1.5 [92] [101]))
                    "Vendi" sampleAccount initialState o 100) as T
  end.
  destruct T as ((A & B) & _ & C & _);
    [reflexivity | reflexivity | reflexivity
     | intros vol E; injection E as <-; discriminate
     | vm_compute; reflexivity |].
  repeat split; assumption.
Defined.

(** For the profile names of the position and long-term reducer, a
    snapshot with a positive price but neither a resistance above nor a
    support below it never yields an order: whatever the direction of the
    recommendation, the proposal is rejected for invalid price levels. *)
Theorem longterm_without_levels_rejected (sqrt252 : Q)
  (analysisData : AnalysisData) (recommendation : string)
  (accountInfo : option AccountInfo) (st : State) (cp : Q)
  (ot : orderType)
  (Hcp : currentPrice (technicalIndicators analysisData) = Some cp)
  (Hpos : 0 < cp)
  (Hprofile :
     isLongTermProfile
       (Js.normalizeProfile (name (tradingProfile analysisData))) = true)
  (Hres : Js.truthy (findNearestResistanceAbove
                       (technicalIndicators analysisData)) = false)
  (Hsup : Js.truthy (findNearestSupportBelow
                       (technicalIndicators analysisData)) = false)
  (Hdir : determineOrderType recommendation = Some ot) :
  fst (generateMT4Order sqrt252 analysisData recommendation accountInfo st)
  = Js.Returned (Rejected InvalidPriceLevels).
Proof.
  destruct (calculateOptimalTargetPrice_chosen
              (technicalIndicators analysisData) (directionOf ot)
              (name (tradingProfile analysisData)) cp Hcp Hpos)
    as (t & Et & _ & None_iff).
  assert (Tn : t = None) by (apply None_iff; auto). subst t.
  destruct (currentPrice_Some _ _ Hcp) as (pd & Hpd & _).
  unfold generateMT4Order. rewrite Hdir.
  unfold calculateEntryPrice. rewrite Hpd. rewrite Et.
  cbn [Js.truthy negb]. rewrite !orb_true_r. reflexivity.
Qed.

Lemma longterm_without_levels_rejected_witness :
  fst (generateMT4Order sqrt252Double
         (analysisOf "Position" (levelsSnapshot 100 1.5 [] []))
         "Compra Forte" sampleAccount initialState)
  = Js.Returned (Rejected InvalidPriceLevels).
Proof.
  apply (longterm_without_levels_rejected sqrt252Double
           (analysisOf "Position" (levelsSnapshot 100 1.5 [] []))
           "Compra Forte" sampleAccount initialState 100 BUY);
    reflexivity.
Defined.


(** When [generateMT4Order] throws instead of answering.  It never
    throws on a recommendation without a direction.  With a direction it
    throws whenever the snapshot has no [priceData]; and if it throws, then
    [priceData], the account or the volatility is missing, or the rounded
    entry price coincides with the stop loss, so that the risk/reward
    ratio is [null]. *)
Theorem generateMT4Order_throws (sqrt252 : Q) (analysisData : AnalysisData)
  (recommendation : string) (accountInfo : option AccountInfo) (st : State) :
  let ti := technicalIndicators analysisData in
  let profileName := name (tradingProfile analysisData) in
  let outcome :=
    fst (generateMT4Order sqrt252 analysisData recommendation accountInfo st)
  in
  (determineOrderType recommendation = None ->
   outcome = Js.Returned (Rejected NoClearDirection))
  /\ (determineOrderType recommendation <> None -> priceData ti = None ->
      outcome = Js.Thrown)
  /\ (outcome = Js.Thrown ->
      exists ot,
        determineOrderType recommendation = Some ot
        /\ (priceData ti = None
            \/ accountInfo = None
            \/ volatility ti = None
            \/ exists entry stop,
                 calculateEntryPrice ti ot profileName = Js.Returned entry
                 /\ calculateOptimalStopLoss sqrt252 ti (directionOf ot)
                      profileName = Some stop
                 /\ entry == stop)).
Proof.
  intros ti profileName outcome. unfold outcome, generateMT4Order.
  fold ti. fold profileName.
  split; [| split].
  - intros ->. reflexivity.
  - intros Hdir Hpd.
    destruct (determineOrderType recommendation) as [ot |]; [| congruence].
    unfold calculateEntryPrice. rewrite Hpd. reflexivity.
  - destruct (determineOrderType recommendation) as [ot |];
      [| discriminate].
    intro H. exists ot. split; [reflexivity |].
    destruct (calculateEntryPrice ti ot profileName) as [entry |] eqn:He.
    2:{ left. unfold calculateEntryPrice in He.
        destruct (priceData ti); [discriminate He | reflexivity]. }
    destruct (calculateOptimalStopLoss sqrt252 ti (directionOf ot)
                profileName) as [stop |] eqn:Hs;
      [| rewrite orb_true_r in H; discriminate H].
    set (target := match calculateOptimalTargetPrice ti (directionOf ot)
                           profileName with
                   | Some r => r
                   | None => None
                   end) in *.
    destruct (negb (Js.truthy (Some entry)) || negb (Js.truthy (Some stop))
              || negb (Js.truthy target)) eqn:T; [discriminate H |].
    destruct (calculateRiskRewardRatio (Some entry) target (Some stop))
      as [r |] eqn:Hr.
    + cbn [Js.toNumber] in H.
      destruct (Js.ltb r (getMinimumRiskRewardRatio profileName));
        [discriminate H |].
      unfold bind, getMoneyManagementSettings, gets, ret in H.
      cbn [fst snd] in H.
      destruct accountInfo as [ai |]; [| right; left; reflexivity].
      destruct (volatility ti) as [vol |];
        [discriminate H | right; right; left; reflexivity].
    + right. right. right. exists entry, stop.
      split; [reflexivity |]. split; [reflexivity |].
      apply orb_false_iff in T. destruct T as [T T3].
      apply orb_false_iff in T. destruct T as [T1 T2].
      unfold calculateRiskRewardRatio in Hr. rewrite T1, T2, T3 in Hr.
      cbn [orb Js.toNumber] in Hr. cbv zeta in Hr.
      destruct (Js.eqb (Qabs (entry - stop)) 0) eqn:Z;
        [| discriminate Hr].
      reflect_cmp. apply Qabs_zero in Z. lra.
Qed.

End Orders.

(** ** Scaling in and out of a position *)

Section ScaleLevels.
Import Indicators MoneyManagement.

Lemma sum_acc (l : list Q) (a : Q) : fold_left Qplus l a == a + sum l.
Proof.
  unfold sum. revert a.
  induction l as [| x l IH]; intro a; simpl.
  - ring.
  - rewrite (IH (a + x)), (IH (0 + x)). ring.
Qed.

Lemma sum_cons (x : Q) (l : list Q) : sum (x :: l) == x + sum l.
Proof.
  unfold sum at 1. simpl. rewrite sum_acc. ring.
Qed.




Lemma ofNat_pred (n : nat) : (1 <= n)%nat -> ofNat (n - 1) == ofNat n - 1.
Proof.
  intro H. unfold ofNat. rewrite Nat2Z.inj_sub by exact H.
  rewrite <- Z.add_opp_r, inject_Z_plus, inject_Z_opp. reflexivity.
Qed.







End ScaleLevels.

(** ** Risk limits *)

Section RiskLimits.
Import Indicators MoneyManagement.



End RiskLimits.

(** ** Drawdown *)

Section Drawdown.
Import MoneyManagement.

Lemma decline_mono (q p b : Q) :
  0 < q -> q <= p -> 0 < b -> (q - b) / q <= (p - b) / p.
Proof.
  intros Hq Hqp Hb.
  apply Qle_shift_div_r; [exact Hq |].
  setoid_replace ((p - b) / p * q) with ((p - b) * q / p) by (field; lra).
  apply Qle_shift_div_l; [lra | nra].
Qed.

Lemma decline_range (p b : Q) :
  0 < b -> b <= p -> 0 <= (p - b) / p /\ (p - b) / p < 1.
Proof.
  intros Hb Hbp. split.
  - apply Qle_shift_div_l; [lra | lra].
  - apply Qlt_shift_div_r; [lra | lra].
Qed.

(** The loop of [calculateDrawdown], started anywhere. *)
Lemma drawdown_fold (history : list HistoryRecord) :
  Forall (fun r => 0 < recordBalance r) history ->
  forall (peak : Q) (date : string) (dd : Q),
    0 < peak -> 0 <= dd -> dd < 1 ->
    exists peak' date' dd',
      fold_left drawdownStep history (peak, date, dd) = (peak', date', dd')
      /\ peak <= peak'
      /\ Forall (fun r => recordBalance r <= peak') history
      /\ ((peak' = peak /\ date' = date)
          \/ exists r, In r history /\ recordBalance r = peak'
                       /\ recordDate r = date')
      /\ dd <= dd' /\ dd' < 1
      /\ (forall before r after q,
            history = before ++ r :: after ->
            In q (peak :: map recordBalance (before ++ [r])) ->
            (q - recordBalance r) / q <= dd')
      /\ (dd' == dd
          \/ exists before r after q,
               history = before ++ r :: after
               /\ In q (peak :: map recordBalance (before ++ [r]))
               /\ dd' == (q - recordBalance r) / q).
Proof.
  induction 1 as [| x rest Hx Hrest IH]; intros peak date dd Hpeak Hdd0 Hdd1.
  - exists peak, date, dd.
    split; [reflexivity |]. split; [lra |]. split; [constructor |].
    split; [left; split; reflexivity |].
    split; [lra |]. split; [exact Hdd1 |]. split.
    + intros before r after q E. destruct before; discriminate E.
    + left. reflexivity.
  - cbn [fold_left]. unfold drawdownStep at 2.
    set (b := recordBalance x) in *.
    set (p1 := if Js.gtb b peak then b else peak).
    set (date1 := if Js.gtb b peak then recordDate x else date).
    set (d1 := (p1 - b) / p1).
    set (dd1 := if Js.gtb d1 dd then d1 else dd).
    assert (P1 : peak <= p1 /\ b <= p1 /\ (p1 = peak \/ p1 = b)).
    { unfold p1. destruct (Js.gtb b peak) eqn:G.
      - apply gtb_gt in G. repeat split; try lra. now right.
      - apply gtb_le in G. repeat split; try lra. now left. }
    destruct P1 as (P1a & P1b & P1c).
    destruct (decline_range p1 b Hx P1b) as [D1a D1b]. fold d1 in D1a, D1b.
    assert (DD1 : dd <= dd1 /\ d1 <= dd1 /\ dd1 < 1
                  /\ (dd1 = dd \/ dd1 = d1)).
    { unfold dd1. destruct (Js.gtb d1 dd) eqn:G.
      - apply gtb_gt in G. repeat split; try lra. now right.
      - apply gtb_le in G. repeat split; try lra. now left. }
    destruct DD1 as (DD1a & DD1b & DD1c & DD1d).
    destruct (IH p1 date1 dd1 ltac:(lra) ltac:(lra) DD1c)
      as (peak' & date' & dd' & Efold & Ple & Pall & Pwhere & Dle & Dlt
          & Dall & Dwhere).
    exists peak', date', dd'.
    split; [exact Efold |].
    split; [lra |].
    split; [constructor; [fold b; lra | exact Pall] |].
    split.
    { destruct Pwhere as [[Ep Ed] | (r & Hin & Eb & Ed)].
      - unfold p1, date1 in *.
        destruct (Js.gtb b peak).
        + right. exists x. split; [now left |]. split; [now subst | now subst].
        + left. split; assumption.
      - right. exists r. split; [now right |]. split; assumption. }
    split; [lra |].
    split; [exact Dlt |].
    split.
    { intros before r after q E Hq.
      destruct before as [| y before'].
      - cbn [app] in E. injection E as <- <-. fold b.
        cbn [app map] in Hq. fold b in Hq.
        destruct Hq as [<- | [<- | []]].
        + apply Qle_trans with d1; [| lra].
          unfold d1. apply decline_mono; assumption.
        + setoid_replace ((b - b) / b) with 0 by (field; lra). lra.
      - cbn [app] in E. injection E as <- E.
        assert (Hr : 0 < recordBalance r).
        { rewrite Forall_forall in Hrest. apply Hrest. rewrite E.
          apply in_or_app. right. now left. }
        assert (Top : (p1 - recordBalance r) / p1 <= dd').
        { apply (Dall before' r after p1 E). now left. }
        cbn [app map] in Hq. fold b in Hq.
        destruct Hq as [<- | [<- | Hq]].
        + apply Qle_trans with ((p1 - recordBalance r) / p1); [| exact Top].
          apply decline_mono; assumption.
        + apply Qle_trans with ((p1 - recordBalance r) / p1); [| exact Top].
          apply decline_mono; assumption.
        + apply (Dall before' r after q E). now right. }
    { destruct Dwhere as [Edd | (before & r & after & q & E & Hq & Edd)].
      - destruct DD1d as [-> | ->].
        + now left.
        + right. exists [], x, rest, p1.
          split; [reflexivity |]. split; [| exact Edd].
          cbn [app map]. fold b. destruct P1c as [-> | ->];
            [now left | right; now left].
      - right. exists (x :: before), r, after, q.
        split; [cbn [app]; now rewrite E |]. split; [| exact Edd].
        cbn [app map]. fold b.
        destruct Hq as [<- | Hq].
        + destruct P1c as [-> | ->]; [now left | right; now left].
        + right. now right. }
Qed.

(** On a history of positive balances [calculateDrawdown] reports the
    highest balance as the peak, with the date of a record that has it;
    the current drawdown, from that peak to the last balance, lies between
    0 and the maximum drawdown, which is below 1; and the maximum drawdown
    is the largest relative decline from a balance to a later one: no
    balance falls further from any earlier balance, and one such decline
    equals it. *)
Theorem calculateDrawdown_maximum (history : list HistoryRecord)
  (Hnonempty : history <> [])
  (Hpositive : Forall (fun r => 0 < recordBalance r) history) :
  let stats := calculateDrawdown (Some history) in
  Forall (fun r => recordBalance r <= fromPeak stats) history
  /\ (exists r, In r history /\ recordBalance r = fromPeak stats
                /\ peakDate stats = Some (recordDate r))
  /\ 0 <= currentDrawdown stats
  /\ currentDrawdown stats <= statsMaxDrawdown stats
  /\ statsMaxDrawdown stats < 1
  /\ (forall before r after p,
        history = before ++ r :: after -> In p (before ++ [r]) ->
        (recordBalance p - recordBalance r) / recordBalance p
        <= statsMaxDrawdown stats)
  /\ (exists before r after p,
        history = before ++ r :: after /\ In p (before ++ [r])
        /\ statsMaxDrawdown stats
           == (recordBalance p - recordBalance r) / recordBalance p).
Proof.
  intro stats.
  destruct history as [| first rest] eqn:H; [congruence |].
  rewrite <- H in *.
  assert (Hfirst : 0 < recordBalance first).
  { rewrite H in Hpositive. now inversion Hpositive. }
  assert (First : In first history) by (rewrite H; now left).
  destruct (drawdown_fold history Hpositive (recordBalance first)
              (recordDate first) 0 Hfirst ltac:(lra) ltac:(lra))
    as (peak & date & dd & Efold & Ple & Pall & Pwhere & Dle & Dlt
        & Dall & Dwhere).
  assert (S : stats
              = {| currentDrawdown :=
                     (peak - recordBalance (last history first)) / peak;
                   statsMaxDrawdown := dd; fromPeak := peak;
                   peakDate := Some date |}).
  { unfold stats, calculateDrawdown. rewrite H. rewrite <- H.
    rewrite Efold. reflexivity. }
  rewrite S. cbn [currentDrawdown statsMaxDrawdown fromPeak peakDate].
  assert (Peak : exists r, In r history /\ recordBalance r = peak
                           /\ recordDate r = date).
  { destruct Pwhere as [[-> ->] | W]; [| exact W].
    exists first. auto. }
  assert (InBalances : forall before r p,
             In p (before ++ [r]) ->
             In (recordBalance p)
                (recordBalance first :: map recordBalance (before ++ [r]))).
  { intros before r p Hp. right. now apply in_map. }
  assert (HistoryLast : history = removelast history ++ [last history first])
    by (apply app_removelast_last; congruence).
  rewrite Forall_forall in Pall.
  assert (Last : In (last history first) history).
  { rewrite HistoryLast at 2. apply in_or_app. right. now left. }
  assert (LastPos : 0 < recordBalance (last history first)).
  { rewrite Forall_forall in Hpositive. now apply Hpositive. }
  split; [rewrite Forall_forall; exact Pall |].
  split.
  { destruct Peak as (r & Hin & Eb & Ed). exists r. now rewrite Ed. }
  split.
  { apply decline_range; [exact LastPos | now apply Pall]. }
  split.
  { destruct Peak as (r & Hin & Eb & _). rewrite <- Eb.
    apply (Dall (removelast history) (last history first) []
                (recordBalance r)).
    - exact HistoryLast.
    - apply InBalances. now rewrite <- HistoryLast. }
  split; [exact Dlt |].
  split.
  { intros before r after p E Hp.
    apply (Dall before r after (recordBalance p) E).
    now apply InBalances. }
  { destruct Dwhere as [Edd | (before & r & after & q & E & Hq & Edd)].
    - exists [], first, rest, first.
      split; [exact H |]. split; [now left |].
      rewrite Edd. field. lra.
    - assert (Hq' : In q (map recordBalance (before ++ [r]))).
      { destruct Hq as [<- | Hq]; [| exact Hq].
        apply in_map.
        destruct before as [| y before'].
        - rewrite H in E. injection E as -> _. now left.
        - rewrite H in E. injection E as -> _. now left. }
      apply in_map_iff in Hq'. destruct Hq' as (p & <- & Hp).
      exists before, r, after, p. auto. }
Qed.

Lemma calculateDrawdown_maximum_witness :
  let stats :=
    calculateDrawdown
      (Some [ {| recordBalance := 100; recordDate := "d1" |};
              {| recordBalance := 120; recordDate := "d2" |};
              {| recordBalance := 90; recordDate := "d3" |};
              {| recordBalance := 108; recordDate := "d4" |} ]) in
  0 <= currentDrawdown stats
  /\ currentDrawdown stats <= statsMaxDrawdown stats
  /\ statsMaxDrawdown stats < 1.
Proof.
  intro stats.
  destruct (calculateDrawdown_maximum
              [ {| recordBalance := 100; recordDate := "d1" |};
                {| recordBalance := 120; recordDate := "d2" |};
                {| recordBalance := 90; recordDate := "d3" |};
                {| recordBalance := 108; recordDate := "d4" |} ])
    as (_ & _ & A & B & C & _).
  - discriminate.
  - repeat constructor.
  - repeat split; assumption.
Defined.

End Drawdown.

(** ** Saving, loading and resetting the settings *)

Section SettingsLifeCycle.
Import MoneyManagement.






(** An update with a profile type that is not a key of the settings is
    refused: it returns [null], changes nothing and saves nothing. *)
Lemma unknown_profile_untouched (profileType : string)
  (newSettings : SettingsPatch) (st : State) :
  lookupProfile (userSettings st) profileType = None ->
  updateMoneyManagementSettings profileType newSettings st = (None, st).
Proof.
  intro H. unfold updateMoneyManagementSettings, bind, gets, ret.
  cbn [fst snd]. now rewrite H.
Qed.



(** The adjustment of [maxRiskPerTrade] by the balance.  Only that
    property differs from the stored entry that the profile name selects.
    With a stored value of at least 0.005 the value returned never exceeds
    it; a balance below 1000 gives at least 0.005, which is more than a
    stored value below 0.005; a balance above 50000 gives at most 0.01;
    and a missing or zero balance, or one from 1000 to 50000, gives the
    stored entry itself. *)
Theorem getMoneyManagementSettings_adjustment
  (accountInfo : option AccountInfo) (profileName : string) (st : State) :
  let stored :=
    selectSettings (userSettings st) (Js.normalizeProfile profileName) in
  let result := fst (getMoneyManagementSettings accountInfo profileName st) in
  let b := match accountInfo with
           | Some ai => Js.toNumber (balance ai)
           | None => 0
           end in
  result = withMaxRiskPerTrade stored (maxRiskPerTrade result)
  /\ (0.005 <= maxRiskPerTrade stored ->
      maxRiskPerTrade result <= maxRiskPerTrade stored)
  /\ (b < 1000 -> ~ b == 0 ->
      0.005 <= maxRiskPerTrade result
      /\ (maxRiskPerTrade stored < 0.005 ->
          maxRiskPerTrade result == 0.005))
  /\ (50000 < b -> maxRiskPerTrade result <= 0.01)
  /\ (b == 0 \/ (1000 <= b /\ b <= 50000) -> result = stored).
Proof.
  intros stored result b.
  unfold result, getMoneyManagementSettings, bind, gets, ret.
  cbn [fst snd]. fold stored.
  unfold adjustForBalance.
  destruct accountInfo as [ai |].
  2:{ subst b. destruct stored. cbn.
      repeat split; try reflexivity; intros; try lra;
        exfalso; auto with qarith. }
  fold b. unfold Js.truthy.
  destruct (balance ai) as [bal |].
  2:{ subst b. destruct stored. cbn.
      repeat split; try reflexivity; intros; try lra;
        exfalso; auto with qarith. }
  cbn [Js.toNumber] in b. subst b. cbn [Js.toNumber].
  destruct (Js.eqb bal 0) eqn:Z; cbn [negb].
  { apply eqb_eq in Z. destruct stored. cbn.
    repeat split; try reflexivity; intros; try lra; try contradiction. }
  apply eqb_neq in Z.
  destruct (Js.ltb bal 1000) eqn:Small.
  { apply ltb_lt in Small.
    pose proof (Q.le_max_l 0.005 (maxRiskPerTrade stored * 0.7)) as M1.
    cbn [maxRiskPerTrade withMaxRiskPerTrade].
    split; [reflexivity |].
    split.
    { intro Hs. apply Q.max_lub; lra. }
    split.
    { intros _ _. split; [exact M1 |].
      intro Hs. apply Q.max_l. lra. }
    split; [intro; lra |].
    intros [E | [E _]]; [contradiction | lra]. }
  apply ltb_ge in Small.
  destruct (Js.gtb bal 50000) eqn:Large.
  { apply gtb_gt in Large.
    pose proof (Q.le_min_l 0.01 (maxRiskPerTrade stored * 0.8)) as M1.
    pose proof (Q.le_min_r 0.01 (maxRiskPerTrade stored * 0.8)) as M2.
    cbn [maxRiskPerTrade withMaxRiskPerTrade].
    split; [reflexivity |].
    split; [intro Hs; lra |].
    split; [intros; lra |].
    split; [intros _; exact M1 |].
    intros [E | [_ E]]; [contradiction | lra]. }
  apply gtb_le in Large.
  destruct stored. cbn.
  repeat split; try reflexivity; intros; try lra.
Qed.

End SettingsLifeCycle.

(** ** From the signals to the recommendation and the order *)

Section SignalsToOrder.
Import Snapshot Recommendation MoneyManagement OrderGeneration.







(** The RSI signal never rises with the RSI: of two snapshots, the one
    with the higher RSI has the lower or the same signal. *)
Theorem calculateRSISignal_antitone (ti1 ti2 : TechnicalIndicators)
  (m1 m2 : Momentum) (r1 r2 : Q)
  (H1 : momentum ti1 = Some m1) (H2 : momentum ti2 = Some m2)
  (R1 : rsi m1 = Some r1) (R2 : rsi m2 = Some r2)
  (Hle : r1 <= r2) :
  exists s1 s2,
    calculateRSISignal ti1 = Some s1 /\ calculateRSISignal ti2 = Some s2
    /\ s2 <= s1.
Proof.
  unfold calculateRSISignal. rewrite H1, H2, R1, R2.
  eexists. eexists. split; [reflexivity |]. split; [reflexivity |].
  repeat case_cmp; reflect_cmp; lra.
Qed.

Lemma calculateRSISignal_antitone_witness :
  exists s1 s2,
    calculateRSISignal
      {| priceData := None; movingAverages := None;
         momentum := Some {| rsi := Some 30; macd := None;
                             macdSignal := None; macdHistogram := None |};
         volatility := None; trend := None; levels := None;
         volume := None |} = Some s1
    /\ calculateRSISignal
         {| priceData := None; movingAverages := None;
            momentum := Some {| rsi := Some 70; macd := None;
                                macdSignal := None; macdHistogram := None |};
            volatility := None; trend := None; levels := None;
            volume := None |} = Some s2
    /\ s2 <= s1.
Proof.
  eapply calculateRSISignal_antitone; try reflexivity. discriminate.
Defined.

(** The MACD signal takes the side of the MACD line against its signal
    line and never abstains: it is positive exactly when the MACD is above
    the signal line and negative otherwise, also when the two are equal,
    and it is at least one half in size whatever the histogram says. *)
Theorem calculateMACDSignal_sign (ti : TechnicalIndicators) (m : Momentum)
  (line signalLine histogram : Q)
  (Hm : momentum ti = Some m) (Hline : macd m = Some line)
  (Hsignal : macdSignal m = Some signalLine)
  (Hhistogram : macdHistogram m = Some histogram) :
  exists s,
    calculateMACDSignal ti = Some s
    /\ (signalLine < line -> 0.5 <= s)
    /\ (line <= signalLine -> s <= -0.5).
Proof.
  unfold calculateMACDSignal. rewrite Hm, Hline, Hsignal, Hhistogram.
  eexists. split; [reflexivity |].
  repeat case_cmp; reflect_cmp; split; intros; lra.
Qed.

Lemma calculateMACDSignal_sign_witness :
  exists s,
    calculateMACDSignal
      {| priceData := None; movingAverages := None;
         momentum := Some {| rsi := None; macd := Some 1;
                             macdSignal := Some 1;
                             macdHistogram := Some 3 |};
         volatility := None; trend := None; levels := None;
         volume := None |} = Some s
    /\ s <= -0.5.
Proof.
  destruct (calculateMACDSignal_sign
              {| priceData := None; movingAverages := None;
                 momentum := Some {| rsi := None; macd := Some 1;
                                     macdSignal := Some 1;
                                     macdHistogram := Some 3 |};
                 volatility := None; trend := None; levels := None;
                 volume := None |}
              {| rsi := None; macd := Some 1; macdSignal := Some 1;
                 macdHistogram := Some 3 |} 1 1 3
              eq_refl eq_refl eq_refl eq_refl) as (s & E & _ & A).
  exists s. split; [exact E | apply A; discriminate].
Defined.

(** The ADX signal has the sign of [plusDI - minusDI] and a size that
    depends on the ADX alone, from one half up to two and never falling as
    the ADX rises; exchanging the two directional indices negates it. *)
Theorem calculateADXSignal_direction (ti ti' : TechnicalIndicators)
  (t t' : Trend) (a a' plus minus : Q)
  (Ht : trend ti = Some t) (Ht' : trend ti' = Some t')
  (Ha : adx t = Some a) (Hp : plusDI t = Some plus)
  (Hm : minusDI t = Some minus)
  (Ha' : adx t' = Some a') (Hp' : plusDI t' = Some minus)
  (Hm' : minusDI t' = Some plus)
  (Hle : a <= a') :
  exists s s',
    calculateADXSignal ti = Some s /\ calculateADXSignal ti' = Some s'
    /\ (minus < plus -> 0.5 <= s) /\ (plus < minus -> s <= -0.5)
    /\ (plus == minus -> s == 0)
    /\ Qabs s <= Qabs s' /\ (a == a' -> s' == - s).
Proof.
  unfold calculateADXSignal. rewrite Ht, Ht', Ha, Hp, Hm, Ha', Hp', Hm'.
  eexists. eexists. split; [reflexivity |]. split; [reflexivity |].
  cbv zeta.
  repeat case_cmp; reflect_cmp;
    repeat match goal with
           | |- context [Qabs ?x] =>
               let v := eval vm_compute in (Qabs x) in
               change (Qabs x) with v
           end;
    repeat split; intros; try lra.
Qed.

Lemma calculateADXSignal_direction_witness :
  exists s s',
    calculateADXSignal
      {| priceData := None; movingAverages := None; momentum := None;
         volatility := None;
         trend := Some {| adx := Some 25; plusDI := Some 30;
                          minusDI := Some 10; patterns := [] |};
         levels := None; volume := None |} = Some s
    /\ calculateADXSignal
         {| priceData := None; movingAverages := None; momentum := None;
            volatility := None;
            trend := Some {| adx := Some 25; plusDI := Some 10;
                             minusDI := Some 30; patterns := [] |};
            levels := None; volume := None |} = Some s'
    /\ 0.5 <= s /\ s' == - s.
Proof.
  destruct (calculateADXSignal_direction
              {| priceData := None; movingAverages := None; momentum := None;
                 volatility := None;
                 trend := Some {| adx := Some 25; plusDI := Some 30;
                                  minusDI := Some 10; patterns := [] |};
                 levels := None; volume := None |}
              {| priceData := None; movingAverages := None; momentum := None;
                 volatility := None;
                 trend := Some {| adx := Some 25; plusDI := Some 10;
                                  minusDI := Some 30; patterns := [] |};
                 levels := None; volume := None |}
              {| adx := Some 25; plusDI := Some 30; minusDI := Some 10;
                 patterns := [] |}
              {| adx := Some 25; plusDI := Some 10; minusDI := Some 30;
                 patterns := [] |}
              25 25 30 10
              eq_refl eq_refl eq_refl eq_refl eq_refl eq_refl eq_refl eq_refl)
    as (s & s' & E & E' & A & _ & _ & _ & B); [discriminate |].
  exists s, s'. split; [exact E |]. split; [exact E' |].
  split; [apply A; reflexivity | apply B; reflexivity].
Defined.

(** The text of each recommendation, as the order generation reads it:
    the normalized score decides the side of the order and the confidence
    that the order carries.  Above 3 the order is a BUY, at -3 or below a
    SELL; in between no order is built, whatever the snapshot, the profile
    and the account; and the confidence is Alta exactly above 7 and at -7
    or below. *)
Theorem score_decides_order (s : Q) :
  let text := labelText (determineRecommendation s) in
  (3 < s -> determineOrderType text = Some BUY)
  /\ (s <= -3 -> determineOrderType text = Some SELL)
  /\ (-3 < s -> s <= 3 ->
      determineOrderType text = None
      /\ forall sqrt252 analysisData accountInfo st,
           generateMT4Order sqrt252 analysisData text accountInfo st
           = (Js.Returned (Rejected NoClearDirection), st))
  /\ (7 < s \/ s <= -7 -> getConfidenceLevel text = "Alta"%string)
  /\ (-7 < s -> s <= 7 -> getConfidenceLevel text = "Media"%string).
Proof.
  intro text. unfold text, determineRecommendation.
  repeat case_cmp; reflect_cmp; cbn [labelText];
    (split; [| split; [| split; [| split]]]);
    intros; try lra; try reflexivity;
    try (split; [reflexivity | intros; reflexivity]);
    try match goal with
        | H : _ \/ _ |- _ => destruct H; try lra; reflexivity
        end.
Qed.

(** A snapshot without momentum, moving averages, trend, volatility and
    volume gives no signal at all: for every profile the recommendation is
    Mantieni with score 0 and confidence Bassa, and the order generation
    answers it with the refusal for a missing direction. *)
Theorem no_indicators_no_order (ti : TechnicalIndicators)
  (profileType : string)
  (Hmomentum : momentum ti = None)
  (Haverages : movingAverages ti = None)
  (Htrend : trend ti = None)
  (Hvolatility : volatility ti = None)
  (Hvolume : volume ti = None) :
  calculateWeightedRecommendation ti profileType
  = {| recommendation := Mantieni; score := 0; confidenceLevel := Bassa |}
  /\ forall sqrt252 analysisData accountInfo st,
       fst (generateMT4Order sqrt252 analysisData
              (labelText
                 (recommendation
                    (calculateWeightedRecommendation ti profileType)))
              accountInfo st)
       = Js.Returned (Rejected NoClearDirection).
Proof.
  assert (S : computeSignals ti
              = {| s_rsi := None; s_macd := None; s_ema := None;
                   s_adx := None; s_bollinger := None; s_volume := None;
                   s_pattern := None |}).
  { unfold computeSignals, calculateRSISignal, calculateMACDSignal,
      calculateEMASignal, calculateADXSignal, calculateBollingerSignal,
      calculateVolumeSignal, calculatePatternSignal.
    now rewrite Hmomentum, Haverages, Htrend, Hvolatility, Hvolume. }
  assert (E : calculateWeightedRecommendation ti profileType
              = {| recommendation := Mantieni; score := 0;
                   confidenceLevel := Bassa |}).
  { unfold calculateWeightedRecommendation. cbv zeta. rewrite S.
    reflexivity. }
  split; [exact E |].
  intros. rewrite E. reflexivity.
Qed.

Lemma no_indicators_no_order_witness :
  recommendation
    (calculateWeightedRecommendation
       {| priceData := Some {| current := Some 100; change := Some 1 |};
          movingAverages := None; momentum := None; volatility := None;
          trend := None;
          levels := Some {| supports := [95]; resistances := [110] |};
          volume := None |} "Falco dello Scalping")
  = Mantieni.
Proof.
  destruct (no_indicators_no_order
              {| priceData := Some {| current := Some 100; change := Some 1 |};
                 movingAverages := None; momentum := None; volatility := None;
                 trend := None;
                 levels := Some {| supports := [95]; resistances := [110] |};
                 volume := None |} "Falco dello Scalping"
              eq_refl eq_refl eq_refl eq_refl eq_refl) as [E _].
  now rewrite E.
Defined.

End SignalsToOrder.

(** ** The range of the RSI *)

Section RsiRange.
Import Indicators.

(** The inner loop of [calculateRSI], started anywhere: both
    accumulators stay non-negative and never fall. *)
Lemma gainsLosses_fold (window : list Q) (acc : Q * Q) :
  let final :=
    fold_left (fun acc c =>
                 if Js.gtb c 0 then (fst acc + c, snd acc)
                 else (fst acc, snd acc - c)) window acc in
  fst acc <= fst final /\ snd acc <= snd final
  /\ (Forall (fun c => c <= 0) window -> fst final = fst acc)
  /\ (Forall (fun c => c == 0) window -> snd final == snd acc)
  /\ (Forall (fun c => c < 0) window -> window <> [] ->
      snd acc < snd final).
Proof.
  revert acc. induction window as [| c w IH]; intro acc; cbn [fold_left].
  - cbv zeta. repeat split; try lra; try reflexivity. congruence.
  - cbv zeta. destruct (Js.gtb c 0) eqn:E; reflect_cmp.
    + destruct (IH (fst acc + c, snd acc)) as (I1 & I2 & I3 & I4 & I5).
      cbn [fst snd] in *.
      split; [lra |]. split; [lra |].
      split; [| split].
      * intro Hall. inversion Hall; subst. lra.
      * intro Hall. inversion Hall; subst. lra.
      * intros Hall _. inversion Hall; subst. lra.
    + destruct (IH (fst acc, snd acc - c)) as (I1 & I2 & I3 & I4 & I5).
      cbn [fst snd] in *.
      split; [lra |]. split; [lra |].
      split; [| split].
      * intro Hall. inversion Hall; subst. now apply I3.
      * intro Hall. inversion Hall as [| ? ? Hc Hw]; subst.
        rewrite (I4 Hw). rewrite Hc. ring.
      * intros Hall _. inversion Hall as [| ? ? Hc Hw]; subst. lra.
Qed.

(** One entry of the RSI, for a period of at least one and a full
    window. *)
Lemma rsiAt_range (changes : list Q) (period i : nat) :
  (0 < period)%nat -> (period <= i)%nat -> (i <= length changes)%nat ->
  0 <= rsiAt changes period i /\ rsiAt changes period i <= 100
  /\ (Forall (fun c => c < 0) changes -> rsiAt changes period i == 0)
  /\ (Forall (fun c => c == 0) changes -> rsiAt changes period i = 100).
Proof.
  intros Hperiod Hi Hlen. unfold rsiAt. cbv zeta.
  set (window := slice (i - period) i changes).
  assert (Len : length window = period).
  { unfold window. rewrite slice_length by exact Hlen. lia. }
  assert (Hne : window <> []).
  { intro E. rewrite E in Len. simpl in Len. lia. }
  pose proof (ofNat_positive period Hperiod) as P.
  destruct (gainsLosses_fold window (0, 0)) as (G1 & G2 & G3 & G4 & G5).
  fold (gainsLosses window) in G1, G2, G3, G4, G5.
  cbn [fst snd] in G1, G2, G3, G4, G5.
  set (gains := fst (gainsLosses window)) in *.
  set (losses := snd (gainsLosses window)) in *.
  assert (AvgGain : 0 <= gains / ofNat period)
    by (apply Qle_shift_div_l; [exact P | lra]).
  destruct (Js.eqb (losses / ofNat period) 0) eqn:Z; reflect_cmp.
  - split; [lra |]. split; [lra |]. split; [| reflexivity].
    intro Hall. exfalso.
    assert (L : 0 < losses)
      by (apply G5; [apply slice_Forall; exact Hall | exact Hne]).
    assert (0 < losses / ofNat period)
      by (apply Qlt_shift_div_l; [exact P | lra]).
    lra.
  - assert (L : 0 < losses).
    { destruct (Qlt_le_dec 0 losses) as [L | L]; [exact L |].
      exfalso. apply Z. assert (E : losses == 0) by lra. rewrite E.
      field. lra. }
    assert (AvgLoss : 0 < losses / ofNat period)
      by (apply Qlt_shift_div_l; [exact P | lra]).
    set (avgGain := gains / ofNat period) in *.
    set (avgLoss := losses / ofNat period) in *.
    assert (RS : 0 <= avgGain / avgLoss)
      by (apply Qle_shift_div_l; [exact AvgLoss | lra]).
    set (rs := avgGain / avgLoss) in *.
    assert (D1 : 0 < 100 / (1 + rs))
      by (apply Qlt_shift_div_l; lra).
    assert (D2 : 100 / (1 + rs) <= 100)
      by (apply Qle_shift_div_r; lra).
    split; [lra |]. split; [lra |]. split.
    + intro Hall.
      assert (G0 : gains = 0).
      { apply G3. apply slice_Forall.
        apply (Forall_impl _ (P := fun c => c < 0)); [| exact Hall].
        intros c Hc. lra. }
      assert (R0 : rs == 0).
      { unfold rs, avgGain. rewrite G0. field. split; lra. }
      rewrite R0. reflexivity.
    + intro Hall. exfalso.
      assert (L0 : losses == 0) by (apply G4, slice_Forall; exact Hall).
      lra.
Qed.

(** For a period of at least one every RSI value lies between 0 and
    100; on a strictly decreasing series every value is 0; and on a flat
    series, where gains and losses are both 0, every value is 100. *)
Theorem calculateRSI_range (prices : list Q) (period : nat)
  (Hperiod : (0 < period)%nat) :
  (forall v, In (Some v) (calculateRSI prices period) ->
             0 <= v /\ v <= 100)
  /\ ((forall i, (i + 1 < length prices)%nat ->
                 nth (i + 1) prices 0 < nth i prices 0) ->
      forall v, In (Some v) (calculateRSI prices period) -> v == 0)
  /\ ((forall i, (i + 1 < length prices)%nat ->
                 nth (i + 1) prices 0 == nth i prices 0) ->
      forall v, In (Some v) (calculateRSI prices period) -> v = 100).
Proof.
  assert (Entry : forall v,
             In (Some v) (calculateRSI prices period) ->
             exists i, v = rsiAt (priceChanges prices) period i
                       /\ (period <= i)%nat
                       /\ (i <= length (priceChanges prices))%nat).
  { intros v Hv. unfold calculateRSI in Hv.
    destruct (length prices <=? period)%nat.
    - apply repeat_spec in Hv. discriminate.
    - apply in_app_or in Hv. destruct Hv as [Hv | Hv].
      + apply repeat_spec in Hv. discriminate.
      + apply in_map_iff in Hv. destruct Hv as (i & Hi & Hin).
        apply in_seq in Hin. exists i. injection Hi as <-.
        split; [reflexivity | lia]. }
  assert (Changes : forall (P : Q -> Prop),
             (forall i, (i + 1 < length prices)%nat ->
                        P (nth (i + 1) prices 0 - nth i prices 0)) ->
             Forall P (priceChanges prices)).
  { intros P HP. unfold priceChanges. apply Forall_forall.
    intros c Hc. apply in_map_iff in Hc. destruct Hc as (i & <- & Hi).
    apply in_seq in Hi. specialize (HP (i - 1)%nat).
    replace (i - 1 + 1)%nat with i in HP by lia. apply HP. lia. }
  split; [| split].
  - intros v Hv. destruct (Entry v Hv) as (i & -> & Hi & Hlen).
    destruct (rsiAt_range (priceChanges prices) period i Hperiod Hi Hlen)
      as (A & B & _). split; assumption.
  - intros Hdec v Hv. destruct (Entry v Hv) as (i & -> & Hi & Hlen).
    destruct (rsiAt_range (priceChanges prices) period i Hperiod Hi Hlen)
      as (_ & _ & C & _).
    apply C. apply Changes. intros j Hj. specialize (Hdec j Hj). lra.
  - intros Hflat v Hv. destruct (Entry v Hv) as (i & -> & Hi & Hlen).
    destruct (rsiAt_range (priceChanges prices) period i Hperiod Hi Hlen)
      as (_ & _ & _ & D).
    apply D. apply Changes. intros j Hj. specialize (Hflat j Hj). lra.
Qed.

Lemma calculateRSI_range_witness :
  exists v, nth 2 (calculateRSI [9; 7; 4; 2] 2) None = Some v
            /\ v == 0 /\ 0 <= v /\ v <= 100.
Proof.
  destruct (calculateRSI_range [9; 7; 4; 2] 2) as (A & B & _); [lia |].
  eexists. split; [reflexivity |]. split.
  - apply B.
    + intros i Hi. simpl in Hi.
      do 3 (destruct i as [| i]; [reflexivity |]). lia.
    + do 2 right. left. reflexivity.
  - apply A. do 2 right. left. reflexivity.
Defined.

End RsiRange.

(** ** Support and resistance levels *)

Section SupportResistanceLevels.
Import Indicators.












End SupportResistanceLevels.

(** ** The Bollinger signal *)

Section BollingerSignal.
Import Snapshot Recommendation.

Lemma truthy_nonzero (x : Q) : ~ x == 0 -> Js.truthy (Some x) = true.
Proof.
  intro H. unfold Js.truthy.
  assert (E : Js.eqb x 0 = false) by (apply eqb_neq; exact H).
  now rewrite E.
Qed.

(** With the same bands, lower band not above the upper one, the
    Bollinger signal never rises with the price: of two snapshots, the one
    with the higher price has the lower or the same signal.  Above the
    upper band it is -1.5, below the lower band 1.5. *)
Theorem calculateBollingerSignal_antitone (ti1 ti2 : TechnicalIndicators)
  (v : Volatility) (pd1 pd2 : PriceData) (upper lower middle p1 p2 : Q)
  (Hv1 : volatility ti1 = Some v) (Hv2 : volatility ti2 = Some v)
  (Hpd1 : priceData ti1 = Some pd1) (Hpd2 : priceData ti2 = Some pd2)
  (Hupper : bollingerUpper v = Some upper)
  (Hlower : bollingerLower v = Some lower)
  (Hmiddle : bollingerMiddle v = Some middle)
  (Hp1 : current pd1 = Some p1) (Hp2 : current pd2 = Some p2)
  (Hnonzero : ~ upper == 0 /\ ~ lower == 0 /\ ~ middle == 0
              /\ ~ p1 == 0 /\ ~ p2 == 0)
  (Hbands : lower <= upper)
  (Hle : p1 <= p2) :
  exists s1 s2,
    calculateBollingerSignal ti1 = Some s1
    /\ calculateBollingerSignal ti2 = Some s2
    /\ s2 <= s1
    /\ (upper < p1 -> s1 == -1.5)
    /\ (p1 < lower -> s1 == 1.5).
Proof.
  destruct Hnonzero as (Nu & Nl & Nm & N1 & N2).
  unfold calculateBollingerSignal.
  rewrite Hv1, Hv2, Hpd1, Hpd2, Hupper, Hlower, Hmiddle, Hp1, Hp2.
  rewrite !truthy_nonzero by assumption.
  cbn [negb orb Js.toNumber]. cbv zeta.
  assert (Mono : 0 < upper - lower ->
                 (p1 - lower) / (upper - lower)
                 <= (p2 - lower) / (upper - lower)).
  { intro R. apply Qle_shift_div_l; [exact R |].
    setoid_replace ((p1 - lower) / (upper - lower) * (upper - lower))
      with (p1 - lower) by (field; lra).
    lra. }
  set (a1 := (p1 - lower) / (upper - lower)) in *.
  set (a2 := (p2 - lower) / (upper - lower)) in *.
  assert (R : ~ upper - lower == 0 -> a1 <= a2)
    by (intro R; apply Mono; lra).
  repeat case_cmp; reflect_cmp;
    (eexists; eexists; split; [reflexivity |]; split; [reflexivity |]);
    try (specialize (R ltac:(assumption)));
    repeat split; intros; try lra.
Qed.

Lemma calculateBollingerSignal_antitone_witness :
  exists s1 s2,
    calculateBollingerSignal
      {| priceData := Some {| current := Some 91; change := None |};
         movingAverages := None; momentum := None;
         volatility := Some {| value := None; bollingerUpper := Some 110;
                               bollingerMiddle := Some 100;
                               bollingerLower := Some 90 |};
         trend := None; levels := None; volume := None |} = Some s1
    /\ calculateBollingerSignal
         {| priceData := Some {| current := Some 111; change := None |};
            movingAverages := None; momentum := None;
            volatility := Some {| value := None; bollingerUpper := Some 110;
                                  bollingerMiddle := Some 100;
                                  bollingerLower := Some 90 |};
            trend := None; levels := None; volume := None |} = Some s2
    /\ s2 <= s1.
Proof.
  destruct (calculateBollingerSignal_antitone
              {| priceData := Some {| current := Some 91; change := None |};
                 movingAverages := None; momentum := None;
                 volatility := Some {| value := None;
                                       bollingerUpper := Some 110;
                                       bollingerMiddle := Some 100;
                                       bollingerLower := Some 90 |};
                 trend := None; levels := None; volume := None |}
              {| priceData := Some {| current := Some 111; change := None |};
                 movingAverages := None; momentum := None;
                 volatility := Some {| value := None;
                                       bollingerUpper := Some 110;
                                       bollingerMiddle := Some 100;
                                       bollingerLower := Some 90 |};
                 trend := None; levels := None; volume := None |}
              {| value := None; bollingerUpper := Some 110;
                 bollingerMiddle := Some 100; bollingerLower := Some 90 |}
              {| current := Some 91; change := None |}
              {| current := Some 111; change := None |}
              110 90 100 91 111
              eq_refl eq_refl eq_refl eq_refl eq_refl eq_refl eq_refl
              eq_refl eq_refl)
    as (s1 & s2 & E1 & E2 & A & _).
  - repeat split; discriminate.
  - discriminate.
  - discriminate.
  - exists s1, s2. auto.
Defined.

End BollingerSignal.

(** ** The average directional index *)

Section Adx.
Import Indicators.

Lemma sum_nonneg (l : list Q) : Forall (fun x => 0 <= x) l -> 0 <= sum l.
Proof.
  induction 1 as [| x l Hx Hl IH].
  - unfold sum. simpl. lra.
  - rewrite sum_cons. lra.
Qed.

Lemma sum_positive (l : list Q) (x : Q) :
  Forall (fun x => 0 <= x) l -> In x l -> 0 < x -> 0 < sum l.
Proof.
  induction 1 as [| y l Hy Hl IH]; intros Hin Hx; [contradiction |].
  rewrite sum_cons. pose proof (sum_nonneg l Hl).
  destruct Hin as [-> | Hin]; [lra |].
  specialize (IH Hin Hx). lra.
Qed.

Lemma nth_Forall {A : Type} (P : A -> Prop) (l : list A) (i : nat) (d : A) :
  Forall P l -> (i < length l)%nat -> P (nth i l d).
Proof.
  intros H Hi. rewrite Forall_forall in H. apply H. now apply nth_In.
Qed.

Lemma nth_In_firstn {A : Type} (l : list A) (j m : nat) (d : A) :
  (j < m)%nat -> (m <= length l)%nat -> In (nth j l d) (firstn m l).
Proof.
  intros Hj Hm.
  rewrite <- (firstn_skipn m l) at 1.
  rewrite app_nth1 by (rewrite length_firstn; lia).
  apply nth_In. rewrite length_firstn. lia.
Qed.

Lemma setAt_length (i : nat) (x : Q) (arr : list Q) :
  (i < length arr)%nat -> length (setAt i x arr) = length arr.
Proof.
  intro H. unfold setAt.
  rewrite length_app, length_firstn. cbn [length]. rewrite length_skipn. lia.
Qed.

Lemma setAt_Forall (P : Q -> Prop) (i : nat) (x : Q) (arr : list Q) :
  Forall P arr -> P x -> Forall P (setAt i x arr).
Proof.
  intros H Hx. unfold setAt. apply Forall_app. split.
  - apply Forall_forall. intros y Hy. apply in_firstn in Hy.
    rewrite Forall_forall in H. now apply H.
  - constructor; [exact Hx |].
    apply Forall_forall. intros y Hy. apply in_skipn in Hy.
    rewrite Forall_forall in H. now apply H.
Qed.

Lemma movements_length (f : Candle -> Candle -> Q) (priceData : list Candle) :
  (1 <= length priceData)%nat ->
  length (movements f priceData) = length priceData.
Proof.
  intro H. unfold movements. cbv zeta. cbn [length].
  rewrite length_map, length_seq. lia.
Qed.

Lemma movements_Forall (P : Q -> Prop) (f : Candle -> Candle -> Q)
  (priceData : list Candle) :
  P 0 -> (forall cur prev, In cur priceData -> P (f cur prev)) ->
  Forall P (movements f priceData).
Proof.
  intros H0 Hf. unfold movements. cbv zeta. constructor; [exact H0 |].
  apply Forall_forall. intros x Hx. apply in_map_iff in Hx.
  destruct Hx as (i & <- & Hi). apply in_seq in Hi.
  apply Hf. apply nth_In. lia.
Qed.

Lemma movements_nth (f : Candle -> Candle -> Q) (priceData : list Candle)
  (i : nat) :
  (1 <= i)%nat -> (i < length priceData)%nat ->
  exists cur prev, In cur priceData
                   /\ nth i (movements f priceData) 0 = f cur prev.
Proof.
  intros H1 Hi. unfold movements. cbv zeta.
  destruct i as [| i]; [lia |]. cbn [nth].
  eexists. eexists. split.
  2:{ rewrite (nth_indep _ 0
                 (f (nth 0 priceData {| high := 0; low := 0; close := 0 |})
                    (nth (0 - 1) priceData
                         {| high := 0; low := 0; close := 0 |})))
        by (rewrite length_map, length_seq; lia).
      rewrite (map_nth (fun i =>
                          f (nth i priceData
                                 {| high := 0; low := 0; close := 0 |})
                            (nth (i - 1) priceData
                                 {| high := 0; low := 0; close := 0 |}))).
      rewrite seq_nth by lia. reflexivity. }
  apply nth_In. lia.
Qed.

Lemma trueRange_positive (cur prev : Candle) :
  low cur < high cur -> 0 < trueRange cur prev.
Proof.
  intro H. unfold trueRange. cbv zeta.
  pose proof (Q.le_max_l (Qmax (high cur - low cur)
                               (Qabs (high cur - close prev)))
                         (Qabs (low cur - close prev))).
  pose proof (Q.le_max_l (high cur - low cur)
                         (Qabs (high cur - close prev))).
  lra.
Qed.

Lemma plusMove_nonneg (cur prev : Candle) : 0 <= plusMove cur prev.
Proof.
  unfold plusMove. cbv zeta.
  destruct (Js.gtb (high cur - high prev) (low prev - low cur)); cbn [andb];
    [| lra].
  case_cmp; reflect_cmp; lra.
Qed.

Lemma minusMove_nonneg (cur prev : Candle) : 0 <= minusMove cur prev.
Proof.
  unfold minusMove. cbv zeta.
  destruct (Js.gtb (low prev - low cur) (high cur - high prev)); cbn [andb];
    [| lra].
  case_cmp; reflect_cmp; lra.
Qed.

(** One turn of the second loop keeps its invariant. *)
Lemma smoothStep_invariant (period : nat) (trArray : list Q) (n k : nat)
  (st : Smoothing) :
  (1 <= period)%nat ->
  length trArray = n ->
  Forall (fun x => 0 <= x) trArray ->
  (forall j, (1 <= j)%nat -> (j < n)%nat -> 0 < nth j trArray 0) ->
  (1 <= k)%nat -> (k < n)%nat ->
  smoothingInvariant n k st ->
  smoothingInvariant n (S k) (smoothStep period trArray st k).
Proof.
  intros Hperiod Hlen Htr Hpos Hk Hkn
         (La & Lp & Lm & Lpd & Lmd & Fpd & Fmd & Hatr & Fp & Fm).
  pose proof (ofNat_positive period ltac:(lia)) as P.
  assert (P1 : 0 <= ofNat period - 1).
  { rewrite <- (ofNat_pred period) by lia.
    unfold ofNat. change 0 with (inject_Z 0). rewrite <- Zle_Qle. lia. }
  unfold smoothStep. cbv zeta.
  destruct (k <=? period)%nat eqn:E.
  - (* the plain mean *)
    set (atr_k := sum (slice 0 (k + 1) trArray) / ofNat (k + 1)).
    assert (A : 0 < atr_k).
    { unfold atr_k.
      apply Qlt_shift_div_l; [apply ofNat_positive; lia |].
      setoid_replace (0 * ofNat (k + 1)) with 0 by ring.
      apply (sum_positive _ (nth 1 trArray 0)).
      - apply slice_Forall. exact Htr.
      - unfold slice. rewrite Nat.sub_0_r. cbn [skipn].
        apply nth_In_firstn; lia.
      - apply Hpos; lia. }
    assert (D : forall dm, Forall (fun x => 0 <= x) dm ->
                           0 <= sum (slice 0 (k + 1) dm) / atr_k * 100).
    { intros dm Hdm.
      pose proof (sum_nonneg _ (slice_Forall _ 0 (k + 1) dm Hdm)) as S.
      assert (0 <= sum (slice 0 (k + 1) dm) / atr_k)
        by (apply Qle_shift_div_l; [exact A | lra]).
      lra. }
    unfold smoothingInvariant.
    cbn [atr plusDIs minusDIs plusDM minusDM].
    rewrite !length_app. cbn [length].
    repeat split; try lia; try assumption.
    + intros j Hj1 Hj2.
      destruct (Nat.eq_dec j k) as [-> | Hne].
      * rewrite app_nth2 by lia. rewrite La, Nat.sub_diag. exact A.
      * rewrite app_nth1 by lia. apply Hatr; lia.
    + apply Forall_app. split; [exact Fp |].
      constructor; [now apply D | constructor].
    + apply Forall_app. split; [exact Fm |].
      constructor; [now apply D | constructor].
  - (* Wilder's smoothing *)
    apply Nat.leb_gt in E.
    set (atr_k := (nth (k - 1) (atr st) 0 * (ofNat period - 1)
                   + nth k trArray 0) / ofNat period).
    assert (A : 0 < atr_k).
    { unfold atr_k.
      pose proof (Hatr (k - 1)%nat ltac:(lia) ltac:(lia)).
      pose proof (Hpos k ltac:(lia) ltac:(lia)).
      apply Qlt_shift_div_l; [exact P | nra]. }
    assert (S : forall dm, length dm = n -> Forall (fun x => 0 <= x) dm ->
                           0 <= (nth (k - 1) dm 0 * (ofNat period - 1)
                                 + nth k dm 0) / ofNat period).
    { intros dm Ldm Hdm.
      pose proof (nth_Forall _ dm (k - 1) 0 Hdm ltac:(lia)).
      pose proof (nth_Forall _ dm k 0 Hdm ltac:(lia)).
      cbv beta in *. apply Qle_shift_div_l; [exact P | nra]. }
    assert (D : forall dm, length dm = n -> Forall (fun x => 0 <= x) dm ->
                           0 <= (nth (k - 1) dm 0 * (ofNat period - 1)
                                 + nth k dm 0) / ofNat period
                                / atr_k * 100).
    { intros dm Ldm Hdm. pose proof (S dm Ldm Hdm) as S0.
      assert (0 <= (nth (k - 1) dm 0 * (ofNat period - 1) + nth k dm 0)
                   / ofNat period / atr_k)
        by (apply Qle_shift_div_l; [exact A | lra]).
      lra. }
    unfold smoothingInvariant.
    cbn [atr plusDIs minusDIs plusDM minusDM].
    rewrite !length_app. cbn [length].
    rewrite !setAt_length by lia.
    repeat split; try lia; try assumption.
    + apply setAt_Forall; [exact Fpd | now apply S].
    + apply setAt_Forall; [exact Fmd | now apply S].
    + intros j Hj1 Hj2.
      destruct (Nat.eq_dec j k) as [-> | Hne].
      * rewrite app_nth2 by lia. rewrite La, Nat.sub_diag. exact A.
      * rewrite app_nth1 by lia. apply Hatr; lia.
    + apply Forall_app. split; [exact Fp |].
      constructor; [now apply D | constructor].
    + apply Forall_app. split; [exact Fm |].
      constructor; [now apply D | constructor].
Qed.

Lemma smoothStep_fold (period : nat) (trArray : list Q) (n : nat) :
  (1 <= period)%nat ->
  length trArray = n ->
  Forall (fun x => 0 <= x) trArray ->
  (forall j, (1 <= j)%nat -> (j < n)%nat -> 0 < nth j trArray 0) ->
  forall (m k : nat) (st : Smoothing),
    (1 <= k)%nat -> (k + m <= n)%nat ->
    smoothingInvariant n k st ->
    smoothingInvariant n (k + m)
      (fold_left (smoothStep period trArray) (seq k m) st).
Proof.
  intros Hperiod Hlen Htr Hpos.
  induction m as [| m IH]; intros k st Hk Hkm Inv; cbn [seq fold_left].
  - now rewrite Nat.add_0_r.
  - replace (k + S m)%nat with (S k + m)%nat by lia.
    apply IH; [lia | lia |].
    apply smoothStep_invariant; try assumption; lia.
Qed.

Lemma dxOf_range (p m : Q) :
  0 <= p -> 0 <= m -> 0 <= dxOf p m /\ dxOf p m <= 100.
Proof.
  intros Hp Hm. unfold dxOf.
  destruct (Js.eqb (p + m) 0) eqn:E; reflect_cmp; [split; lra |].
  assert (S : 0 < p + m).
  { destruct (Qlt_le_dec 0 (p + m)) as [S | S]; [exact S |].
    exfalso. apply E. lra. }
  pose proof (Qabs_nonneg (p - m)) as A0.
  assert (A1 : Qabs (p - m) <= p + m)
    by (apply Qabs_Qle_condition; split; lra).
  assert (R0 : 0 <= Qabs (p - m) / (p + m))
    by (apply Qle_shift_div_l; [exact S | lra]).
  assert (R1 : Qabs (p - m) / (p + m) <= 1)
    by (apply Qle_shift_div_r; [exact S | lra]).
  split; lra.
Qed.

Lemma adxCeiling_above_100 (period : nat) :
  (1 <= period)%nat -> 100 <= adxCeiling period.
Proof.
  intro H. pose proof (ofNat_positive period ltac:(lia)) as P.
  unfold adxCeiling. apply Qle_shift_div_l; [exact P | lra].
Qed.

(** One turn of the third loop keeps its invariant. *)
Lemma adxStep_invariant (period : nat) (plusDI minusDI : list Q) (k : nat)
  (st : list Q * list (option Q)) :
  (1 <= period)%nat ->
  Forall (fun x => 0 <= x) plusDI -> Forall (fun x => 0 <= x) minusDI ->
  (k < length plusDI)%nat -> (k < length minusDI)%nat ->
  (1 <= k)%nat ->
  averagingInvariant period k st ->
  averagingInvariant period (S k) (adxStep period plusDI minusDI st k).
Proof.
  intros Hperiod Fp Fm Lp Lm Hk (Ldx & Fdx & Ladx & Hnull & Hnum).
  pose proof (ofNat_positive period ltac:(lia)) as P.
  pose proof (adxCeiling_above_100 period Hperiod) as C100.
  assert (P1 : 0 <= ofNat period - 1).
  { rewrite <- (ofNat_pred period) by lia.
    unfold ofNat. change 0 with (inject_Z 0). rewrite <- Zle_Qle. lia. }
  destruct st as [dx adxs]. cbn [fst snd] in *.
  unfold adxStep. cbv zeta. cbn [fst snd].
  set (d := dxOf (nth k plusDI 0) (nth k minusDI 0)).
  assert (D : 0 <= d /\ d <= 100).
  { apply dxOf_range.
    - apply (nth_Forall (fun x => 0 <= x)); assumption.
    - apply (nth_Forall (fun x => 0 <= x)); assumption. }
  assert (Fdx' : Forall (fun x => 0 <= x /\ x <= 100) (dx ++ [d])).
  { apply Forall_app. split; [exact Fdx |]. constructor; [exact D |].
    constructor. }
  assert (Ldx' : length (dx ++ [d]) = S k)
    by (rewrite length_app; cbn [length]; lia).
  destruct (period + 1 <=? k)%nat eqn:E1.
  - apply Nat.leb_le in E1.
    destruct (k =? period + 1)%nat eqn:E2.
    + apply Nat.eqb_eq in E2.
      set (first := sum (slice (k - period) (k + 1) (dx ++ [d]))
                    / ofNat period).
      assert (B : 0 <= first /\ first <= adxCeiling period).
      { assert (Fs : Forall (fun x => 0 <= x /\ x <= 100)
                            (slice (k - period) (k + 1) (dx ++ [d])))
          by (apply slice_Forall; exact Fdx').
        destruct (sum_bounds 0 100 _ Fs) as [S1 S2].
        rewrite slice_length in S1, S2 by lia.
        replace (k + 1 - (k - period))%nat with (S period) in S1, S2 by lia.
        rewrite ofNat_S in S1, S2.
        unfold first, adxCeiling. split.
        - apply Qle_shift_div_l; [exact P | lra].
        - apply Qle_shift_div_r; [exact P |].
          setoid_replace (100 * (ofNat period + 1) / ofNat period
                          * ofNat period)
            with (100 * (ofNat period + 1)) by (field; lra).
          lra. }
      unfold averagingInvariant. cbn [fst snd].
      split; [exact Ldx' |]. split; [exact Fdx' |].
      split; [rewrite length_app; cbn [length]; lia |].
      split.
      * intros j Hj. rewrite app_nth1 by lia. now apply Hnull.
      * intros j Hj1 Hj2. assert (j = k) by lia. subst j.
        rewrite app_nth2 by lia.
        replace (k - length adxs)%nat with 0%nat by lia.
        exists first. split; [reflexivity | exact B].
    + apply Nat.eqb_neq in E2.
      destruct (Hnum (k - 1)%nat ltac:(lia) ltac:(lia))
        as (v & Ev & V0 & V1).
      rewrite Ev. cbn [Js.toNumber].
      rewrite (app_nth2 dx) by lia.
      replace (k - length dx)%nat with 0%nat by lia. cbn [nth].
      set (next := (v * (ofNat period - 1) + d) / ofNat period).
      assert (B : 0 <= next /\ next <= adxCeiling period).
      { unfold next. split.
        - apply Qle_shift_div_l; [exact P | nra].
        - apply Qle_shift_div_r; [exact P | nra]. }
      unfold averagingInvariant. cbn [fst snd].
      split; [exact Ldx' |]. split; [exact Fdx' |].
      split; [rewrite length_app; cbn [length]; lia |].
      split.
      * intros j Hj. rewrite app_nth1 by lia. now apply Hnull.
      * intros j Hj1 Hj2.
        destruct (Nat.eq_dec j k) as [-> | Hne].
        -- rewrite app_nth2 by lia.
           replace (k - length adxs)%nat with 0%nat by lia.
           exists next. split; [reflexivity | exact B].
        -- rewrite app_nth1 by lia. apply Hnum; lia.
  - apply Nat.leb_gt in E1.
    unfold averagingInvariant. cbn [fst snd].
    split; [exact Ldx' |]. split; [exact Fdx' |].
    split; [lia |].
    split; [exact Hnull |].
    intros j Hj1 Hj2. lia.
Qed.

Lemma adxStep_fold (period : nat) (plusDI minusDI : list Q) :
  (1 <= period)%nat ->
  Forall (fun x => 0 <= x) plusDI -> Forall (fun x => 0 <= x) minusDI ->
  length minusDI = length plusDI ->
  forall (m k : nat) (st : list Q * list (option Q)),
    (1 <= k)%nat -> (k + m <= length plusDI)%nat ->
    averagingInvariant period k st ->
    averagingInvariant period (k + m)
      (fold_left (adxStep period plusDI minusDI) (seq k m) st).
Proof.
  intros Hperiod Fp Fm Lm.
  induction m as [| m IH]; intros k st Hk Hkm Inv; cbn [seq fold_left].
  - now rewrite Nat.add_0_r.
  - replace (k + S m)%nat with (S k + m)%nat by lia.
    apply IH; [lia | lia |].
    apply adxStep_invariant; try assumption; lia.
Qed.

(** For a period of at least one, at least twice as many candles, and
    every candle with its high above its low, [calculateADX] returns one
    object per candle; both directional indices are never negative; the
    ADX is [null] up to index [period] and a number afterwards, between 0
    and [100 * (period + 1) / period]: the first average adds
    [period + 1] directional indices and divides by [period], so that the
    ADX can exceed 100.  With fewer candles every entry is [null]. *)
Theorem calculateADX_range (priceData : list Candle) (period : nat)
  (Hperiod : (1 <= period)%nat)
  (Hlen : (period * 2 <= length priceData)%nat)
  (Hcandles : Forall (fun c => low c < high c) priceData) :
  length (calculateADX priceData period) = length priceData
  /\ (forall i, (i < length priceData)%nat ->
        exists entry,
          nth i (calculateADX priceData period) None = Some entry
          /\ 0 <= plusDI entry /\ 0 <= minusDI entry
          /\ (adx entry = None <-> (i <= period)%nat)
          /\ (forall v, adx entry = Some v ->
                0 <= v /\ v <= 100 * (ofNat period + 1) / ofNat period))
  /\ (forall short : list Candle,
        (length short < period * 2)%nat ->
        calculateADX short period = repeat None (length short)).
Proof.
  split; [| split].
  - unfold calculateADX.
    destruct (length priceData <? period * 2)%nat.
    + apply repeat_length.
    + rewrite length_map, length_seq. reflexivity.
  - intros i Hi. unfold calculateADX.
    assert (E : (length priceData <? period * 2)%nat = false)
      by (apply Nat.ltb_ge; exact Hlen).
    rewrite E. cbv zeta.
    set (n := length priceData) in *.
    set (trArray := movements trueRange priceData).
    assert (Ltr : length trArray = n)
      by (apply movements_length; fold n; lia).
    assert (Ftr : Forall (fun x => 0 <= x) trArray).
    { apply movements_Forall; [lra |].
      intros cur prev Hcur. rewrite Forall_forall in Hcandles.
      pose proof (trueRange_positive cur prev (Hcandles cur Hcur)). lra. }
    assert (Ptr : forall j, (1 <= j)%nat -> (j < n)%nat ->
                            0 < nth j trArray 0).
    { intros j Hj1 Hj2.
      destruct (movements_nth trueRange priceData j Hj1 Hj2)
        as (cur & prev & Hcur & Enth).
      unfold trArray. rewrite Enth.
      rewrite Forall_forall in Hcandles.
      apply trueRange_positive. now apply Hcandles. }
    rewrite Ltr.
    set (start := {| atr := [nth 0 trArray 0];
                     plusDM := movements plusMove priceData;
                     minusDM := movements minusMove priceData;
                     plusDIs := [0]; minusDIs := [0] |}).
    assert (Inv0 : smoothingInvariant n 1 start).
    { unfold smoothingInvariant, start.
      cbn [atr plusDIs minusDIs plusDM minusDM length].
      repeat split; try reflexivity.
      - apply movements_length. fold n. lia.
      - apply movements_length. fold n. lia.
      - apply movements_Forall; [lra |].
        intros. apply plusMove_nonneg.
      - apply movements_Forall; [lra |].
        intros. apply minusMove_nonneg.
      - intros j Hj1 Hj2. lia.
      - repeat constructor. lra.
      - repeat constructor. lra. }
    pose proof (smoothStep_fold period trArray n Hperiod Ltr Ftr Ptr
                  (n - 1) 1 start ltac:(lia) ltac:(lia) Inv0) as Inv.
    replace (1 + (n - 1))%nat with n in Inv by lia.
    set (smoothed := fold_left (smoothStep period trArray)
                               (seq 1 (n - 1)) start) in *.
    destruct Inv as (_ & Lp & Lm & _ & _ & _ & _ & _ & Fp & Fm).
    rewrite Lp.
    assert (Avg0 : averagingInvariant period 1
                     ([0], repeat None (period + 1))).
    { unfold averagingInvariant. cbn [fst snd length].
      split; [reflexivity |].
      split; [repeat constructor; lra |].
      split; [rewrite repeat_length; lia |].
      split.
      - intros j Hj. apply nth_repeat_lt. lia.
      - intros j Hj1 Hj2. lia. }
    pose proof (adxStep_fold period (plusDIs smoothed) (minusDIs smoothed)
                  Hperiod Fp Fm ltac:(lia) (n - 1) 1
                  ([0], repeat None (period + 1))
                  ltac:(lia) ltac:(lia) Avg0) as Avg.
    replace (1 + (n - 1))%nat with n in Avg by lia.
    set (averaged := fold_left
                       (adxStep period (plusDIs smoothed)
                                (minusDIs smoothed))
                       (seq 1 (n - 1))
                       ([0], repeat None (period + 1))) in *.
    destruct Avg as (_ & _ & _ & Hnull & Hnum).
    rewrite (nth_map_seq
               (fun i => Some {| plusDI := nth i (plusDIs smoothed) 0;
                                 minusDI := nth i (minusDIs smoothed) 0;
                                 adx := nth i (snd averaged) None |}))
      by exact Hi.
    eexists. split; [reflexivity |]. cbn [plusDI minusDI adx].
    split; [apply (nth_Forall (fun x => 0 <= x)); [exact Fp | lia] |].
    split; [apply (nth_Forall (fun x => 0 <= x)); [exact Fm | lia] |].
    destruct (Nat.le_gt_cases i period) as [Hle | Hgt].
    + rewrite (Hnull i Hle). split; [tauto | discriminate].
    + destruct (Hnum i Hgt Hi) as (v & Ev & V0 & V1). rewrite Ev.
      split.
      * split; [discriminate | lia].
      * intros v' Hv'. injection Hv' as <-. split; [exact V0 | exact V1].
  - intros short Hshort. unfold calculateADX.
    apply Nat.ltb_lt in Hshort. now rewrite Hshort.
Qed.

Lemma calculateADX_range_witness :
  exists entry v,
    nth 2 (calculateADX [ {| high := 2; low := 1; close := 2 |};
                          {| high := 4; low := 3; close := 4 |};
                          {| high := 6; low := 5; close := 6 |} ] 1) None
    = Some entry
    /\ adx entry = Some v
    /\ 0 <= v /\ v <= 200 /\ 100 < v.
Proof.
  destruct (calculateADX_range
              [ {| high := 2; low := 1; close := 2 |};
                {| high := 4; low := 3; close := 4 |};
                {| high := 6; low := 5; close := 6 |} ] 1)
    as (_ & A & _).
  - lia.
  - simpl. lia.
  - repeat constructor.
  - destruct (A 2%nat ltac:(simpl; lia)) as (entry & E & _ & _ & _ & B).
    vm_compute in E. injection E as <-.
    eexists. eexists. split; [vm_compute; reflexivity |].
    split; [reflexivity |].
    destruct (B _ eq_refl) as [B0 B1].
    split; [exact B0 |]. split; [| reflexivity].
    apply Qle_trans with (100 * (ofNat 1 + 1) / ofNat 1); [exact B1 |].
    discriminate.
Defined.

End Adx.
